(** * The shared STOMP connection broker of angular16-app

    A shallow embedding of [src/assets/stomp-worker-enhanced.js] (the
    SharedWorker holding one [ProviderConnection] per provider id) and of the
    request/response correlation of the two Angular services that talk to a
    worker ([StompClientEnhancedService] and [StompClientService]).

    The worker file carries two revisions of the worker; they differ in
    logging and in whether [handleConnect] answers the request. The model
    follows the first one (lines 1-459), whose [handleConnect] posts the
    response.

    Conventions of the embedding.
    - A JavaScript string is a [string]: a sequence of code units, here the
      code units U+0000..U+00FF (one [ascii] each).
    - [Date.now()], [Math.random()] and the transport callbacks belong to the
      environment: the current time and the generated identifiers are
      arguments of the operations, and a callback is an event.
    - An operation returns the new state together with the list of effects it
      performed, in program order; where it can throw, the thrown message is
      a further component of the result.
    - A request is a well-formed envelope: a connect request carries its
      configuration, every request its provider id.
    - [port.postMessage] of a cloneable message does not throw. *)

From Stdlib Require Import Bool Arith ZArith List Ascii String Lia.
From Stdlib Require Import DecimalString DecimalNat DecimalZ.
Import ListNotations.

Local Open Scope bool_scope.
Local Open Scope string_scope.
Local Open Scope list_scope.

(** ** JavaScript strings *)

Module JsString.

(** [WhiteSpace] and [LineTerminator] code units below U+0100, the ones
    [String.prototype.trim] removes: TAB, LF, VT, FF, CR, SP, NBSP. *)
Definition isWhiteSpace (c : ascii) : bool :=
  let n := nat_of_ascii c in
  Nat.eqb n 9 || Nat.eqb n 10 || Nat.eqb n 11 || Nat.eqb n 12
  || Nat.eqb n 13 || Nat.eqb n 32 || Nat.eqb n 160.

Fixpoint trimStart (s : string) : string :=
  match s with
  | String c s' => if isWhiteSpace c then trimStart s' else s
  | EmptyString => EmptyString
  end.

Fixpoint trimEnd (s : string) : string :=
  match s with
  | String c s' =>
      match trimEnd s' with
      | EmptyString => if isWhiteSpace c then EmptyString else String c EmptyString
      | r => String c r
      end
  | EmptyString => EmptyString
  end.

(** [s.trim()] *)
Definition trim (s : string) : string := trimEnd (trimStart s).

(** Lower-case mapping of one code unit: A-Z, and the Latin-1 capitals
    U+00C0..U+00DE without the multiplication sign U+00D7. *)
Definition toLowerCaseUnit (c : ascii) : ascii :=
  let n := nat_of_ascii c in
  if (Nat.leb 65 n && Nat.leb n 90)
     || (Nat.leb 192 n && Nat.leb n 222 && negb (Nat.eqb n 215))
  then ascii_of_nat (n + 32) else c.

(** [s.toLowerCase()] *)
Fixpoint toLowerCase (s : string) : string :=
  match s with
  | String c s' => String (toLowerCaseUnit c) (toLowerCase s')
  | EmptyString => EmptyString
  end.

(** [s.includes(t)]: [t] occurs in [s] as a contiguous substring. *)
Fixpoint includes (s t : string) : bool :=
  prefix t s
  || match s with
     | String _ s' => includes s' t
     | EmptyString => false
     end.

(** JavaScript truthiness of a string: the empty string is falsy. *)
Definition truthy (s : string) : bool :=
  match s with EmptyString => false | _ => true end.

(** Decimal rendering of an integer, as [String(n)] and template
    literals give it for a safe integer (of magnitude at most 2^53): a
    length, a counter, a time in milliseconds. *)
Definition ofZ (n : Z) : string := NilEmpty.string_of_int (Z.to_int n).

(** A number that comes with a message, whatever its size and whether or
    not it is an integer, is carried by its canonical text: the text
    [String(n)] and a template literal give (["1000"], ["1.5"], ["1e+21"],
    ["NaN"]); both zeros have the text ["0"]. *)
Record JsNumber := mkNumber { numberText : string }.

(** JavaScript truthiness of a number: the zeros and [NaN] are falsy. *)
Definition numberTruthy (n : JsNumber) : bool :=
  negb (String.eqb (numberText n) "0" || String.eqb (numberText n) "NaN").

End JsString.

Import JsString.

(** ** Configuration and the end-token test *)

(** The [config] object of a connect request. Every field but the URL may be
  missing ([undefined]). *)
Record Config := mkConfig {
websocketUrl : string;
dataType : option string;
messageRate : option JsNumber;
batchSize : option JsNumber;
snapshotEndToken : option string;
keyColumn : option string;
snapshotTimeoutMs : option JsNumber
}.

(** [ProviderConnection.isEndToken]: [false] when no token is configured;
  otherwise the trimmed, lower-cased body is searched for the lower-cased
  token and for the literal ["success"]. *)
Definition isEndToken (config : Config) (messageBody : string) : bool :=
match snapshotEndToken config with
| None => false
| Some token =>
    if negb (truthy token) then false
    else
      let trimmedBody := toLowerCase (trim messageBody) in
      let endToken := toLowerCase token in
      includes trimmedBody endToken || includes trimmedBody "success"
end.

(** ** JavaScript [Map]

    A [Map] keeps its entries in insertion order; [set] on a present key
    replaces the value where the entry stands, [delete] removes the entry. *)

Module JsMap.
Section WithValue.

Context {V : Type}.

(** Every map of the worker is keyed by strings. *)
Definition t := list (string * V).

Definition empty : t := [].

Fixpoint get (m : t) (k : string) : option V :=
  match m with
  | [] => None
  | (k', v) :: m' => if string_dec k k' then Some v else get m' k
  end.

Definition has (m : t) (k : string) : bool :=
  match get m k with Some _ => true | None => false end.

Fixpoint set (m : t) (k : string) (v : V) : t :=
  match m with
  | [] => [(k, v)]
  | (k', v') :: m' =>
      if string_dec k k' then (k, v) :: m' else (k', v') :: set m' k v
  end.

Fixpoint delete (m : t) (k : string) : t :=
  match m with
  | [] => []
  | (k', v') :: m' => if string_dec k k' then m' else (k', v') :: delete m' k
  end.

Definition size (m : t) : nat := List.length m.

Definition keys (m : t) : list string := map fst m.

Definition values (m : t) : list V := map snd m.

End WithValue.
Arguments t : clear implicits.

End JsMap.

(** ** JavaScript values that [JSON.parse] produces

    A number is carried by its canonical text, the one [String(n)] gives:
    that text determines the number value (up to the sign of zero). *)

#[warnings="-register-all"]
Inductive JsValue :=
| JNull
| JBool (b : bool)
| JNum (text : string)
| JStr (s : string)
| JArr (items : list JsValue)
| JObj (fields : list (string * JsValue)).

(** The result of reading a property, [v[name]]. *)
Inductive PropRead :=
| PThrow                     (* TypeError: v is null *)
| PUndefined
| PValue (v : JsValue)       (* an own property of v *)
| PInherited (text : string).
                             (* a property of a prototype of v, which is no JSON
                                value: a built-in function or object; [text] is
                                what [String] makes of it *)

(** A canonical array index: the decimal text of a natural number. *)
Definition arrayIndex (name : string) : option nat :=
  match NilEmpty.uint_of_string name with
  | Some u =>
      let n := Nat.of_uint u in
      if String.eqb (ofZ (Z.of_nat n)) name then Some n else None
  | None => None
  end.

(** The prototypes of the engine. [inherited v name] is what reading
    [v[name]] finds on the prototype chain of [v] when [v] has no own
    property [name]: [Some text] for a property whose value is neither
    [undefined] nor [null] ([constructor], [toString], [__proto__], ..., each
    with the text [String] makes of its value), [None] when no prototype of
    [v] has the property. Which names the prototypes define depends on the
    engine and its version: the model holds for every engine. *)
Class Engine := {
  inherited : JsValue -> string -> option string
}.

(** An own property of [v]: a field of an object, [length] and the
    indices of an array or a string. *)
Definition ownProp (v : JsValue) (name : string) : option JsValue :=
  match v with
  | JNull | JBool _ | JNum _ => None
  | JStr s =>
      if String.eqb name "length" then Some (JNum (ofZ (Z.of_nat (String.length s))))
      else match arrayIndex name with
           | Some i => match String.get i s with
                       | Some c => Some (JStr (String c EmptyString))
                       | None => None
                       end
           | None => None
           end
  | JArr items =>
      if String.eqb name "length" then Some (JNum (ofZ (Z.of_nat (List.length items))))
      else match arrayIndex name with
           | Some i => nth_error items i
           | None => None
           end
  | JObj fields => JsMap.get fields name
  end.

(** [v[name]]: the own property when there is one, else what the
    prototype chain has; reading a property of [null] throws. *)
Definition getProp {engine : Engine} (v : JsValue) (name : string) : PropRead :=
  match v with
  | JNull => PThrow
  | _ =>
      match ownProp v name with
      | Some x => PValue x
      | None =>
          match inherited v name with
          | Some text => PInherited text
          | None => PUndefined
          end
      end
  end.

(** [parts.join(sep)] *)
Fixpoint join (sep : string) (parts : list string) : string :=
  match parts with
  | [] => ""
  | [x] => x
  | x :: rest => (x ++ sep ++ join sep rest)%string
  end.

(** [String(v)] *)
Fixpoint toString (v : JsValue) : string :=
  match v with
  | JNull => "null"
  | JBool true => "true"
  | JBool false => "false"
  | JNum text => text
  | JStr s => s
  | JArr items =>
      join "," (map (fun x => match x with JNull => "" | _ => toString x end) items)
  | JObj _ => "[object Object]"
  end.

(** [Array.isArray(data) ? data : [data]] *)
Definition asArray (data : JsValue) : list JsValue :=
  match data with
  | JArr items => items
  | _ => [data]
  end.

(** ** A reference JSON reader

    [JSON.parse] belongs to the runtime; the worker is modelled for any
    reader [string -> option JsValue] ([None]: a [SyntaxError] was thrown).
    [JsonText.parse] is a reader for evaluating the model on concrete
    frames. It follows the JSON grammar; where the fragment it covers ends
    (a number with a fraction, an exponent or more than 15 digits, a
    [\u] escape above U+00FF) it gives [None]. *)

Module JsonText.

(** The quotation mark, U+0022. *)
Definition quote : ascii := ascii_of_nat 34.

(** A text between quotation marks, for writing JSON texts down. *)
Definition quoted (s : string) : string :=
  String quote (s ++ String quote EmptyString)%string.

Definition isJsonSpace (c : ascii) : bool :=
  let n := nat_of_ascii c in
  Nat.eqb n 32 || Nat.eqb n 9 || Nat.eqb n 10 || Nat.eqb n 13.

Fixpoint skipSpace (s : string) : string :=
  match s with
  | String c s' => if isJsonSpace c then skipSpace s' else s
  | EmptyString => EmptyString
  end.

Definition isDigit (c : ascii) : bool :=
  let n := nat_of_ascii c in Nat.leb 48 n && Nat.leb n 57.

Definition hexValue (c : ascii) : option nat :=
  let n := nat_of_ascii c in
  if Nat.leb 48 n && Nat.leb n 57 then Some (n - 48)
  else if Nat.leb 65 n && Nat.leb n 70 then Some (n - 55)
  else if Nat.leb 97 n && Nat.leb n 102 then Some (n - 87)
  else None.

(** The characters of a string literal after its opening quote. *)
Fixpoint readString (s : string) : option (string * string) :=
  match s with
  | EmptyString => None
  | String c s' =>
      if Ascii.eqb c quote then Some (EmptyString, s')
      else if Nat.ltb (nat_of_ascii c) 32 then None
      else if Ascii.eqb c "\"%char then
        match s' with
        | String e s'' =>
            let simple (u : ascii) :=
              match readString s'' with
              | Some (text, rest) => Some (String u text, rest)
              | None => None
              end in
            if Ascii.eqb e quote then simple quote
            else if Ascii.eqb e "\"%char then simple "\"%char
            else if Ascii.eqb e "/"%char then simple "/"%char
            else if Ascii.eqb e "b"%char then simple (ascii_of_nat 8)
            else if Ascii.eqb e "f"%char then simple (ascii_of_nat 12)
            else if Ascii.eqb e "n"%char then simple (ascii_of_nat 10)
            else if Ascii.eqb e "r"%char then simple (ascii_of_nat 13)
            else if Ascii.eqb e "t"%char then simple (ascii_of_nat 9)
            else if Ascii.eqb e "u"%char then
              match s'' with
              | String h1 (String h2 (String h3 (String h4 s3))) =>
                  match hexValue h1, hexValue h2, hexValue h3, hexValue h4 with
                  | Some 0, Some 0, Some a, Some b =>
                      match readString s3 with
                      | Some (text, rest) => Some (String (ascii_of_nat (16 * a + b)) text, rest)
                      | None => None
                      end
                  | _, _, _, _ => None
                  end
              | _ => None
              end
            else None
        | EmptyString => None
        end
      else
        match readString s' with
        | Some (text, rest) => Some (String c text, rest)
        | None => None
        end
  end.

Fixpoint readDigits (s : string) : string * string :=
  match s with
  | String c s' =>
      if isDigit c then let (d, rest) := readDigits s' in (String c d, rest)
      else (EmptyString, s)
  | EmptyString => (EmptyString, EmptyString)
  end.

(** An integer literal, with its canonical text. *)
Definition readNumber (s : string) : option (JsValue * string) :=
  let (negative, body) :=
    match s with
    | String c s' => if Ascii.eqb c "-"%char then (true, s') else (false, s)
    | EmptyString => (false, s)
    end in
  let (digits, rest) := readDigits body in
  let continues :=
    match rest with
    | String c _ => Ascii.eqb c "."%char || Ascii.eqb c "e"%char || Ascii.eqb c "E"%char
    | EmptyString => false
    end in
  match digits with
  | EmptyString => None
  | String d more =>
      if continues then None
      else if Nat.ltb 15 (String.length digits) then None
      else if Ascii.eqb d "0"%char then
        match more with
        | EmptyString => Some (JNum "0", rest)
        | _ => None
        end
      else Some (JNum (if negative then String "-"%char digits else digits), rest)
  end.

Fixpoint readValue (fuel : nat) (s : string) : option (JsValue * string) :=
  match fuel with
  | O => None
  | S fuel' =>
      match skipSpace s with
      | EmptyString => None
      | String c s' =>
          if Ascii.eqb c "{"%char then
            match skipSpace s' with
            | String c' s'' =>
                if Ascii.eqb c' "}"%char then Some (JObj [], s'')
                else readMembers fuel' (String c' s'') []
            | EmptyString => None
            end
          else if Ascii.eqb c "["%char then
            match skipSpace s' with
            | String c' s'' =>
                if Ascii.eqb c' "]"%char then Some (JArr [], s'')
                else readElements fuel' (String c' s'') []
            | EmptyString => None
            end
          else if Ascii.eqb c quote then
            match readString s' with
            | Some (text, rest) => Some (JStr text, rest)
            | None => None
            end
          else if prefix "true" (String c s') then Some (JBool true, substring 3 (String.length s') s')
          else if prefix "false" (String c s') then Some (JBool false, substring 4 (String.length s') s')
          else if prefix "null" (String c s') then Some (JNull, substring 3 (String.length s') s')
          else readNumber (String c s')
      end
  end

with readElements (fuel : nat) (s : string) (acc : list JsValue)
  : option (JsValue * string) :=
  match fuel with
  | O => None
  | S fuel' =>
      match readValue fuel' s with
      | Some (v, rest) =>
          match skipSpace rest with
          | String c rest' =>
              if Ascii.eqb c ","%char then readElements fuel' rest' (acc ++ [v])
              else if Ascii.eqb c "]"%char then Some (JArr (acc ++ [v]), rest')
              else None
          | EmptyString => None
          end
      | None => None
      end
  end

with readMembers (fuel : nat) (s : string) (acc : list (string * JsValue))
  : option (JsValue * string) :=
  match fuel with
  | O => None
  | S fuel' =>
      match skipSpace s with
      | String q s' =>
          if Ascii.eqb q quote then
            match readString s' with
            | Some (name, rest) =>
                match skipSpace rest with
                | String colon rest' =>
                    if Ascii.eqb colon ":"%char then
                      match readValue fuel' rest' with
                      | Some (v, rest'') =>
                          match skipSpace rest'' with
                          | String c rest3 =>
                              if Ascii.eqb c ","%char
                              then readMembers fuel' rest3 (JsMap.set acc name v)
                              else if Ascii.eqb c "}"%char
                              then Some (JObj (JsMap.set acc name v), rest3)
                              else None
                          | EmptyString => None
                          end
                      | None => None
                      end
                    else None
                | EmptyString => None
                end
            | None => None
            end
          else None
      | EmptyString => None
      end
  end.

(** One JSON text, and nothing but white space after it. *)
Definition parse (s : string) : option JsValue :=
  match readValue (2 * String.length s + 2) s with
  | Some (v, rest) =>
      match skipSpace rest with
      | EmptyString => Some v
      | _ => None
      end
  | None => None
  end.

End JsonText.
(** ** Messages, effects and the provider connection *)

Inductive Mode := Idle | Snapshot | Realtime.

(** [ProviderConnection.statistics] *)
Record Statistics := mkStatistics {
  snapshotRowsReceived : Z;
  updateRowsReceived : Z;
  connectionCount : Z;
  disconnectionCount : Z;
  isConnected : bool;
  bytesReceived : Z;
  mode : Mode
}.

(** A consumer's [MessagePort], named by the id the worker gave it. *)
Inductive Port := MessagePort (portId : string).

(** The payload of a [type: 'response'] message. *)
Inductive Payload :=
| Success                                   (* success: true *)
| SnapshotData (data : list JsValue)        (* data: snapshot *)
| StatisticsOf (stats : option Statistics). (* statistics: stats, or null *)

(** What the worker posts to a port. *)
Inductive Envelope :=
| Response (id : string) (payload : Payload)
| ErrorResponse (id : string) (error : string)
| Connected (providerId clientId : string)
| Disconnected (providerId : string)
| Data (providerId : string) (data : list JsValue) (isSnapshot : bool)
| SnapshotComplete (providerId : string) (rowCount duration : Z)
| ErrorEvent (providerId : string) (error : string).

(** The [id] field of a posted message. *)
Definition envelopeId (m : Envelope) : option string :=
  match m with
  | Response id _ | ErrorResponse id _ => Some id
  | _ => None
  end.

(** The [error] field of a posted message. *)
Definition envelopeError (m : Envelope) : option string :=
  match m with
  | ErrorResponse _ e | ErrorEvent _ e => Some e
  | _ => None
  end.

(** A [StompJs.Client] the worker created, with what its callbacks captured. *)
Record StompClient := mkStompClient {
  brokerURL : string;
  clientId : string;
  listenerTopic : string;
  triggerDestination : string
}.

Inductive Effect :=
| PostMessage (port : Port) (m : Envelope)   (* port.postMessage(m) *)
| Activate (c : StompClient)                 (* c.activate() *)
| Deactivate (c : StompClient)               (* c.deactivate() *)
| Subscribe (c : StompClient) (topic : string)
| Unsubscribe (c : StompClient) (topic : string)
| Publish (c : StompClient) (destination body : string)
| SetTimeout (delay : Z).


(** The messages an effect list delivers to one port, in order. *)
Fixpoint postedTo (portId : string) (es : list Effect) : list Envelope :=
  match es with
  | PostMessage (MessagePort q) m :: es' =>
      if string_dec q portId then m :: postedTo portId es' else postedTo portId es'
  | _ :: es' => postedTo portId es'
  | [] => []
  end.

Record ProviderConnection := mkProvider {
  providerId : string;
  config : Config;
  snapshot : JsMap.t JsValue;
  lastUpdate : Z;
  subscribers : JsMap.t Port;
  connection : option StompClient;
  subscription : option (StompClient * string);
  statistics : Statistics;
  isConnecting : bool;
  isSnapshotComplete : bool;
  snapshotStartTime : Z
}.

(** [new ProviderConnection(providerId, config)] *)
Definition newProviderConnection (providerId : string) (config : Config) (now : Z)
  : ProviderConnection :=
  {| providerId := providerId;
     config := config;
     snapshot := JsMap.empty;
     lastUpdate := now;
     subscribers := JsMap.empty;
     connection := None;
     subscription := None;
     statistics := {| snapshotRowsReceived := 0; updateRowsReceived := 0;
                      connectionCount := 0; disconnectionCount := 0;
                      isConnected := false; bytesReceived := 0; mode := Idle |};
     isConnecting := false;
     isSnapshotComplete := false;
     snapshotStartTime := 0 |}.

(** [a || b] on an optional string: the default replaces [undefined] and
    the empty string. *)
Definition orString (a : option string) (b : string) : string :=
  match a with
  | Some s => if truthy s then s else b
  | None => b
  end.

Definition orNumber (a : option JsNumber) (b : JsNumber) : JsNumber :=
  match a with
  | Some n => if numberTruthy n then n else b
  | None => b
  end.

Definition buildTriggerDestination (config : Config) (clientId : string) : string :=
  let dataType := orString (dataType config) "positions" in
  let rate := orNumber (messageRate config) (mkNumber "1000") in
  let destination :=
    ("/snapshot/" ++ dataType ++ "/" ++ clientId ++ "/" ++ numberText rate)%string in
  match batchSize config with
  | Some b =>
      if numberTruthy b then (destination ++ "/" ++ numberText b)%string else destination
  | None => destination
  end.

Definition buildListenerTopic (config : Config) (clientId : string) : string :=
  let dataType := orString (dataType config) "positions" in
  ("/snapshot/" ++ dataType ++ "/" ++ clientId)%string.

(** [ProviderConnection.broadcast]: one [postMessage] per subscriber, in the
    order the ports were attached. Posting a cloneable message does not
    throw, so the dead-port branch is not taken. *)
Definition broadcast (p : ProviderConnection) (m : Envelope) : list Effect :=
  map (fun entry => PostMessage (snd entry) m) (subscribers p).

(** [ProviderConnection.getSnapshot] *)
Definition getSnapshot (p : ProviderConnection) : list JsValue :=
  JsMap.values (snapshot p).

(** What the loop body of [applyUpdatesToSnapshot] does with one record. *)
Inductive KeyOutcome :=
| KeyThrows                (* update is null: reading the key throws *)
| KeySkipped               (* key is undefined or null *)
| KeyIs (key : string).    (* String(key) *)

Definition keyOutcome {engine : Engine} (keyColumn : string) (update : JsValue)
  : KeyOutcome :=
  match getProp update keyColumn with
  | PThrow => KeyThrows
  | PUndefined => KeySkipped
  | PValue JNull => KeySkipped
  | PValue key => KeyIs (toString key)
  | PInherited text => KeyIs text
  end.

(** The [forEach] of [applyUpdatesToSnapshot]: [false] when a record made the
    callback throw, with the cache as the records before it left it. *)
Fixpoint applyUpdates {engine : Engine} (keyColumn : string) (updates : list JsValue)
  (cache : JsMap.t JsValue) : JsMap.t JsValue * bool :=
  match updates with
  | [] => (cache, true)
  | update :: rest =>
      match keyOutcome keyColumn update with
      | KeyThrows => (cache, false)
      | KeySkipped => applyUpdates keyColumn rest cache
      | KeyIs key => applyUpdates keyColumn rest (JsMap.set cache key update)
      end
  end.

Definition keyColumnOf (config : Config) : string :=
  orString (keyColumn config) "positionId".

(** The message of the [TypeError] for reading a property of [null]. *)
Definition nullReadMessage (keyColumn : string) : string :=
  ("Cannot read properties of null (reading '" ++ keyColumn ++ "')")%string.

(** [ProviderConnection.applyUpdatesToSnapshot]; the second component is
    the message of the error it throws. *)
Definition applyUpdatesToSnapshot {engine : Engine} (updates : list JsValue) (now : Z)
  (p : ProviderConnection) : ProviderConnection * option string :=
  let keyColumn := keyColumnOf (config p) in
  match applyUpdates keyColumn updates (snapshot p) with
  | (cache, true) =>
      ({| providerId := providerId p; config := config p; snapshot := cache;
          lastUpdate := now; subscribers := subscribers p;
          connection := connection p; subscription := subscription p;
          statistics := statistics p; isConnecting := isConnecting p;
          isSnapshotComplete := isSnapshotComplete p;
          snapshotStartTime := snapshotStartTime p |}, None)
  | (cache, false) =>
      ({| providerId := providerId p; config := config p; snapshot := cache;
          lastUpdate := lastUpdate p; subscribers := subscribers p;
          connection := connection p; subscription := subscription p;
          statistics := statistics p; isConnecting := isConnecting p;
          isSnapshotComplete := isSnapshotComplete p;
          snapshotStartTime := snapshotStartTime p |},
       Some (nullReadMessage keyColumn))
  end.

(** Field updates. *)
Definition withStatistics (f : Statistics -> Statistics) (p : ProviderConnection)
  : ProviderConnection :=
  {| providerId := providerId p; config := config p; snapshot := snapshot p;
     lastUpdate := lastUpdate p; subscribers := subscribers p;
     connection := connection p; subscription := subscription p;
     statistics := f (statistics p); isConnecting := isConnecting p;
     isSnapshotComplete := isSnapshotComplete p;
     snapshotStartTime := snapshotStartTime p |}.

Definition withIsConnecting (b : bool) (p : ProviderConnection) : ProviderConnection :=
  {| providerId := providerId p; config := config p; snapshot := snapshot p;
     lastUpdate := lastUpdate p; subscribers := subscribers p;
     connection := connection p; subscription := subscription p;
     statistics := statistics p; isConnecting := b;
     isSnapshotComplete := isSnapshotComplete p;
     snapshotStartTime := snapshotStartTime p |}.

Definition withConnection (c : option StompClient) (p : ProviderConnection)
  : ProviderConnection :=
  {| providerId := providerId p; config := config p; snapshot := snapshot p;
     lastUpdate := lastUpdate p; subscribers := subscribers p;
     connection := c; subscription := subscription p;
     statistics := statistics p; isConnecting := isConnecting p;
     isSnapshotComplete := isSnapshotComplete p;
     snapshotStartTime := snapshotStartTime p |}.

Definition withSubscription (s : option (StompClient * string)) (p : ProviderConnection)
  : ProviderConnection :=
  {| providerId := providerId p; config := config p; snapshot := snapshot p;
     lastUpdate := lastUpdate p; subscribers := subscribers p;
     connection := connection p; subscription := s;
     statistics := statistics p; isConnecting := isConnecting p;
     isSnapshotComplete := isSnapshotComplete p;
     snapshotStartTime := snapshotStartTime p |}.

Definition withSubscribers (s : JsMap.t Port) (p : ProviderConnection)
  : ProviderConnection :=
  {| providerId := providerId p; config := config p; snapshot := snapshot p;
     lastUpdate := lastUpdate p; subscribers := s;
     connection := connection p; subscription := subscription p;
     statistics := statistics p; isConnecting := isConnecting p;
     isSnapshotComplete := isSnapshotComplete p;
     snapshotStartTime := snapshotStartTime p |}.

Definition setConnected (b : bool) (s : Statistics) : Statistics :=
  {| snapshotRowsReceived := snapshotRowsReceived s;
     updateRowsReceived := updateRowsReceived s;
     connectionCount := connectionCount s;
     disconnectionCount := disconnectionCount s;
     isConnected := b; bytesReceived := bytesReceived s; mode := mode s |}.

Definition setMode (m : Mode) (s : Statistics) : Statistics :=
  {| snapshotRowsReceived := snapshotRowsReceived s;
     updateRowsReceived := updateRowsReceived s;
     connectionCount := connectionCount s;
     disconnectionCount := disconnectionCount s;
     isConnected := isConnected s; bytesReceived := bytesReceived s; mode := m |}.

Definition addBytes (n : Z) (s : Statistics) : Statistics :=
  {| snapshotRowsReceived := snapshotRowsReceived s;
     updateRowsReceived := updateRowsReceived s;
     connectionCount := connectionCount s;
     disconnectionCount := disconnectionCount s;
     isConnected := isConnected s; bytesReceived := (bytesReceived s + n)%Z;
     mode := mode s |}.

Definition addSnapshotRows (n : Z) (s : Statistics) : Statistics :=
  {| snapshotRowsReceived := (snapshotRowsReceived s + n)%Z;
     updateRowsReceived := updateRowsReceived s;
     connectionCount := connectionCount s;
     disconnectionCount := disconnectionCount s;
     isConnected := isConnected s; bytesReceived := bytesReceived s;
     mode := mode s |}.

Definition addUpdateRows (n : Z) (s : Statistics) : Statistics :=
  {| snapshotRowsReceived := snapshotRowsReceived s;
     updateRowsReceived := (updateRowsReceived s + n)%Z;
     connectionCount := connectionCount s;
     disconnectionCount := disconnectionCount s;
     isConnected := isConnected s; bytesReceived := bytesReceived s;
     mode := mode s |}.

(** [ProviderConnection.connect]. [stompLoaded] tells whether [importScripts]
    defined [StompJs]; without it [new StompJs.Client] throws, the [catch]
    resets [isConnecting] and rethrows (the third component). *)
Definition connect (stompLoaded : bool) (freshClientId : string)
  (p : ProviderConnection) : ProviderConnection * list Effect * option string :=
  if isConnecting p || isConnected (statistics p) then (p, [], None)
  else
    let p1 := withIsConnecting true p in
    let listenerTopic := buildListenerTopic (config p) freshClientId in
    let triggerDestination := buildTriggerDestination (config p) freshClientId in
    if stompLoaded then
      let c := {| brokerURL := websocketUrl (config p);
                  clientId := freshClientId;
                  listenerTopic := listenerTopic;
                  triggerDestination := triggerDestination |} in
      (withConnection (Some c) p1, [Activate c], None)
    else (withIsConnecting false p1, [], Some "StompJs is not defined").

(** The [onConnect] callback of client [c]. It subscribes and publishes
    through [this.connection]; when that is [null] the call throws inside
    the callback, after the state changes and the broadcast. *)
Definition onConnect (c : StompClient) (now : Z) (p : ProviderConnection)
  : ProviderConnection * list Effect :=
  let s := statistics p in
  let p1 :=
    {| providerId := providerId p; config := config p;
       snapshot := JsMap.empty;
       lastUpdate := lastUpdate p; subscribers := subscribers p;
       connection := connection p; subscription := subscription p;
       statistics :=
         {| snapshotRowsReceived := 0;
            updateRowsReceived := updateRowsReceived s;
            connectionCount := (connectionCount s + 1)%Z;
            disconnectionCount := disconnectionCount s;
            isConnected := true; bytesReceived := bytesReceived s;
            mode := Snapshot |};
       isConnecting := false;
       isSnapshotComplete := false;
       snapshotStartTime := now |} in
  let notify := broadcast p1 (Connected (providerId p) (clientId c)) in
  match connection p1 with
  | Some cur =>
      (withSubscription (Some (cur, listenerTopic c)) p1,
       notify ++ [Subscribe cur (listenerTopic c);
                  Publish cur (triggerDestination c) ""])
  | None => (p1, notify)
  end.

(** The [onStompError] callback; [message] is [frame.headers['message']]. *)
Definition onStompError (message : option string) (p : ProviderConnection)
  : ProviderConnection * list Effect :=
  (p, broadcast p (ErrorEvent (providerId p) (orString message "STOMP connection error"))).

Definition onWebSocketError (p : ProviderConnection)
  : ProviderConnection * list Effect :=
  (p, broadcast p (ErrorEvent (providerId p) "WebSocket connection error")).

(** The [onDisconnect] callback. *)
Definition onDisconnect (p : ProviderConnection) : ProviderConnection * list Effect :=
  let s := statistics p in
  let p1 :=
    withIsConnecting false
      (withStatistics
         (fun _ => {| snapshotRowsReceived := snapshotRowsReceived s;
                      updateRowsReceived := updateRowsReceived s;
                      connectionCount := connectionCount s;
                      disconnectionCount := (disconnectionCount s + 1)%Z;
                      isConnected := false; bytesReceived := bytesReceived s;
                      mode := Idle |}) p) in
  (p1, broadcast p1 (Disconnected (providerId p))).

(** [ProviderConnection.disconnect] *)
Definition disconnect (p : ProviderConnection) : ProviderConnection * list Effect :=
  let unsub :=
    match subscription p with
    | Some (c, topic) => [Unsubscribe c topic]
    | None => []
    end in
  let deact :=
    match connection p with
    | Some c => [Deactivate c]
    | None => []
    end in
  (withIsConnecting false
     (withStatistics (fun s => setMode Idle (setConnected false s))
        (withConnection None (withSubscription None p))),
   unsub ++ deact).
(** ** Frames *)

(** How [handleMessage] treats a frame body. *)
Inductive FrameClass :=
| EndOfSnapshot
| DataRecords (positions : list JsValue)
| Ignored.

Definition withIsSnapshotComplete (b : bool) (p : ProviderConnection)
  : ProviderConnection :=
  {| providerId := providerId p; config := config p; snapshot := snapshot p;
     lastUpdate := lastUpdate p; subscribers := subscribers p;
     connection := connection p; subscription := subscription p;
     statistics := statistics p; isConnecting := isConnecting p;
     isSnapshotComplete := b;
     snapshotStartTime := snapshotStartTime p |}.

Section Runtime.

(** The runtime's [JSON.parse]; [None] when it throws. *)
Variable JSON_parse : string -> option JsValue.
Context {engine : Engine}.

(** The decisions of [handleMessage] on the trimmed body: the end-token test
    while the snapshot is incomplete, then [JSON.parse]. *)
Definition classifyFrame (p : ProviderConnection) (messageBody : string) : FrameClass :=
  if negb (isSnapshotComplete p) && isEndToken (config p) messageBody
  then EndOfSnapshot
  else match JSON_parse messageBody with
       | None => Ignored
       | Some data => DataRecords (asArray data)
       end.

(** [ProviderConnection.handleMessage] on a frame with body [body]. *)
Definition handleMessage (body : string) (now : Z) (p : ProviderConnection)
  : ProviderConnection * list Effect :=
  let messageBody := trim body in
  let p1 := withStatistics (addBytes (Z.of_nat (String.length messageBody))) p in
  match classifyFrame p1 messageBody with
  | EndOfSnapshot =>
      let duration := (now - snapshotStartTime p1)%Z in
      let p2 := withStatistics (setMode Realtime) (withIsSnapshotComplete true p1) in
      (p2, broadcast p2 (SnapshotComplete (providerId p2)
                           (snapshotRowsReceived (statistics p2)) duration))
  | Ignored => (p1, [])
  | DataRecords positions =>
      let n := Z.of_nat (List.length positions) in
      let p2 :=
        if isSnapshotComplete p1
        then withStatistics (addUpdateRows n) p1
        else withStatistics (addSnapshotRows n) p1 in
      match applyUpdatesToSnapshot positions now p2 with
      | (p3, None) =>
          (p3, broadcast p3 (Data (providerId p3) positions
                               (negb (isSnapshotComplete p3))))
      | (p3, Some error) =>
          (p3, broadcast p3 (ErrorEvent (providerId p3) error))
      end
  end.

(** ** The worker *)

(** The rest of [handleRefresh] after its [setTimeout(resolve, 100)]. *)
Record RefreshTimer := mkRefreshTimer {
  timerProvider : nat;
  timerPort : Port;
  timerMessageId : string
}.

(** The worker's global state. Provider connections are objects: [objects]
    holds them by allocation number, the registry [providers] refers to them,
    and so do the callbacks of the clients they created, also after the
    registry has dropped them. *)
Record Worker := mkWorker {
  objects : list ProviderConnection;
  providers : JsMap.t nat;
  ports : JsMap.t Port;
  portCounter : Z;
  stompLoaded : bool;
  timers : list RefreshTimer
}.

Definition initialWorker (stompLoaded : bool) : Worker :=
  {| objects := []; providers := JsMap.empty; ports := JsMap.empty;
     portCounter := 0; stompLoaded := stompLoaded; timers := [] |}.

Fixpoint replaceNth {A} (i : nat) (x : A) (l : list A) : list A :=
  match l, i with
  | [], _ => []
  | _ :: l', O => x :: l'
  | y :: l', S i' => y :: replaceNth i' x l'
  end.

Definition withObjects (objs : list ProviderConnection) (w : Worker) : Worker :=
  {| objects := objs; providers := providers w; ports := ports w;
     portCounter := portCounter w; stompLoaded := stompLoaded w;
     timers := timers w |}.

Definition withProviders (reg : JsMap.t nat) (w : Worker) : Worker :=
  {| objects := objects w; providers := reg; ports := ports w;
     portCounter := portCounter w; stompLoaded := stompLoaded w;
     timers := timers w |}.

Definition withTimers (ts : list RefreshTimer) (w : Worker) : Worker :=
  {| objects := objects w; providers := providers w; ports := ports w;
     portCounter := portCounter w; stompLoaded := stompLoaded w;
     timers := ts |}.

(** Writing back the object [ref] after a method mutated it. *)
Definition store (ref : nat) (p : ProviderConnection) (w : Worker) : Worker :=
  withObjects (replaceNth ref p (objects w)) w.

(** [providers.get(providerId)], dereferenced. *)
Definition lookupProvider (w : Worker) (providerId : string)
  : option (nat * ProviderConnection) :=
  match JsMap.get (providers w) providerId with
  | Some ref =>
      match nth_error (objects w) ref with
      | Some p => Some (ref, p)
      | None => None
      end
  | None => None
  end.

(** [generatePortId] *)
Definition generatePortId (now counter : Z) : string :=
  ("port-" ++ ofZ now ++ "-" ++ ofZ counter)%string.

(** [self.onconnect] *)
Definition onconnect (now : Z) (w : Worker) : Worker :=
  let counter := (portCounter w + 1)%Z in
  let portId := generatePortId now counter in
  {| objects := objects w; providers := providers w;
     ports := JsMap.set (ports w) portId (MessagePort portId);
     portCounter := counter; stompLoaded := stompLoaded w;
     timers := timers w |}.

(** [handleConnect]; the third component is the error it rejects with. *)
Definition handleConnect (now : Z) (freshClientId : string)
  (portId : string) (port : Port) (providerId : string) (config : Config)
  (messageId : string) (w : Worker) : Worker * list Effect * option string :=
  let (w1, ref) :=
    match JsMap.get (providers w) providerId with
    | Some ref => (w, ref)
    | None =>
        let ref := List.length (objects w) in
        (withProviders (JsMap.set (providers w) providerId ref)
           (withObjects (objects w ++ [newProviderConnection providerId config now]) w),
         ref)
    end in
  match nth_error (objects w1) ref with
  | None => (w1, [], None)
  | Some provider0 =>
      let provider :=
        withSubscribers (JsMap.set (subscribers provider0) portId port) provider0 in
      let respond := [PostMessage port (Response messageId Success)] in
      if negb (isConnected (statistics provider)) && negb (isConnecting provider) then
        match connect (stompLoaded w1) freshClientId provider with
        | (provider', es, Some error) => (store ref provider' w1, es, Some error)
        | (provider', es, None) => (store ref provider' w1, es ++ respond, None)
        end
      else if isConnected (statistics provider) then
        let state := [PostMessage port (Connected providerId providerId)] in
        let cached :=
          if Nat.ltb 0 (JsMap.size (snapshot provider))
          then [PostMessage port (Data providerId (getSnapshot provider) false)]
          else [] in
        (store ref provider w1, state ++ cached ++ respond, None)
      else (store ref provider w1, respond, None)
  end.

(** [handleDisconnect] *)
Definition handleDisconnect (providerId : string) (w : Worker)
  : Worker * list Effect :=
  match lookupProvider w providerId with
  | None => (w, [])
  | Some (ref, provider) =>
      let (provider', es) := disconnect provider in
      (withProviders (JsMap.delete (providers w) providerId)
         (store ref provider' w), es)
  end.

(** [handleRefresh] up to its [setTimeout]; the third component is the error thrown for an
    unknown provider. *)
Definition handleRefresh (port : Port) (providerId messageId : string) (w : Worker)
  : Worker * list Effect * option string :=
  match lookupProvider w providerId with
  | None => (w, [], Some "Provider not connected")
  | Some (ref, provider) =>
      let (provider', es) := disconnect provider in
      let w1 := store ref provider' w in
      (withTimers (timers w1 ++ [{| timerProvider := ref; timerPort := port;
                                    timerMessageId := messageId |}]) w1,
       es ++ [SetTimeout 100], None)
  end.

(** [handleRefresh] from the timer on, and the response [handlePortMessage]
    posts after it. *)
Definition resumeRefresh (freshClientId : string) (t : RefreshTimer) (w : Worker)
  : Worker * list Effect :=
  match nth_error (objects w) (timerProvider t) with
  | None => (w, [])
  | Some provider =>
      match connect (stompLoaded w) freshClientId provider with
      | (provider', es, Some error) =>
          (store (timerProvider t) provider' w,
           es ++ [PostMessage (timerPort t) (ErrorResponse (timerMessageId t) error)])
      | (provider', es, None) =>
          (store (timerProvider t) provider' w,
           es ++ [PostMessage (timerPort t) (Response (timerMessageId t) Success)])
      end
  end.

(** [handleGetSnapshot] *)
Definition handleGetSnapshot (providerId : string) (w : Worker) : list JsValue :=
  match lookupProvider w providerId with
  | None => []
  | Some (_, provider) => getSnapshot provider
  end.

(** [handleGetStatistics]; [None] is [null]. *)
Definition handleGetStatistics (providerId : string) (w : Worker) : option Statistics :=
  match lookupProvider w providerId with
  | None => None
  | Some (_, provider) => Some (statistics provider)
  end.

(** A request as a consumer posts it, without its [id]. *)
Inductive Request :=
| ConnectRequest (providerId : string) (config : Config)
| DisconnectRequest (providerId : string)
| RefreshRequest (providerId : string)
| GetSnapshotRequest (providerId : string)
| GetStatisticsRequest (providerId : string)
| OtherRequest (type : string).

(** [handlePortMessage] *)
Definition handlePortMessage (now : Z) (freshClientId : string)
  (portId : string) (port : Port) (id : string) (request : Request) (w : Worker)
  : Worker * list Effect :=
  match request with
  | ConnectRequest providerId config =>
      match handleConnect now freshClientId portId port providerId config id w with
      | (w', es, None) => (w', es)
      | (w', es, Some error) => (w', es ++ [PostMessage port (ErrorResponse id error)])
      end
  | DisconnectRequest providerId =>
      let (w', es) := handleDisconnect providerId w in
      (w', es ++ [PostMessage port (Response id Success)])
  | RefreshRequest providerId =>
      match handleRefresh port providerId id w with
      | (w', es, None) => (w', es)
      | (w', es, Some error) => (w', es ++ [PostMessage port (ErrorResponse id error)])
      end
  | GetSnapshotRequest providerId =>
      (w, [PostMessage port (Response id (SnapshotData (handleGetSnapshot providerId w)))])
  | GetStatisticsRequest providerId =>
      (w, [PostMessage port (Response id (StatisticsOf (handleGetStatistics providerId w)))])
  | OtherRequest type =>
      (w, [PostMessage port (ErrorResponse id ("Unknown message type: " ++ type)%string)])
  end.

(** The callbacks a client invokes on the provider that created it. *)
Inductive Callback :=
| OnConnect
| OnStompError (message : option string)
| OnWebSocketError
| OnDisconnect
| OnMessage (body : string).

Definition callback (c : StompClient) (cb : Callback) (now : Z)
  (p : ProviderConnection) : ProviderConnection * list Effect :=
  match cb with
  | OnConnect => onConnect c now p
  | OnStompError message => onStompError message p
  | OnWebSocketError => onWebSocketError p
  | OnDisconnect => onDisconnect p
  | OnMessage body => handleMessage body now p
  end.

(** What the event loop hands to the worker. *)
Inductive Event :=
| PortConnects (now : Z)
| PortMessage (portId id : string) (request : Request) (now : Z) (freshClientId : string)
| Transport (ref : nat) (c : StompClient) (cb : Callback) (now : Z)
| RefreshTimerFires (k : nat) (freshClientId : string).

Fixpoint removeNth {A} (k : nat) (l : list A) : list A :=
  match l, k with
  | [], _ => []
  | _ :: l', O => l'
  | x :: l', S k' => x :: removeNth k' l'
  end.

Definition step (e : Event) (w : Worker) : Worker * list Effect :=
  match e with
  | PortConnects now => (onconnect now w, [])
  | PortMessage portId id request now freshClientId =>
      match JsMap.get (ports w) portId with
      | Some port => handlePortMessage now freshClientId portId port id request w
      | None => (w, [])
      end
  | Transport ref c cb now =>
      match nth_error (objects w) ref with
      | Some p => let (p', es) := callback c cb now p in (store ref p' w, es)
      | None => (w, [])
      end
  | RefreshTimerFires k freshClientId =>
      match nth_error (timers w) k with
      | Some t => resumeRefresh freshClientId t (withTimers (removeNth k (timers w)) w)
      | None => (w, [])
      end
  end.

Fixpoint run (es : list Event) (w : Worker) : Worker * list Effect :=
  match es with
  | [] => (w, [])
  | e :: rest =>
      let (w1, out1) := step e w in
      let (w2, out2) := run rest w1 in
      (w2, out1 ++ out2)
  end.

End Runtime.
(** ** Request/response correlation on the consumer side

    Both services wrap a request in a promise. A promise is settled by the
    first call of its [resolve] or [reject]; later calls do nothing. The
    models log every such call, in order: the state of promise [k] is the
    first entry for [k]. *)

Inductive Outcome (A : Type) :=
| Resolved (value : A)
| Rejected (error : string).
Arguments Resolved {A} value.
Arguments Rejected {A} error.

(** The settle calls so far: promise number and what it was called with. *)
Definition Calls (A : Type) := list (nat * Outcome A).

(** The state of promise [k]: [None] while it is pending. *)
Fixpoint promiseState {A} (calls : Calls A) (k : nat) : option (Outcome A) :=
  match calls with
  | [] => None
  | (k', o) :: rest => if Nat.eqb k k' then Some o else promiseState rest k
  end.

(** How many times [resolve] or [reject] of promise [k] was called. *)
Definition settleCount {A} (calls : Calls A) (k : nat) : nat :=
  List.length (filter (fun c => Nat.eqb k (fst c)) calls).

(** [if (response.error) reject(new Error(response.error)) else resolve(value)] *)
Definition outcomeOf {A} (error : option string) (value : A) : Outcome A :=
  match error with
  | Some e => if truthy e then Rejected e else Resolved value
  | None => Resolved value
  end.

Definition timeoutMessage (type : string) : string :=
  ("Message timeout: " ++ type)%string.

(** *** [StompClientService]: the [pendingMessages] map *)

Module PendingMap.

(** A [WorkerResponse]. A broadcast that carries no id is a response whose
    id is not in the map. *)
Record WorkerResponse := mkWorkerResponse {
  id : string;
  type : string;
  payload : option JsValue;
  error : option string
}.

(** The callback [sendWorkerMessage] passes to [setTimeout]. *)
Record Timer := mkTimer {
  timerId : string;        (* messageId *)
  timerPromise : nat;      (* whose reject it holds *)
  timerType : string;
  timerDelay : Z
}.

(** What a field of the client state holds: [undefined], a JSON value, or
    (after a status message whose payload inherits the property it is read
    from) a built-in of the engine, known by its text. *)
Inductive Held :=
| HUndefined
| HValue (v : JsValue)
| HBuiltin (text : string).

(** The value of [clientStateSubject]. *)
Record ClientState := mkClientState {
  connected : Held;
  connecting : Held;
  clientError : Held;             (* error *)
  messagesReceived : Held;
  messagesPerSecond : Held
}.

Definition initialClientState : ClientState :=
  {| connected := HValue (JBool false); connecting := HValue (JBool false);
     clientError := HUndefined; messagesReceived := HValue (JNum "0");
     messagesPerSecond := HValue (JNum "0") |}.

Record Service := mkService {
  portAvailable : bool;                 (* this.port is set *)
  messageId : Z;
  pendingMessages : JsMap.t nat;        (* id -> the promise to settle *)
  promises : nat;                       (* promises created so far *)
  calls : Calls (option JsValue);
  timers : list Timer;
  posted : list (string * string);      (* (id, type) of the posted messages *)
  clientState : ClientState;
  dataMessages : list (option JsValue)  (* the payloads handed to handleDataMessage *)
}.

Definition initial (portAvailable : bool) : Service :=
  {| portAvailable := portAvailable; messageId := 0;
     pendingMessages := JsMap.empty; promises := 0; calls := [];
     timers := []; posted := []; clientState := initialClientState;
     dataMessages := [] |}.

(** [generateMessageId], from the counter after its increment. *)
Definition generateMessageId (counter now : Z) : string :=
  ("msg-" ++ ofZ counter ++ "-" ++ ofZ now)%string.

(** [sendWorkerMessage(type, payload)] *)
Definition sendWorkerMessage (type : string) (now : Z) (s : Service) : Service :=
  let k := promises s in
  if negb (portAvailable s) then
    {| portAvailable := portAvailable s; messageId := messageId s;
       pendingMessages := pendingMessages s; promises := S k;
       calls := calls s ++ [(k, Rejected "SharedWorker port not available")];
       timers := timers s; posted := posted s;
       clientState := clientState s; dataMessages := dataMessages s |}
  else
    let counter := (messageId s + 1)%Z in
    let id := generateMessageId counter now in
    {| portAvailable := portAvailable s; messageId := counter;
       pendingMessages := JsMap.set (pendingMessages s) id k;
       promises := S k;
       calls := calls s;
       timers := timers s ++ [{| timerId := id; timerPromise := k;
                                 timerType := type; timerDelay := 10000 |}];
       posted := posted s ++ [(id, type)];
       clientState := clientState s; dataMessages := dataMessages s |}.

Definition withClientState (c : ClientState) (s : Service) : Service :=
  {| portAvailable := portAvailable s; messageId := messageId s;
     pendingMessages := pendingMessages s; promises := promises s;
     calls := calls s; timers := timers s; posted := posted s;
     clientState := c; dataMessages := dataMessages s |}.

Section WithEngine.

Context {engine : Engine}.

(** What a property read leaves in a field; [None] when the read throws. *)
Definition read (payload : option JsValue) (name : string) : option Held :=
  match payload with
  | None => None                          (* payload is undefined *)
  | Some v =>
      match getProp v name with
      | PThrow => None
      | PUndefined => Some HUndefined
      | PValue x => Some (HValue x)
      | PInherited text => Some (HBuiltin text)
      end
  end.

(** The [switch] of [handleWorkerMessage] over the type of a message that
    answers no pending request. [handleDataMessage] works on the data
    streams, which the model does not follow, and catches what it throws:
    the model keeps the payloads it was given. A status message without a
    payload makes the handler throw before it changes anything. *)
Definition handleBroadcast (response : WorkerResponse) (s : Service) : Service :=
  let c := clientState s in
  if String.eqb (type response) "connected" then
    withClientState
      {| connected := HValue (JBool true); connecting := HValue (JBool false);
         clientError := HUndefined; messagesReceived := messagesReceived c;
         messagesPerSecond := messagesPerSecond c |} s
  else if String.eqb (type response) "disconnected" then
    withClientState
      {| connected := HValue (JBool false); connecting := HValue (JBool false);
         clientError := clientError c; messagesReceived := messagesReceived c;
         messagesPerSecond := messagesPerSecond c |} s
  else if String.eqb (type response) "message" then
    {| portAvailable := portAvailable s; messageId := messageId s;
       pendingMessages := pendingMessages s; promises := promises s;
       calls := calls s; timers := timers s; posted := posted s;
       clientState := clientState s;
       dataMessages := dataMessages s ++ [payload response] |}
  else if String.eqb (type response) "status" then
    match read (payload response) "messagesReceived",
          read (payload response) "messagesPerSecond",
          read (payload response) "connected" with
    | Some received, Some perSecond, Some isConnected =>
        withClientState
          {| connected := isConnected; connecting := connecting c;
             clientError := clientError c; messagesReceived := received;
             messagesPerSecond := perSecond |} s
    | _, _, _ => s
    end
  else if String.eqb (type response) "error" then
    withClientState
      {| connected := connected c; connecting := connecting c;
         clientError := match error response with
                        | Some e => HValue (JStr e)
                        | None => HUndefined
                        end;
         messagesReceived := messagesReceived c;
         messagesPerSecond := messagesPerSecond c |} s
  else s.

(** [handleWorkerMessage(response)]: a response whose id is pending
    settles its promise and goes no further; every other message falls
    through to the [switch]. *)
Definition handleWorkerMessage (response : WorkerResponse) (s : Service) : Service :=
  match JsMap.get (pendingMessages s) (id response) with
  | Some k =>
      {| portAvailable := portAvailable s; messageId := messageId s;
         pendingMessages := JsMap.delete (pendingMessages s) (id response);
         promises := promises s;
         calls := calls s ++ [(k, outcomeOf (error response) (payload response))];
         timers := timers s; posted := posted s;
         clientState := clientState s; dataMessages := dataMessages s |}
  | None => handleBroadcast response s
  end.

End WithEngine.

(** The timeout callback. *)
Definition onTimeout (t : Timer) (s : Service) : Service :=
  if JsMap.has (pendingMessages s) (timerId t) then
    {| portAvailable := portAvailable s; messageId := messageId s;
       pendingMessages := JsMap.delete (pendingMessages s) (timerId t);
       promises := promises s;
       calls := calls s ++ [(timerPromise t, Rejected (timeoutMessage (timerType t)))];
       timers := timers s; posted := posted s;
       clientState := clientState s; dataMessages := dataMessages s |}
  else s.

(** What happens to the service. The public methods ([connect],
    [disconnect], the streams) call [sendWorkerMessage] and set the client
    state around it: one event stands for what they do to the client
    state. *)
Inductive Event :=
| Send (type : string) (now : Z)
| Message (response : WorkerResponse)
| TimerFires (j : nat)           (* the j-th scheduled timer is due *)
| ClientStateSet (c : ClientState).

Definition withTimers (ts : list Timer) (s : Service) : Service :=
  {| portAvailable := portAvailable s; messageId := messageId s;
     pendingMessages := pendingMessages s; promises := promises s;
     calls := calls s; timers := ts; posted := posted s;
     clientState := clientState s; dataMessages := dataMessages s |}.

Section Run.

Context {engine : Engine}.

Definition step (e : Event) (s : Service) : Service :=
  match e with
  | Send type now => sendWorkerMessage type now s
  | Message response => handleWorkerMessage response s
  | TimerFires j =>
      match nth_error (timers s) j with
      | Some t => onTimeout t (withTimers (removeNth j (timers s)) s)
      | None => s
      end
  | ClientStateSet c => withClientState c s
  end.

Definition run (es : list Event) (s : Service) : Service :=
  fold_left (fun s e => step e s) es s.

End Run.

End PendingMap.

(** *** [StompClientEnhancedService]: one message listener per request *)

Module PendingListener.

(** A [responseHandler] closure registered on the port. *)
Record Listener := mkListener {
  listensFor : string;     (* messageId *)
  listenerPromise : nat
}.

Record Timer := mkTimer {
  timerPromise : nat;      (* its listener and its reject *)
  timerType : string;
  timerDelay : Z
}.

Record Service := mkService {
  portAvailable : bool;
  listeners : list Listener;
  promises : nat;
  calls : Calls Envelope;
  timers : list Timer;
  posted : list (string * string)
}.

Definition initial (portAvailable : bool) : Service :=
  {| portAvailable := portAvailable; listeners := []; promises := 0;
     calls := []; timers := []; posted := [] |}.

(** [generateMessageId]; [random] is the text [Math.random] contributes. *)
Definition generateMessageId (now : Z) (random : string) : string :=
  ("msg-" ++ ofZ now ++ "-" ++ random)%string.

(** [sendWorkerMessage(type, payload)] *)
Definition sendWorkerMessage (type : string) (now : Z) (random : string)
  (s : Service) : Service :=
  let k := promises s in
  if negb (portAvailable s) then
    {| portAvailable := portAvailable s; listeners := listeners s;
       promises := S k;
       calls := calls s ++ [(k, Rejected "SharedWorker port not available")];
       timers := timers s; posted := posted s |}
  else
    let messageId := generateMessageId now random in
    {| portAvailable := portAvailable s;
       listeners := listeners s ++ [{| listensFor := messageId; listenerPromise := k |}];
       promises := S k;
       calls := calls s;
       timers := timers s ++ [{| timerPromise := k; timerType := type;
                                 timerDelay := 10000 |}];
       posted := posted s ++ [(messageId, type)] |}.

Definition matches (m : Envelope) (l : Listener) : bool :=
  match envelopeId m with
  | Some i => String.eqb i (listensFor l)
  | None => false
  end.

(** A message event on the port: every registered [responseHandler] runs;
    one whose id matches removes itself and settles its promise. *)
Definition onMessage (m : Envelope) (s : Service) : Service :=
  let hit := filter (matches m) (listeners s) in
  {| portAvailable := portAvailable s;
     listeners := filter (fun l => negb (matches m l)) (listeners s);
     promises := promises s;
     calls := calls s ++ map (fun l => (listenerPromise l, outcomeOf (envelopeError m) m)) hit;
     timers := timers s; posted := posted s |}.

(** The timeout callback: it removes the listener and rejects, whether or
    not the promise is settled already. *)
Definition onTimeout (t : Timer) (s : Service) : Service :=
  {| portAvailable := portAvailable s;
     listeners := filter (fun l => negb (Nat.eqb (listenerPromise l) (timerPromise t)))
                    (listeners s);
     promises := promises s;
     calls := calls s ++ [(timerPromise t, Rejected (timeoutMessage (timerType t)))];
     timers := timers s; posted := posted s |}.

Inductive Event :=
| Send (type : string) (now : Z) (random : string)
| Message (m : Envelope)
| TimerFires (j : nat).

Definition withTimers (ts : list Timer) (s : Service) : Service :=
  {| portAvailable := portAvailable s; listeners := listeners s;
     promises := promises s; calls := calls s; timers := ts;
     posted := posted s |}.

Definition step (e : Event) (s : Service) : Service :=
  match e with
  | Send type now random => sendWorkerMessage type now random s
  | Message m => onMessage m s
  | TimerFires j =>
      match nth_error (timers s) j with
      | Some t => onTimeout t (withTimers (removeNth j (timers s)) s)
      | None => s
      end
  end.

Definition run (es : list Event) (s : Service) : Service :=
  fold_left (fun s e => step e s) es s.

End PendingListener.
(** ** Sample data for evaluating the model *)

(** The engine the samples are evaluated with. It answers as a JavaScript
    engine does for every name that no prototype defines; the key columns of
    the samples ([id], [positionId]) are such names. *)
Definition ownProperties : Engine := {| inherited := fun _ _ => None |}.

Section Samples.

#[local] Existing Instance ownProperties.

(** The configuration of the spec's end-to-end scenarios: end token
    ["Success"], key field ["id"]. *)
Definition scenarioConfig : Config :=
  {| websocketUrl := "ws://localhost:8080";
     dataType := Some "positions";
     messageRate := Some (mkNumber "1000");
     batchSize := None;
     snapshotEndToken := Some "Success";
     keyColumn := Some "id";
     snapshotTimeoutMs := Some (mkNumber "30000") |}.

(** A configuration that sets no end token and no key column. *)
Definition bareConfig : Config :=
  {| websocketUrl := "ws://localhost:8080";
     dataType := None;
     messageRate := None;
     batchSize := None;
     snapshotEndToken := None;
     keyColumn := None;
     snapshotTimeoutMs := None |}.

(** A provider with one consumer attached, after [connect]. *)
Definition connectingProvider (config : Config) : ProviderConnection :=
  fst (fst (connect true "stomp-1-abcd"
              (withSubscribers [("port-1-1", MessagePort "port-1-1")]
                 (newProviderConnection "P" config 0%Z)))).

(** The same provider in its snapshot phase: its client has connected at
    time 100 and nothing was received yet. *)
Definition snapshotPhase (config : Config) : ProviderConnection :=
  match connection (connectingProvider config) with
  | Some c => fst (onConnect c 100%Z (connectingProvider config))
  | None => connectingProvider config
  end.

(** A data record whose text contains the word "success". *)
Definition successPayload : string :=
  ("{" ++ JsonText.quoted "positionId" ++ ":" ++ JsonText.quoted "1" ++ ","
   ++ JsonText.quoted "status" ++ ":" ++ JsonText.quoted "success" ++ "}")%string.

(** The frames of the spec's end-to-end scenarios 1 and 2. *)
Definition record (id : string) (v : string) : string :=
  ("{" ++ JsonText.quoted "id" ++ ":" ++ JsonText.quoted id ++ ","
   ++ JsonText.quoted "v" ++ ":" ++ v ++ "}")%string.

Definition twoRecords : string :=
  ("[" ++ record "1" "10" ++ "," ++ record "2" "20" ++ "]")%string.

Definition successRecord : JsValue :=
  JObj [("positionId", JStr "1"); ("status", JStr "success")].

Definition recordValue (id v : string) : JsValue :=
  JObj [("id", JStr id); ("v", JNum v)].

(** The client the worker creates for the first connect of the sample runs. *)
Definition sampleClient (config : Config) : StompClient :=
  {| brokerURL := websocketUrl config;
     clientId := "stomp-10-aaaa";
     listenerTopic := buildListenerTopic config "stomp-10-aaaa";
     triggerDestination := buildTriggerDestination config "stomp-10-aaaa" |}.

(** One consumer connects provider ["P"], the transport connects, and the
    given frames arrive. *)
Definition snapshotRun (config : Config) (frames : list string) : list Event :=
  [PortConnects 1;
   PortMessage "port-1-1" "c1" (ConnectRequest "P" config) 10 "stomp-10-aaaa";
   Transport 0 (sampleClient config) OnConnect 20]
  ++ map (fun body => Transport 0 (sampleClient config) (OnMessage body) 30) frames.

(** The first object of a worker. *)
Definition firstObject (w : Worker) : ProviderConnection :=
  nth 0 (objects w) (newProviderConnection "" bareConfig 0).

(** Two consumers; the first has asked to connect provider ["P"], whose
    transport is still connecting. *)
Definition connectingWorker : Worker :=
  fst (run JsonText.parse
         [PortConnects 1; PortConnects 2;
          PortMessage "port-1-1" "c1" (ConnectRequest "P" scenarioConfig) 10 "stomp-10-aaaa"]
         (initialWorker true)).

(** The transport has connected, the second consumer has attached to the
    same provider, and a frame with two records has arrived. *)
Definition sharedEvents : list Event :=
  [PortConnects 1; PortConnects 2;
   PortMessage "port-1-1" "c1" (ConnectRequest "P" scenarioConfig) 10 "stomp-10-aaaa";
   Transport 0 (sampleClient scenarioConfig) OnConnect 20;
   PortMessage "port-2-2" "c2" (ConnectRequest "P" scenarioConfig) 30 "stomp-30-bbbb";
   Transport 0 (sampleClient scenarioConfig) (OnMessage twoRecords) 35].

Definition sharedWorker : Worker :=
  fst (run JsonText.parse sharedEvents (initialWorker true)).

(** The first consumer disconnects. *)
Definition firstDisconnects : Event :=
  PortMessage "port-1-1" "d1" (DisconnectRequest "P") 40 "stomp-40-cccc".

(** The frames of end-to-end scenario 1, and the update of scenario 2. *)
Definition scenarioOne : list Event :=
  snapshotRun scenarioConfig
    [record "1" "10"; record "2" "20"; "Success: All 2 records delivered"].

Definition scenarioTwo : list Event :=
  scenarioOne
  ++ [Transport 0 (sampleClient scenarioConfig) (OnMessage (record "1" "99")) 40].

(** End-to-end scenario 4 on [StompClientService]: a [connect] request is
    sent, its timeout fires, and then the worker's answer to it arrives
    (what [handleConnect] of the worker posts when the socket is open). *)
Definition lateResponse : PendingMap.WorkerResponse :=
  {| PendingMap.id := PendingMap.generateMessageId 1 0;
     PendingMap.type := "connected";
     PendingMap.payload := Some (JObj [("alreadyConnected", JBool true)]);
     PendingMap.error := None |}.

Definition scenarioFour : list PendingMap.Event :=
  [PendingMap.Send "connect" 0; PendingMap.TimerFires 0;
   PendingMap.Message lateResponse].

(** After scenario 1 the transport drops, and later reconnects. *)
Definition transportDrops : Event :=
  Transport 0 (sampleClient scenarioConfig) OnDisconnect 50.

Definition transportReconnects : Event :=
  Transport 0 (sampleClient scenarioConfig) OnConnect 60.

(** End-to-end scenario 4 on [StompClientEnhancedService]: a response, then
    the timeout of the same request, then the response once more. *)
Definition answeredThenTimedOut : list PendingListener.Event :=
  [PendingListener.Send "get-snapshot" 0 "abc1234";
   PendingListener.Message (Response "msg-0-abc1234" (SnapshotData []));
   PendingListener.TimerFires 0;
   PendingListener.Message (Response "msg-0-abc1234" (SnapshotData []))].

End Samples.
(** ** Predicates used in the statements *)

(** A text that does not start with white space. *)
Definition startsClean (s : string) : Prop :=
  match s with
  | String c _ => isWhiteSpace c = false
  | EmptyString => True
  end.


Section KeyPredicates.

Context {engine : Engine}.

(** A record that [applyUpdatesToSnapshot] stores: its key column holds a
    value other than [undefined] and [null]. *)
Definition hasKey (keyColumn : string) (update : JsValue) : Prop :=
  exists key, keyOutcome keyColumn update = KeyIs key.

(** The stringified key values of the records that have one. *)
Fixpoint keysOf (keyColumn : string) (updates : list JsValue) : list string :=
  match updates with
  | [] => []
  | update :: rest =>
      match keyOutcome keyColumn update with
      | KeyIs key => key :: keysOf keyColumn rest
      | _ => keysOf keyColumn rest
      end
  end.





End KeyPredicates.

(** ** What the worker does to a provider connection

    Every change the worker makes to a provider connection is one of four
    methods: attaching a port, [connect], [disconnect], or a callback of a
    client. [ok] says which callbacks are admitted. *)

Section Methods.

Variable JSON_parse : string -> option JsValue.
Context {engine : Engine}.
Variable ok : Callback -> Prop.

Inductive Method : ProviderConnection -> ProviderConnection -> Prop :=
| MethodAttach p portId port :
    Method p (withSubscribers (JsMap.set (subscribers p) portId port) p)
| MethodConnect stompLoaded freshClientId p :
    Method p (fst (fst (connect stompLoaded freshClientId p)))
| MethodDisconnect p :
    Method p (fst (disconnect p))
| MethodCallback c cb now p :
    ok cb -> Method p (fst (callback JSON_parse c cb now p)).

(** Any number of methods, one after the other. *)
Inductive Methods : ProviderConnection -> ProviderConnection -> Prop :=
| MethodsNone p : Methods p p
| MethodsThen p q r : Methods p q -> Method q r -> Methods p r.

End Methods.

(** The callbacks an event runs on the object [ref]. *)
Definition runsCallback (e : Event) (ref : nat) (cb : Callback) : Prop :=
  exists c now, e = Transport ref c cb now.

Section ObjectsOfAStep.

Variable JSON_parse : string -> option JsValue.
Context {engine : Engine}.

(** The three shapes of a step, seen from the objects: nothing changes; one
    object is replaced by what methods make of it; a new object is added. *)
Inductive ObjectsStep (e : Event) (w w' : Worker) : Prop :=
| ObjectsSame : objects w' = objects w -> ObjectsStep e w w'
| ObjectsUpdate r q x :
    nth_error (objects w) r = Some q ->
    Methods JSON_parse (runsCallback e r) q x ->
    objects w' = replaceNth r x (objects w) ->
    ObjectsStep e w w'
| ObjectsNew providerId config now x :
    Methods JSON_parse (fun _ => False) (newProviderConnection providerId config now) x ->
    objects w' = objects w ++ [x] ->
    ObjectsStep e w w'.

End ObjectsOfAStep.

(** Every key cached in [p] is cached in [p']. *)
Definition keepsKeys (p p' : ProviderConnection) : Prop :=
  forall key, JsMap.has (snapshot p) key = true -> JsMap.has (snapshot p') key = true.

(** The session has no usable end token. *)
Definition noEndToken (config : Config) : Prop :=
  snapshotEndToken config = None \/ snapshotEndToken config = Some "".

(** The session has not left the snapshot phase for real time. *)
Definition notRealtime (p : ProviderConnection) : Prop :=
  isSnapshotComplete p = false /\ mode (statistics p) <> Realtime.

(** ** Invariants of the pending requests *)

(** A text without the character [-]. *)
Fixpoint dashFree (s : string) : Prop :=
  match s with
  | EmptyString => True
  | String c s' => c <> "-"%char /\ dashFree s'
  end.

(** Promise [k] has been settled. *)
Definition settled {A} (calls : Calls A) (k : nat) : Prop :=
  In k (map fst calls).

Module PendingMapInvariant.
Import PendingMap.

(** What holds of the service of [StompClientService] after any events. *)
Record Invariant (s : Service) : Prop := mkInvariant {
  counterPositive : (0 <= messageId s)%Z;
  timerIds : forall t, In t (timers s) ->
    exists counter now,
      timerId t = generateMessageId counter now /\ (1 <= counter <= messageId s)%Z;
  timerIdsDistinct : NoDup (map timerId (timers s));
  timerPromisesDistinct : NoDup (map timerPromise (timers s));
  timerBounds : forall t, In t (timers s) ->
    timerPromise t < promises s /\ timerDelay t = 10000%Z;
  callBounds : forall k, settled (calls s) k -> k < promises s;
  calledOnce : NoDup (map fst (calls s));
  keysDistinct : NoDup (JsMap.keys (pendingMessages s));
  pendingEntry : forall id k, JsMap.get (pendingMessages s) id = Some k ->
    ~ settled (calls s) k
    /\ exists t, In t (timers s) /\ timerId t = id /\ timerPromise t = k;
  timerEntry : forall t, In t (timers s) ->
    JsMap.get (pendingMessages s) (timerId t) = Some (timerPromise t)
    \/ settled (calls s) (timerPromise t);
  promiseCovered : forall k, k < promises s ->
    settled (calls s) k \/ exists t, In t (timers s) /\ timerPromise t = k
}.

End PendingMapInvariant.

Module PendingListenerInvariant.
Import PendingListener.

(** What holds of the service of [StompClientEnhancedService] after any
    events. *)
Record Invariant (s : Service) : Prop := mkInvariant {
  timerBounds : forall t, In t (timers s) ->
    timerPromise t < promises s /\ timerDelay t = 10000%Z;
  callBounds : forall k, settled (calls s) k -> k < promises s;
  listenersDistinct : NoDup (map listenerPromise (listeners s));
  listenerEntry : forall l, In l (listeners s) ->
    ~ settled (calls s) (listenerPromise l)
    /\ exists t, In t (timers s) /\ timerPromise t = listenerPromise l;
  promiseCovered : forall k, k < promises s ->
    settled (calls s) k \/ exists t, In t (timers s) /\ timerPromise t = k
}.

End PendingListenerInvariant.

(** ** Further notions for the properties of the worker *)

Section LastRecord.

Context {engine : Engine}.


End LastRecord.

(** Messages that carry an [id]: the answers to requests. *)
Definition isAnswer (e : Effect) : bool :=
  match e with
  | PostMessage _ m => match envelopeId m with Some _ => true | None => false end
  | _ => false
  end.

Definition answers (es : list Effect) : list Effect := filter isAnswer es.

Definition isSnapshotCompleteMessage (e : Effect) : bool :=
  match e with
  | PostMessage _ (SnapshotComplete _ _ _) => true
  | _ => false
  end.

(** The phases of a provider connection fit together. *)
Record Consistent (p : ProviderConnection) : Prop := mkConsistent {
  connectingOrConnected : isConnecting p = true -> isConnected (statistics p) = false;
  connectedNotIdle : isConnected (statistics p) = true -> mode (statistics p) <> Idle;
  snapshotMode : mode (statistics p) = Snapshot ->
    isConnected (statistics p) = true /\ isSnapshotComplete p = false;
  realtimeMode : mode (statistics p) = Realtime -> isSnapshotComplete p = true;
  subscriptionNeedsClient : connection p = None -> subscription p = None
}.

Section CacheSoundness.

Context {engine : Engine}.

(** Every cached record sits under its own stringified key, and no key
    occurs twice. *)
Definition cacheSound (keyColumn : string) (cache : JsMap.t JsValue) : Prop :=
  NoDup (JsMap.keys cache)
  /\ forall key update, In (key, update) cache -> keyOutcome keyColumn update = KeyIs key.

Definition CacheSound (p : ProviderConnection) : Prop :=
  cacheSound (keyColumnOf (config p)) (snapshot p).

End CacheSoundness.

Section FrameRuns.

Variable JSON_parse : string -> option JsValue.
Context {engine : Engine}.

(** The number of records [handleMessage] counts for a frame body. *)
Definition recordsIn (body : string) : Z :=
  match JSON_parse (trim body) with
  | Some data => Z.of_nat (List.length (asArray data))
  | None => 0
  end.

(** Frames arriving one after the other, each with its arrival time. *)
Fixpoint handleMessages (frames : list (string * Z)) (p : ProviderConnection)
  : ProviderConnection * list Effect :=
  match frames with
  | [] => (p, [])
  | (body, now) :: rest =>
      let (p1, out1) := handleMessage JSON_parse body now p in
      let (p2, out2) := handleMessages rest p1 in
      (p2, out1 ++ out2)
  end.

(** The records counted for a list of frames. *)
Definition sumRecords (frames : list (string * Z)) : Z :=
  fold_right (fun frame total => (recordsIn (fst frame) + total)%Z) 0%Z frames.

End FrameRuns.

(** What holds of the worker's registry, ports and timers. *)
Record WorkerSound (w : Worker) : Prop := mkWorkerSound {
  registryDistinct : NoDup (JsMap.keys (providers w));
  registryValid : forall name ref,
    JsMap.get (providers w) name = Some ref ->
    exists p, nth_error (objects w) ref = Some p /\ providerId p = name;
  timersValid : forall t, In t (timers w) ->
    timerProvider t < List.length (objects w)
}.


(** The counters of [q] that are never reset are at least those of [p]. *)
Record CountersGrow (p q : ProviderConnection) : Prop := mkCountersGrow {
  bytesGrow : (bytesReceived (statistics p) <= bytesReceived (statistics q))%Z;
  updateRowsGrow : (updateRowsReceived (statistics p) <= updateRowsReceived (statistics q))%Z;
  connectionsGrow : (connectionCount (statistics p) <= connectionCount (statistics q))%Z;
  disconnectionsGrow :
    (disconnectionCount (statistics p) <= disconnectionCount (statistics q))%Z
}.

(** After [sharedEvents] the first consumer asks for a refresh. *)
Definition refreshEvents : list Event :=
  sharedEvents ++ [PortMessage "port-1-1" "r1" (RefreshRequest "P") 40 "stomp-40-cccc"].

Definition refreshTimer : RefreshTimer :=
  {| timerProvider := 0; timerPort := MessagePort "port-1-1"; timerMessageId := "r1" |}.





(** ** The plain STOMP worker of the [stomp-client] library

    [projects/stomp-client/src/public-api.ts] carries the class
    [StompSharedWorker], which speaks STOMP over a [WebSocket] itself: it
    writes and reads the frames as text, and it shares one socket among all
    the ports connected to it. *)

Module StompSharedWorker.

(** *** Frames as text *)

Definition LF : ascii := ascii_of_nat 10.
Definition NUL : ascii := ascii_of_nat 0.
Definition colon : ascii := ":"%char.

Definition newline : string := String LF EmptyString.

(** The code unit [c] occurs in [s]. *)
Fixpoint hasUnit (c : ascii) (s : string) : bool :=
  match s with
  | String d s' => Ascii.eqb d c || hasUnit c s'
  | EmptyString => false
  end.

(** [s.split(sep)] for a separator of one code unit. *)
Fixpoint split (sep : ascii) (s : string) : list string :=
  match s with
  | EmptyString => [EmptyString]
  | String c s' =>
      if Ascii.eqb c sep then EmptyString :: split sep s'
      else match split sep s' with
           | first :: rest => String c first :: rest
           | [] => [String c EmptyString]
           end
  end.

(** [s.replace(/\0$/, '')]: a NUL at the very end of the text is dropped. *)
Fixpoint dropFinalNul (s : string) : string :=
  match s with
  | EmptyString => EmptyString
  | String c EmptyString => if Ascii.eqb c NUL then EmptyString else s
  | String c s' => String c (dropFinalNul s')
  end.

(** [buildStompFrame(command, headers, body)]; [headers] lists the keys of
    the headers object in the order of [Object.keys], each with the text its
    value has in a template literal. *)
Definition buildStompFrame (command : string) (headers : list (string * string))
  (body : string) : string :=
  let frame := (command ++ newline)%string in
  let frame :=
    fold_left
      (fun frame header =>
         (frame ++ (fst header ++ ":" ++ snd header ++ newline))%string)
      headers frame in
  (frame ++ (newline ++ body ++ String NUL EmptyString))%string.

Record Frame := mkFrame {
  command : string;
  headers : JsMap.t string;
  body : string
}.

(** [headers[key] = value] on the object [headers], which was created as
    [{}], for a value that is a string. The key [__proto__] names the
    accessor of [Object.prototype]: assigning a string to it creates no
    property and changes nothing. Every other key becomes, or stays, an own
    property. *)
Definition assignHeader (headers : JsMap.t string) (key value : string)
  : JsMap.t string :=
  if String.eqb key "__proto__" then headers else JsMap.set headers key value.

(** The loop of [parseStompFrame] over the lines after the first: the
    headers read, and the lines after the first empty line when there is
    one. *)
Fixpoint readHeaders (lines : list string) (headers : JsMap.t string)
  : JsMap.t string * option (list string) :=
  match lines with
  | [] => (headers, None)
  | line :: rest =>
      if String.eqb line "" then (headers, Some rest)
      else
        match split colon line with
        | key :: value :: _ =>
            if truthy key then readHeaders rest (assignHeader headers key value)
            else readHeaders rest headers
        | _ => readHeaders rest headers
        end
  end.

(** [parseStompFrame(data)]. Without an empty line [bodyStart] stays 1 and
    the body is everything after the first line. *)
Definition parseStompFrame (data : string) : Frame :=
  let lines := split LF data in
  let command := hd EmptyString lines in
  let (headers, found) := readHeaders (tl lines) JsMap.empty in
  let bodyLines :=
    match found with
    | Some rest => rest
    | None => tl lines
    end in
  {| command := command; headers := headers;
     body := dropFinalNul (join newline bodyLines) |}.

(** The headers object that assigning the given headers one after the
    other to [{}] gives. *)
Definition headersOf (headers : list (string * string)) : JsMap.t string :=
  fold_left (fun m header => assignHeader m (fst header) (snd header)) headers
    JsMap.empty.

(** The part of a text before its first colon. *)
Definition beforeColon (value : string) : string :=
  hd EmptyString (split colon value).

(** A header line that [parseStompFrame] reads back: the key is not empty
    and has no line feed and no colon, the value has no line feed. *)
Definition plainHeader (header : string * string) : bool :=
  truthy (fst header)
  && negb (hasUnit LF (fst header)) && negb (hasUnit colon (fst header))
  && negb (hasUnit LF (snd header)).

(** *** The worker

    The requests [connect] and [config] and the timers (heartbeat,
    reconnect, statistics) are left out; a request is a well-formed
    envelope. A port is named by the connection id the worker gave it. *)

Inductive ReadyState := CONNECTING | OPEN | CLOSING | CLOSED.

(** An entry of [this.connections]. *)
Record Connection := mkConnection {
  subscriptionIds : list string;     (* connection.subscriptions, a Set *)
  active : bool
}.

(** An entry of [this.subscriptions]. *)
Record Subscription := mkSubscription {
  destination : string;
  connectionId : string;
  subscriptionHeaders : JsMap.t string
}.

(** What the worker posts to a port. *)
Inductive Message :=
| ConnectionConfirmed (connectionId : string)
| Subscribed (id subscriptionId destination : string)
| Unsubscribed (id subscriptionId : string)
| Sent (id destination body : string)
| DisconnectConfirmed (id connectionId : string)
| Failed (id error : string)
| Delivered (id : string) (destination : option string) (headers : JsMap.t string)
    (body : string) (data : JsValue + string) (timestamp : Z).

Inductive Effect :=
| Post (connectionId : string) (m : Message)   (* connection.port.postMessage(m) *)
| SocketSend (frame : string)                  (* websocket.send(frame) returned *)
| SocketClose.                                 (* websocket.close() *)

Record Worker := mkWorker {
  connections : JsMap.t Connection;
  websocket : option ReadyState;               (* [None]: this.websocket is null *)
  stompConnected : bool;
  subscriptions : JsMap.t Subscription;
  messageId : Z;
  messagesReceived : Z;
  lastSecondCount : Z
}.

Definition initialWorker : Worker :=
  {| connections := JsMap.empty; websocket := None; stompConnected := false;
     subscriptions := JsMap.empty; messageId := 0; messagesReceived := 0;
     lastSecondCount := 0 |}.

Definition withConnections (cs : JsMap.t Connection) (w : Worker) : Worker :=
  {| connections := cs; websocket := websocket w; stompConnected := stompConnected w;
     subscriptions := subscriptions w; messageId := messageId w;
     messagesReceived := messagesReceived w; lastSecondCount := lastSecondCount w |}.

Definition withSubscriptions (ss : JsMap.t Subscription) (w : Worker) : Worker :=
  {| connections := connections w; websocket := websocket w;
     stompConnected := stompConnected w; subscriptions := ss;
     messageId := messageId w; messagesReceived := messagesReceived w;
     lastSecondCount := lastSecondCount w |}.

Definition withWebsocket (ws : option ReadyState) (w : Worker) : Worker :=
  {| connections := connections w; websocket := ws;
     stompConnected := stompConnected w; subscriptions := subscriptions w;
     messageId := messageId w; messagesReceived := messagesReceived w;
     lastSecondCount := lastSecondCount w |}.

Definition withMessageId (n : Z) (w : Worker) : Worker :=
  {| connections := connections w; websocket := websocket w;
     stompConnected := stompConnected w; subscriptions := subscriptions w;
     messageId := n; messagesReceived := messagesReceived w;
     lastSecondCount := lastSecondCount w |}.

(** [generateId], from the counter after its increment. *)
Definition generateId (counter now : Z) : string :=
  ("msg-" ++ ofZ counter ++ "-" ++ ofZ now)%string.

(** [set.add(x)] and [set.delete(x)] on a [Set] of strings. *)
Definition setAdd (x : string) (s : list string) : list string :=
  if in_dec string_dec x s then s else s ++ [x].

Definition setDelete (x : string) (s : list string) : list string :=
  filter (fun y => negb (String.eqb y x)) s.

(** [{...base, ...extra}]: the keys of [base] stay where they are. *)
Definition spread (base extra : JsMap.t string) : JsMap.t string :=
  fold_left (fun m header => JsMap.set m (fst header) (snd header)) extra base.

(** [sendToPort(connectionId, message)] *)
Definition sendToPort (connectionId : string) (m : Message) (w : Worker) : list Effect :=
  match JsMap.get (connections w) connectionId with
  | Some connection => if active connection then [Post connectionId m] else []
  | None => []
  end.

(** [sendError(connectionId, messageId, error)] *)
Definition sendError (connectionId id error : string) (w : Worker) : list Effect :=
  sendToPort connectionId (Failed id error) w.

(** [this.websocket.send(frame)]: reading [send] of [null] throws, and a
    socket that is still connecting throws; otherwise the call returns. *)
Definition socketSend (frame : string) (w : Worker) : list Effect * option string :=
  match websocket w with
  | None => ([], Some "Cannot read properties of null (reading 'send')")
  | Some CONNECTING =>
      ([], Some "Failed to execute 'send' on 'WebSocket': Still in CONNECTING state.")
  | Some _ => ([SocketSend frame], None)
  end.

(** [this.websocket.close()] *)
Definition socketClose (w : Worker) : Worker :=
  match websocket w with
  | Some CONNECTING | Some OPEN => withWebsocket (Some CLOSING) w
  | _ => w
  end.

(** [onConnect(event)] for a new port. *)
Definition onConnect (now : Z) (w : Worker) : Worker * list Effect :=
  let counter := (messageId w + 1)%Z in
  let connectionId := generateId counter now in
  let w1 :=
    withConnections
      (JsMap.set (connections w) connectionId
         {| subscriptionIds := []; active := true |})
      (withMessageId counter w) in
  (w1, sendToPort connectionId (ConnectionConfirmed connectionId) w1).

(** [handleSubscribe]; the third component is the message of what it
    throws. *)
Definition handleSubscribe (connectionId id destination : string)
  (headers : JsMap.t string) (now : Z) (w : Worker)
  : Worker * list Effect * option string :=
  if negb (stompConnected w) then
    (w, sendError connectionId id "Not connected to STOMP server" w, None)
  else
    let counter := (messageId w + 1)%Z in
    let subscriptionId := generateId counter now in
    let w1 := withMessageId counter w in
    let subscribeFrame :=
      buildStompFrame "SUBSCRIBE"
        (spread [("id", subscriptionId); ("destination", destination)] headers) "" in
    match socketSend subscribeFrame w1 with
    | (es, Some error) => (w1, es, Some error)
    | (es, None) =>
        let w2 :=
          withSubscriptions
            (JsMap.set (subscriptions w1) subscriptionId
               {| destination := destination; connectionId := connectionId;
                  subscriptionHeaders := headers |}) w1 in
        let w3 :=
          match JsMap.get (connections w2) connectionId with
          | Some connection =>
              withConnections
                (JsMap.set (connections w2) connectionId
                   {| subscriptionIds := setAdd subscriptionId (subscriptionIds connection);
                      active := active connection |}) w2
          | None => w2
          end in
        (w3, es ++ sendToPort connectionId (Subscribed id subscriptionId destination) w3,
         None)
    end.

(** [handleUnsubscribe] *)
Definition handleUnsubscribe (connectionId id subscriptionId : string) (w : Worker)
  : Worker * list Effect * option string :=
  match JsMap.get (subscriptions w) subscriptionId with
  | None => (w, sendError connectionId id "Subscription not found" w, None)
  | Some _ =>
      let unsubscribeFrame := buildStompFrame "UNSUBSCRIBE" [("id", subscriptionId)] "" in
      match socketSend unsubscribeFrame w with
      | (es, Some error) => (w, es, Some error)
      | (es, None) =>
          let w1 := withSubscriptions (JsMap.delete (subscriptions w) subscriptionId) w in
          let w2 :=
            match JsMap.get (connections w1) connectionId with
            | Some connection =>
                withConnections
                  (JsMap.set (connections w1) connectionId
                     {| subscriptionIds :=
                          setDelete subscriptionId (subscriptionIds connection);
                        active := active connection |}) w1
            | None => w1
            end in
          (w2, es ++ sendToPort connectionId (Unsubscribed id subscriptionId) w2, None)
      end
  end.

(** [handleSend] *)
Definition handleSend (connectionId id destination body : string)
  (headers : JsMap.t string) (w : Worker) : Worker * list Effect * option string :=
  if negb (stompConnected w) then
    (w, sendError connectionId id "Not connected to STOMP server" w, None)
  else
    let sendFrame :=
      buildStompFrame "SEND"
        (spread [("destination", destination); ("content-type", "text/plain")] headers)
        body in
    match socketSend sendFrame w with
    | (es, Some error) => (w, es, Some error)
    | (es, None) => (w, es ++ sendToPort connectionId (Sent id destination body) w, None)
    end.

(** The [forEach] of [handleDisconnect] over the subscriptions of the
    connection: one [handleUnsubscribe] each, until one throws. *)
Fixpoint unsubscribeAll (connectionId : string) (ids : list string) (w : Worker)
  : Worker * list Effect * option string :=
  match ids with
  | [] => (w, [], None)
  | subscriptionId :: rest =>
      match handleUnsubscribe connectionId "auto-unsubscribe" subscriptionId w with
      | (w1, es1, Some error) => (w1, es1, Some error)
      | (w1, es1, None) =>
          match unsubscribeAll connectionId rest w1 with
          | (w2, es2, error) => (w2, es1 ++ es2, error)
          end
      end
  end.

(** [handleDisconnect] *)
Definition handleDisconnect (connectionId id : string) (w : Worker)
  : Worker * list Effect * option string :=
  let left :=
    match JsMap.get (connections w) connectionId with
    | Some connection =>
        let w0 :=
          withConnections
            (JsMap.set (connections w) connectionId
               {| subscriptionIds := subscriptionIds connection; active := false |}) w in
        match unsubscribeAll connectionId (subscriptionIds connection) w0 with
        | (w1, es, Some error) => (w1, es, Some error)
        | (w1, es, None) =>
            (withConnections (JsMap.delete (connections w1) connectionId) w1, es, None)
        end
    | None => (w, [], None)
    end in
  match left with
  | (w1, es1, Some error) => (w1, es1, Some error)
  | (w1, es1, None) =>
      let closed :=
        match websocket w1 with
        | Some _ =>
            if Nat.eqb (JsMap.size (connections w1)) 0 then
              match socketSend (buildStompFrame "DISCONNECT" [] "") w1 with
              | (es, Some error) => (w1, es, Some error)
              | (es, None) => (socketClose w1, es ++ [SocketClose], None)
              end
            else (w1, [], None)
        | None => (w1, [], None)
        end in
      match closed with
      | (w2, es2, Some error) => (w2, es1 ++ es2, Some error)
      | (w2, es2, None) =>
          (w2, es1 ++ es2 ++ sendToPort connectionId (DisconnectConfirmed id connectionId) w2,
           None)
      end
  end.

(** The requests of the model. *)
Inductive Request :=
| DisconnectRequest
| SubscribeRequest (destination : string) (headers : JsMap.t string)
| UnsubscribeRequest (subscriptionId : string)
| SendRequest (destination body : string) (headers : JsMap.t string)
| OtherRequest (type : string).

(** [handlePortMessage], with its [catch]. *)
Definition handlePortMessage (connectionId id : string) (request : Request) (now : Z)
  (w : Worker) : Worker * list Effect :=
  let handled :=
    match request with
    | DisconnectRequest => handleDisconnect connectionId id w
    | SubscribeRequest destination headers =>
        handleSubscribe connectionId id destination headers now w
    | UnsubscribeRequest subscriptionId =>
        handleUnsubscribe connectionId id subscriptionId w
    | SendRequest destination body headers =>
        handleSend connectionId id destination body headers w
    | OtherRequest type =>
        (w, sendError connectionId id ("Unknown message type: " ++ type)%string w, None)
    end in
  match handled with
  | (w1, es, None) => (w1, es)
  | (w1, es, Some error) => (w1, es ++ sendError connectionId id error w1)
  end.

(** [handlePortError] *)
Definition handlePortError (connectionId : string) (w : Worker) : Worker :=
  withConnections (JsMap.delete (connections w) connectionId) w.

(** [subscription.destination === destination], where the destination of
    a frame without that header is [undefined]. *)
Definition isFor (destination : option string) (s : Subscription) : bool :=
  match destination with
  | Some d => String.eqb (StompSharedWorker.destination s) d
  | None => false
  end.

(** [broadcastToSubscribers] *)
Definition broadcastToSubscribers (destination : option string) (m : Message)
  (w : Worker) : list Effect :=
  flat_map
    (fun entry => if isFor destination (snd entry)
                  then sendToPort (connectionId (snd entry)) m w else [])
    (subscriptions w).

(** [broadcastToAllPorts] *)
Definition broadcastToAllPorts (m : Message) (w : Worker) : list Effect :=
  flat_map (fun entry => sendToPort (fst entry) m w) (connections w).

Section WithRuntime.

Variable JSON_parse : string -> option JsValue.

(** [handleStompMessage(frame)]; [timestamp] is the [new Date()] of the
    payload, [now] the [Date.now()] of [generateId]. *)
Definition handleStompMessage (frame : Frame) (timestamp now : Z) (w : Worker)
  : Worker * list Effect :=
  let w1 :=
    {| connections := connections w; websocket := websocket w;
       stompConnected := stompConnected w; subscriptions := subscriptions w;
       messageId := messageId w; messagesReceived := (messagesReceived w + 1)%Z;
       lastSecondCount := (lastSecondCount w + 1)%Z |} in
  let destination := JsMap.get (headers frame) "destination" in
  let data :=
    match JSON_parse (body frame) with
    | Some value => inl value
    | None => inr (body frame)
    end in
  let counter := (messageId w1 + 1)%Z in
  let w2 := withMessageId counter w1 in
  (w2,
   broadcastToSubscribers destination
     (Delivered (generateId counter now) destination (headers frame) (body frame) data
        timestamp)
     w2).

(** What the event loop hands to the worker. The parts of the worker
    that are not modelled (the [connect] and [config] requests, the socket
    callbacks other than a MESSAGE frame, the timers) touch neither the
    connections, nor the subscriptions, nor the id counter: one event stands
    for all they do to the socket and to [stompConnected]. *)
Inductive Event :=
| PortConnects (now : Z)
| PortMessage (connectionId id : string) (request : Request) (now : Z)
| PortError (connectionId : string)
| SocketChanges (socket : option ReadyState) (connected : bool)
| MessageFrame (data : string) (timestamp now : Z).

(** The state after an event. A frame with a command other than MESSAGE
    is part of [SocketChanges]. *)
Definition step (e : Event) (w : Worker) : Worker :=
  match e with
  | PortConnects now => fst (onConnect now w)
  | PortMessage connectionId id request now =>
      fst (handlePortMessage connectionId id request now w)
  | PortError connectionId => handlePortError connectionId w
  | SocketChanges socket connected =>
      {| connections := connections w; websocket := socket;
         stompConnected := connected; subscriptions := subscriptions w;
         messageId := messageId w; messagesReceived := messagesReceived w;
         lastSecondCount := lastSecondCount w |}
  | MessageFrame data timestamp now =>
      let frame := parseStompFrame data in
      if String.eqb (command frame) "MESSAGE"
      then fst (handleStompMessage frame timestamp now w)
      else w
  end.

Definition run (events : list Event) (w : Worker) : Worker :=
  fold_left (fun w e => step e w) events w.

End WithRuntime.

(** The posts of an effect list that go to one connection. *)
Definition postsTo (connectionId : string) (es : list Effect) : list Message :=
  flat_map
    (fun e => match e with
              | Post c m => if String.eqb c connectionId then [m] else []
              | _ => []
              end) es.

Definition isPost (e : Effect) : bool :=
  match e with Post _ _ => true | _ => false end.

Definition isSocketEffect (e : Effect) : bool :=
  match e with Post _ _ => false | _ => true end.

(** The subscriptions of one connection to one destination. *)
Definition subscriptionsOf (connectionId destination : string) (w : Worker)
  : list (string * Subscription) :=
  filter
    (fun entry =>
       String.eqb (StompSharedWorker.destination (snd entry)) destination
       && String.eqb (StompSharedWorker.connectionId (snd entry)) connectionId)
    (subscriptions w).

(** An id that [generateId] gave under a counter up to [bound]. *)
Definition generatedBelow (bound : Z) (key : string) : Prop :=
  exists counter now, key = generateId counter now /\ (1 <= counter <= bound)%Z.

(** Every id in use came from [generateId] under a counter that has been
    passed, and no key of a map occurs twice. *)
Record IdsGenerated (w : Worker) : Prop := mkIdsGenerated {
  counterPassed : (0 <= messageId w)%Z;
  connectionKeys : NoDup (JsMap.keys (connections w));
  subscriptionKeys : NoDup (JsMap.keys (subscriptions w));
  connectionIds : forall key, In key (JsMap.keys (connections w)) ->
    generatedBelow (messageId w) key;
  subscriptionIdsGenerated : forall key, In key (JsMap.keys (subscriptions w)) ->
    generatedBelow (messageId w) key
}.

(** A port has connected and the socket has opened. *)
Definition openEvents : list Event :=
  [PortConnects 5; SocketChanges (Some OPEN) true].

(** One connection with one subscription to a destination that holds a
    colon. *)
Definition colonWorker : Worker :=
  {| connections :=
       [(generateId 1 5, {| subscriptionIds := [generateId 2 20]; active := true |})];
     websocket := Some OPEN; stompConnected := true;
     subscriptions :=
       [(generateId 2 20, {| destination := "/topic/a:b"; connectionId := generateId 1 5;
                             subscriptionHeaders := [] |})];
     messageId := 2; messagesReceived := 0; lastSecondCount := 0 |}.

(** One connection with one subscription, over an open socket. *)
Definition lastWorker : Worker :=
  {| connections :=
       [(generateId 1 5, {| subscriptionIds := [generateId 2 20]; active := true |})];
     websocket := Some OPEN; stompConnected := true;
     subscriptions :=
       [(generateId 2 20, {| destination := "/topic/a"; connectionId := generateId 1 5;
                             subscriptionHeaders := [] |})];
     messageId := 2; messagesReceived := 0; lastSecondCount := 0 |}.

(** Nothing can be posted to the connection: it is gone or inactive. *)
Definition muted (connectionId : string) (w : Worker) : Prop :=
  match JsMap.get (connections w) connectionId with
  | Some connection => active connection = false
  | None => True
  end.

(** A call of [websocket.send] with an UNSUBSCRIBE frame. *)
Definition isUnsubscribeSend (e : Effect) : Prop :=
  exists subscriptionId,
    e = SocketSend (buildStompFrame "UNSUBSCRIBE" [("id", subscriptionId)] "").

(** Two connections, the first with two subscriptions to the same
    destination, over an open socket. *)
Definition busyWorker : Worker :=
  {| connections :=
       [(generateId 1 5, {| subscriptionIds := [generateId 3 20; generateId 4 21];
                            active := true |});
        (generateId 2 6, {| subscriptionIds := []; active := true |})];
     websocket := Some OPEN; stompConnected := true;
     subscriptions :=
       [(generateId 3 20, {| destination := "/topic/a"; connectionId := generateId 1 5;
                             subscriptionHeaders := [] |});
        (generateId 4 21, {| destination := "/topic/a"; connectionId := generateId 1 5;
                             subscriptionHeaders := [] |})];
     messageId := 4; messagesReceived := 0; lastSecondCount := 0 |}.

(** The text of the header lines of a frame. *)
Fixpoint headerLines (headers : list (string * string)) : string :=
  match headers with
  | [] => EmptyString
  | header :: rest =>
      (fst header ++ ":" ++ snd header ++ newline ++ headerLines rest)%string
  end.

End StompSharedWorker.

(** A connection that can never be posted to again: it is gone or
    inactive, and its id lies behind the id counter. *)
Record Retired (connectionId : string) (w : StompSharedWorker.Worker) : Prop := mkRetired {
  retiredIds : StompSharedWorker.IdsGenerated w;
  retiredMuted : StompSharedWorker.muted connectionId w;
  retiredId : StompSharedWorker.generatedBelow (StompSharedWorker.messageId w) connectionId
}.

(** ** The connect request of [StompClientEnhancedService] *)

Module StompClientEnhancedService.

(** The fields of a [StompConfig] that [connect] reads. *)
Record StompConfig := mkStompConfig {
  url : string;
  clientId : option string;
  dataType : option string;
  messageRate : option JsNumber;
  batchSize : option JsNumber;
  snapshotEndToken : option string;
  keyColumn : option string;
  snapshotTimeoutMs : option JsNumber
}.

(** [generateProviderId(clientId)]; [random] is the text [Math.random]
    contributes. *)
Definition generateProviderId (clientId : option string) (now : Z) (random : string)
  : string :=
  let generated := ("provider-" ++ ofZ now ++ "-" ++ random)%string in
  match clientId with
  | Some c => if truthy c then c else generated
  | None => generated
  end.

(** The [config] object of the connect request. *)
Definition workerConfig (config : StompConfig) : Config :=
  mkConfig
    (url config)                                              (* websocketUrl *)
    (Some (orString (dataType config) "positions"))           (* dataType *)
    (Some (orNumber (messageRate config) (mkNumber "1000")))  (* messageRate *)
    (batchSize config)                                        (* batchSize *)
    (Some (orString (snapshotEndToken config) "success"))     (* snapshotEndToken *)
    (Some (orString (keyColumn config) "positionId"))         (* keyColumn *)
    (Some (orNumber (snapshotTimeoutMs config) (mkNumber "30000"))).
                                                              (* snapshotTimeoutMs *)

(** The request [connect(config)] sends to the worker. *)
Definition connectRequest (config : StompConfig) (now : Z) (random : string) : Request :=
  ConnectRequest (generateProviderId (clientId config) now random) (workerConfig config).

End StompClientEnhancedService.

(** Every consumer attached to [p] is attached to [q]. *)
Definition keepsSubscribers (p q : ProviderConnection) : Prop :=
  forall portId, JsMap.has (subscribers p) portId = true ->
                 JsMap.has (subscribers q) portId = true.

(** [q] is the provider [p] was created as. *)
Definition sameProvider (p q : ProviderConnection) : Prop :=
  providerId q = providerId p /\ config q = config p.

(** * Properties *)

(** ** Facts about strings *)

Section StringFacts.

Lemma prefix_append (t b : string) : prefix t (t ++ b)%string = true.
Proof.
  induction t as [|c t IH]; simpl.
  - destruct b; reflexivity.
  - destruct (ascii_dec c c) as [_|ne]; [exact IH | now elim ne].
Qed.

Lemma prefix_split (t s : string) :
  prefix t s = true -> exists b, s = (t ++ b)%string.
Proof.
  revert s; induction t as [|c t IH]; intros s H.
  - exists s; reflexivity.
  - destruct s as [|d s]; simpl in H; [discriminate|].
    destruct (ascii_dec c d) as [->|]; [|discriminate].
    destruct (IH _ H) as [b ->]. exists b; reflexivity.
Qed.

Lemma append_assoc (a b c : string) : ((a ++ b) ++ c = a ++ (b ++ c))%string.
Proof. induction a; simpl; congruence. Qed.

(** [includes] is the substring relation. *)
Lemma includes_spec (s t : string) :
  includes s t = true <-> exists a b, s = (a ++ t ++ b)%string.
Proof.
  split.
  - induction s as [|c s IH]; cbn [includes]; intros H.
    + rewrite orb_false_r in H. destruct (prefix_split _ _ H) as [b Hb].
      exists "", b; exact Hb.
    + apply orb_true_iff in H as [H|H].
      * destruct (prefix_split _ _ H) as [b Hb]. exists "", b; exact Hb.
      * destruct (IH H) as (a & b & ->). exists (String c a), b; reflexivity.
  - intros (a & b & ->). induction a as [|c a IH].
    + pose proof (prefix_append t b) as P. cbn [append].
      destruct (t ++ b)%string; cbn [includes]; rewrite P; reflexivity.
    + cbn [append includes]. rewrite IH, orb_true_r; reflexivity.
Qed.

Lemma toLowerCaseUnit_idem (c : ascii) :
  toLowerCaseUnit (toLowerCaseUnit c) = toLowerCaseUnit c.
Proof. destruct c as [[] [] [] [] [] [] [] []]; reflexivity. Qed.

Lemma toLowerCase_idem (s : string) : toLowerCase (toLowerCase s) = toLowerCase s.
Proof.
  induction s as [|c s IH]; simpl; [reflexivity|].
  now rewrite toLowerCaseUnit_idem, IH.
Qed.

Lemma toLowerCase_append (a b : string) :
  toLowerCase (a ++ b) = (toLowerCase a ++ toLowerCase b)%string.
Proof. induction a; simpl; congruence. Qed.

Lemma toLowerCase_length (s : string) :
  String.length (toLowerCase s) = String.length s.
Proof. induction s; simpl; congruence. Qed.

Lemma append_inj_length (a a' b b' : string) :
  String.length a = String.length a' -> (a ++ b = a' ++ b')%string -> a = a' /\ b = b'.
Proof.
  revert a'; induction a as [|c a IH]; intros [|c' a'] L E; simpl in *;
    try discriminate; [now split|].
  injection E as -> E. injection L as L.
  destruct (IH _ L E) as [-> ->]; now split.
Qed.

(** A substring of a lower-cased text is itself in lower case. *)
Lemma includes_lower_fixed (x t : string) :
  includes (toLowerCase x) t = true -> toLowerCase t = t.
Proof.
  intros H. apply includes_spec in H as (a & b & E).
  pose proof (toLowerCase_idem x) as I. rewrite E in I.
  rewrite !toLowerCase_append in I.
  apply append_inj_length in I as [_ I]; [|apply toLowerCase_length].
  apply append_inj_length in I as [I _]; [exact I | apply toLowerCase_length].
Qed.

Lemma truthy_nonempty (s : string) : s <> "" -> truthy s = true.
Proof. destruct s; [congruence | reflexivity]. Qed.

End StringFacts.

Example trim_strips_both_ends : trim "  Success: All 2  " = "Success: All 2".
Proof. reflexivity. Qed.

Example toLowerCase_folds_letters : toLowerCase "Success: ALL 2" = "success: all 2".
Proof. reflexivity. Qed.

Example includes_finds_substring :
  includes "success: all 2" "all" = true /\ includes "success: all 2" "All" = false.
Proof. split; reflexivity. Qed.

(** ** [trim] *)

Section TrimFacts.

Lemma trimStart_clean (s : string) : startsClean (trimStart s).
Proof.
  induction s as [|c s IH]; simpl; [exact I|].
  destruct (isWhiteSpace c) eqn:E; [exact IH | exact E].
Qed.

Lemma trimStart_of_clean (s : string) : startsClean s -> trimStart s = s.
Proof. destruct s as [|c s]; simpl; [reflexivity|]. intros ->; reflexivity. Qed.

Lemma trimEnd_clean (s : string) : startsClean s -> startsClean (trimEnd s).
Proof.
  destruct s as [|c s]; simpl; [exact id|]. intros E.
  destruct (trimEnd s); [rewrite E|]; exact E.
Qed.

Lemma trimEnd_cons (c : ascii) (s : string) :
  trimEnd (String c s) =
  match trimEnd s with
  | EmptyString => if isWhiteSpace c then EmptyString else String c EmptyString
  | r => String c r
  end.
Proof. reflexivity. Qed.

Lemma trimEnd_idem (s : string) : trimEnd (trimEnd s) = trimEnd s.
Proof.
  induction s as [|c s IH]; [reflexivity|].
  rewrite trimEnd_cons. destruct (trimEnd s) as [|d r] eqn:E.
  - destruct (isWhiteSpace c) eqn:W; [reflexivity|].
    rewrite trimEnd_cons. simpl. now rewrite W.
  - rewrite trimEnd_cons, IH. reflexivity.
Qed.

Lemma trim_idem (s : string) : trim (trim s) = trim s.
Proof.
  unfold trim.
  rewrite (trimStart_of_clean (trimEnd (trimStart s))).
  - apply trimEnd_idem.
  - apply trimEnd_clean, trimStart_clean.
Qed.

End TrimFacts.

(** ** The end-token test and the classification of frames *)

Section Classifier.

Variable JSON_parse : string -> option JsValue.
Context {engine : Engine}.

Lemma isEndToken_trim (config : Config) (body : string) :
  isEndToken config (trim body) = isEndToken config body.
Proof. unfold isEndToken. now rewrite trim_idem. Qed.

Lemma isEndToken_unset (config : Config) (body : string) :
  snapshotEndToken config = None \/ snapshotEndToken config = Some "" ->
  isEndToken config body = false.
Proof. unfold isEndToken. intros [-> | ->]; reflexivity. Qed.

Lemma isEndToken_set (config : Config) (T body : string) :
  snapshotEndToken config = Some T -> T <> "" ->
  isEndToken config body =
  includes (toLowerCase (trim body)) (toLowerCase T)
  || includes (toLowerCase (trim body)) "success".
Proof.
  intros E N. unfold isEndToken. rewrite E, (truthy_nonempty _ N). reflexivity.
Qed.

(** What [handleMessage] does with a frame that passes the end-token test. *)
Lemma handleMessage_end (body : string) (now : Z) (p : ProviderConnection) :
  isSnapshotComplete p = false -> isEndToken (config p) body = true ->
  handleMessage JSON_parse body now p =
  let p' :=
    withStatistics (setMode Realtime)
      (withIsSnapshotComplete true
         (withStatistics (addBytes (Z.of_nat (String.length (trim body)))) p)) in
  (p', broadcast p (SnapshotComplete (providerId p)
                      (snapshotRowsReceived (statistics p))
                      (now - snapshotStartTime p)%Z)).
Proof.
  intros S E. unfold handleMessage, classifyFrame. cbn.
  rewrite S, isEndToken_trim, E. reflexivity.
Qed.

(** What it does with a frame that is not an end token and not JSON. *)
Lemma handleMessage_ignored (body : string) (now : Z) (p : ProviderConnection) :
  negb (isSnapshotComplete p) && isEndToken (config p) body = false ->
  JSON_parse (trim body) = None ->
  handleMessage JSON_parse body now p =
  (withStatistics (addBytes (Z.of_nat (String.length (trim body)))) p, []).
Proof.
  intros E N. unfold handleMessage, classifyFrame. cbn.
  rewrite isEndToken_trim, E, N. reflexivity.
Qed.

Lemma isEndToken_hit (config : Config) (T body : string) :
  snapshotEndToken config = Some T -> T <> "" ->
  includes (toLowerCase (trim body)) T = true
  \/ includes (toLowerCase (trim body)) (toLowerCase T) = true
  \/ includes (toLowerCase (trim body)) "success" = true ->
  isEndToken config body = true.
Proof.
  intros E N H. rewrite (isEndToken_set _ _ _ E N). apply orb_true_iff.
  destruct H as [H | [H | H]]; [left | left | right]; try exact H.
  now rewrite (includes_lower_fixed _ _ H).
Qed.

Lemma broadcast_posts (p : ProviderConnection) (m : Envelope) (e : Effect) :
  In e (broadcast p m) -> exists port, e = PostMessage port m.
Proof.
  unfold broadcast. intros H. apply in_map_iff in H as ((k, port) & <- & _).
  now exists port.
Qed.

End Classifier.

(** C3. For every configured end token [T] (present and not empty) and every
    frame body [B] whose trimmed, lower-cased text contains [T], or [T] in
    lower case, or the literal ["success"]: [isEndToken] answers [true], and
    [handleMessage] classifies the frame as [EndOfSnapshot] while the
    snapshot is incomplete. *)
Theorem end_token_or_success_is_end_of_snapshot
  (JSON_parse : string -> option JsValue) (p : ProviderConnection) (T B : string) :
  snapshotEndToken (config p) = Some T ->
  T <> "" ->
  includes (toLowerCase (trim B)) T = true
  \/ includes (toLowerCase (trim B)) (toLowerCase T) = true
  \/ includes (toLowerCase (trim B)) "success" = true ->
  isEndToken (config p) B = true
  /\ (isSnapshotComplete p = false ->
      classifyFrame JSON_parse p (trim B) = EndOfSnapshot).
Proof.
  intros E N H.
  pose proof (isEndToken_hit _ _ _ E N H) as R.
  split; [exact R|]. intros S.
  unfold classifyFrame. now rewrite S, isEndToken_trim, R.
Qed.

Lemma end_token_or_success_is_end_of_snapshot_witness :
  isEndToken scenarioConfig "Success: All 2 records delivered" = true
  /\ classifyFrame JsonText.parse (snapshotPhase scenarioConfig)
       (trim "Success: All 2 records delivered") = EndOfSnapshot.
Proof.
  destruct (end_token_or_success_is_end_of_snapshot JsonText.parse
              (snapshotPhase scenarioConfig) "Success"
              "Success: All 2 records delivered") as [A B].
  - reflexivity.
  - discriminate.
  - right; left; reflexivity.
  - split; [exact A | apply B; reflexivity].
Defined.

Section About_success_body_ends_snapshot.

Context {engine : Engine}.

(** C4, as the code has it: when an end token is configured, every body that
    contains ["success"] (in any letter case) and arrives while the snapshot
    is incomplete ends the snapshot, whatever [JSON.parse] would make of it:
    the provider turns to real time, the cache is untouched, and the only
    messages posted are the [snapshot-complete] broadcast, so no [data]
    message is delivered for the frame. *)
Theorem success_body_ends_snapshot
  (JSON_parse : string -> option JsValue) (p : ProviderConnection)
  (T body : string) (now : Z) :
  isSnapshotComplete p = false ->
  snapshotEndToken (config p) = Some T ->
  T <> "" ->
  includes (toLowerCase (trim body)) "success" = true ->
  let result := handleMessage JSON_parse body now p in
  classifyFrame JSON_parse p (trim body) = EndOfSnapshot
  /\ isSnapshotComplete (fst result) = true
  /\ mode (statistics (fst result)) = Realtime
  /\ snapshot (fst result) = snapshot p
  /\ snd result = broadcast p (SnapshotComplete (providerId p)
                                 (snapshotRowsReceived (statistics p))
                                 (now - snapshotStartTime p)%Z)
  /\ (forall port providerId data isSnapshot,
        ~ In (PostMessage port (Data providerId data isSnapshot)) (snd result)).
Proof.
  intros S E N H result.
  pose proof (isEndToken_hit _ _ _ E N (or_intror (or_intror H))) as R.
  subst result. rewrite (handleMessage_end JSON_parse body now p S R). cbn.
  repeat split; auto.
  { unfold classifyFrame. now rewrite S, isEndToken_trim, R. }
  intros port pid data b I. apply broadcast_posts in I as (q & I). discriminate.
Qed.

End About_success_body_ends_snapshot.

Section Sample_success_body_ends_snapshot_witness.

#[local] Existing Instance ownProperties.

Lemma success_body_ends_snapshot_witness :
  JsonText.parse (trim successPayload) = Some successRecord
  /\ isSnapshotComplete (snapshotPhase scenarioConfig) = false
  /\ classifyFrame JsonText.parse (snapshotPhase scenarioConfig)
       (trim successPayload) = EndOfSnapshot
  /\ snd (handleMessage JsonText.parse successPayload 120 (snapshotPhase scenarioConfig))
     = [PostMessage (MessagePort "port-1-1") (SnapshotComplete "P" 0 20)].
Proof.
  pose proof (success_body_ends_snapshot JsonText.parse
                (snapshotPhase scenarioConfig) "Success" successPayload 120%Z
                eq_refl eq_refl ltac:(discriminate) eq_refl) as H.
  cbv zeta in H.
  destruct H as (C & _ & _ & _ & E & _).
  split; [reflexivity | split; [reflexivity | split; [exact C | exact E]]].
Defined.

End Sample_success_body_ends_snapshot_witness.

Section Sample_success_payload_is_data_without_token.

#[local] Existing Instance ownProperties.

(** C4 as stated fails: with no end token configured, a JSON record that
    contains "success" arrives in the snapshot phase and is delivered as
    data. *)
Lemma success_payload_is_data_without_token :
  isSnapshotComplete (snapshotPhase bareConfig) = false
  /\ includes (toLowerCase (trim successPayload)) "success" = true
  /\ classifyFrame JsonText.parse (snapshotPhase bareConfig) (trim successPayload)
     = DataRecords [successRecord]
  /\ snd (handleMessage JsonText.parse successPayload 120 (snapshotPhase bareConfig))
     = [PostMessage (MessagePort "port-1-1") (Data "P" [successRecord] true)].
Proof. repeat split; reflexivity. Qed.

End Sample_success_payload_is_data_without_token.

Section About_other_frames_are_data_or_ignored.

Context {engine : Engine}.

(** C5, as the code has it. For a frame that is not classified
    [EndOfSnapshot]: a body that parses to a JSON object gives one record; a
    body that parses to a JSON array gives its elements, as many as the array
    has; a body that does not parse is ignored, which posts nothing and
    leaves the provider as it was but for [statistics.bytesReceived], which
    has grown by the length of the trimmed body. *)
Theorem other_frames_are_data_or_ignored
  (JSON_parse : string -> option JsValue) (p : ProviderConnection)
  (body : string) (now : Z) :
  classifyFrame JSON_parse p (trim body) <> EndOfSnapshot ->
  (forall fields, JSON_parse (trim body) = Some (JObj fields) ->
     classifyFrame JSON_parse p (trim body) = DataRecords [JObj fields]
     /\ List.length [JObj fields] = 1)
  /\ (forall items, JSON_parse (trim body) = Some (JArr items) ->
        classifyFrame JSON_parse p (trim body) = DataRecords items)
  /\ (JSON_parse (trim body) = None ->
        classifyFrame JSON_parse p (trim body) = Ignored
        /\ handleMessage JSON_parse body now p
           = (withStatistics (addBytes (Z.of_nat (String.length (trim body)))) p, [])
        /\ snapshot (fst (handleMessage JSON_parse body now p)) = snapshot p
        /\ isSnapshotComplete (fst (handleMessage JSON_parse body now p))
           = isSnapshotComplete p
        /\ mode (statistics (fst (handleMessage JSON_parse body now p)))
           = mode (statistics p)
        /\ snapshotRowsReceived (statistics (fst (handleMessage JSON_parse body now p)))
           = snapshotRowsReceived (statistics p)
        /\ updateRowsReceived (statistics (fst (handleMessage JSON_parse body now p)))
           = updateRowsReceived (statistics p)
        /\ bytesReceived (statistics (fst (handleMessage JSON_parse body now p)))
           = (bytesReceived (statistics p) + Z.of_nat (String.length (trim body)))%Z).
Proof.
  intros NE.
  assert (negb (isSnapshotComplete p) && isEndToken (config p) body = false) as G.
  { unfold classifyFrame in NE. rewrite isEndToken_trim in NE.
    destruct (negb (isSnapshotComplete p) && isEndToken (config p) body);
      [now elim NE | reflexivity]. }
  assert (forall v, JSON_parse (trim body) = Some v ->
            classifyFrame JSON_parse p (trim body) = DataRecords (asArray v)) as D.
  { intros v E. unfold classifyFrame. now rewrite isEndToken_trim, G, E. }
  split; [|split].
  - intros fields E. split; [exact (D _ E) | reflexivity].
  - intros items E. exact (D _ E).
  - intros E. rewrite (handleMessage_ignored JSON_parse body now p G E).
    repeat split. unfold classifyFrame. now rewrite isEndToken_trim, G, E.
Qed.

End About_other_frames_are_data_or_ignored.

Section Sample_other_frames_are_data_or_ignored_witness.

#[local] Existing Instance ownProperties.

Lemma other_frames_are_data_or_ignored_witness :
  classifyFrame JsonText.parse (snapshotPhase scenarioConfig)
    (trim twoRecords)
  = DataRecords [JObj [("id", JStr "1"); ("v", JNum "10")];
                 JObj [("id", JStr "2"); ("v", JNum "20")]].
Proof.
  refine (proj1 (proj2 (other_frames_are_data_or_ignored JsonText.parse
                          (snapshotPhase scenarioConfig)
                          twoRecords 120%Z _))
            _ eq_refl).
  discriminate.
Defined.

End Sample_other_frames_are_data_or_ignored_witness.

Section Sample_ignored_frame_counts_bytes.

#[local] Existing Instance ownProperties.

(** C5 as stated fails: an ignored frame changes a counter of the session,
    the count of bytes received. *)
Lemma ignored_frame_counts_bytes :
  classifyFrame JsonText.parse (snapshotPhase bareConfig) (trim "hello") = Ignored
  /\ snd (handleMessage JsonText.parse "hello" 120 (snapshotPhase bareConfig)) = []
  /\ bytesReceived (statistics (snapshotPhase bareConfig)) = 0%Z
  /\ bytesReceived
       (statistics (fst (handleMessage JsonText.parse "hello" 120 (snapshotPhase bareConfig))))
     = 5%Z
  /\ fst (handleMessage JsonText.parse "hello" 120 (snapshotPhase bareConfig))
     <> snapshotPhase bareConfig.
Proof. repeat split; try reflexivity. discriminate. Qed.

End Sample_ignored_frame_counts_bytes.

(** ** The [Map] operations *)

Section JsMapFacts.

Context {V : Type}.
Implicit Types (m : JsMap.t V) (k : string) (v : V).

Lemma get_set_same m k v : JsMap.get (JsMap.set m k v) k = Some v.
Proof.
  induction m as [|[k' v'] m IH]; simpl.
  - destruct (string_dec k k); congruence.
  - destruct (string_dec k k') as [->|N]; simpl.
    + destruct (string_dec k' k'); congruence.
    + destruct (string_dec k k'); [contradiction | exact IH].
Qed.

Lemma get_set_other m k v k' :
  k <> k' -> JsMap.get (JsMap.set m k v) k' = JsMap.get m k'.
Proof.
  intros N. induction m as [|[k0 v0] m IH]; simpl.
  - destruct (string_dec k' k); congruence.
  - destruct (string_dec k k0) as [->|N0]; simpl.
    + destruct (string_dec k' k0); congruence.
    + destruct (string_dec k' k0); [reflexivity | exact IH].
Qed.

Lemma has_set m k v k' :
  JsMap.has (JsMap.set m k v) k' = true <-> k = k' \/ JsMap.has m k' = true.
Proof.
  unfold JsMap.has. destruct (string_dec k k') as [->|N].
  - rewrite get_set_same. split; auto.
  - rewrite (get_set_other _ _ _ _ N). split; [auto | intros [E|H]]; [contradiction | exact H].
Qed.


Lemma size_set_absent m k v :
  JsMap.has m k = false -> JsMap.size (JsMap.set m k v) = S (JsMap.size m).
Proof.
  unfold JsMap.has, JsMap.size. induction m as [|[k' v'] m IH]; simpl; [reflexivity|].
  destruct (string_dec k k'); simpl; [discriminate|]. intros H. now rewrite IH.
Qed.


Lemma get_absent m k : ~ In k (JsMap.keys m) -> JsMap.get m k = None.
Proof.
  induction m as [|[k' v'] m IH]; simpl; [reflexivity|]. intros NI.
  destruct (string_dec k k') as [->|N]; [elim NI; now left|].
  apply IH. intros I. apply NI. now right.
Qed.

Lemma get_delete_same m k :
  NoDup (JsMap.keys m) -> JsMap.get (JsMap.delete m k) k = None.
Proof.
  induction m as [|[k' v'] m IH]; simpl; [reflexivity|]. intros D.
  inversion D as [|? ? NI D']; subst.
  destruct (string_dec k k') as [->|N]; simpl.
  - now apply get_absent.
  - destruct (string_dec k k'); [contradiction | now apply IH].
Qed.

Lemma get_delete_other m k k' :
  k <> k' -> JsMap.get (JsMap.delete m k) k' = JsMap.get m k'.
Proof.
  intros N. induction m as [|[k0 v0] m IH]; simpl; [reflexivity|].
  destruct (string_dec k k0) as [->|N0]; simpl.
  - destruct (string_dec k' k0); congruence.
  - destruct (string_dec k' k0); [reflexivity | exact IH].
Qed.

Lemma has_keys m k : JsMap.has m k = true <-> In k (JsMap.keys m).
Proof.
  unfold JsMap.has. induction m as [|[k' v'] m IH]; simpl.
  - split; [discriminate | contradiction].
  - destruct (string_dec k k') as [->|N].
    + split; auto.
    + rewrite IH. split; [auto | intros [E|I]]; [congruence | exact I].
Qed.

Lemma keys_set_NoDup m k v :
  NoDup (JsMap.keys m) -> NoDup (JsMap.keys (JsMap.set m k v)).
Proof.
  induction m as [|[k' v'] m IH]; simpl; intros D.
  - constructor; [intros [] | constructor].
  - inversion D as [|? ? NI D']; subst.
    destruct (string_dec k k') as [->|N]; simpl; [exact D|].
    constructor; [|now apply IH].
    intros I. apply has_keys in I. apply has_set in I as [E|I]; [congruence|].
    apply NI, has_keys, I.
Qed.

End JsMapFacts.

(** ** The snapshot cache *)

Section Cache.

Context {engine : Engine}.
Variable keyColumn : string.
Implicit Types (cache : JsMap.t JsValue) (updates : list JsValue).








End Cache.

Section About_applyUpdatesToSnapshot_snapshot.

Context {engine : Engine}.

Lemma applyUpdatesToSnapshot_snapshot updates now p :
  snapshot (fst (applyUpdatesToSnapshot updates now p))
  = fst (applyUpdates (keyColumnOf (config p)) updates (snapshot p))
  /\ config (fst (applyUpdatesToSnapshot updates now p)) = config p.
Proof.
  unfold applyUpdatesToSnapshot.
  destruct (applyUpdates (keyColumnOf (config p)) updates (snapshot p)) as [cache []];
    split; reflexivity.
Qed.

End About_applyUpdatesToSnapshot_snapshot.

Section About_applyBatches_snapshot.

Context {engine : Engine}.


End About_applyBatches_snapshot.

Section About_cache_size_after_batches.

Context {engine : Engine}.


(** A record that inherits its key column is stored under the text of what
    it inherits. *)
Lemma inherited_key_is_cached keyColumn update text cache :
  update <> JNull -> ownProp update keyColumn = None ->
  inherited update keyColumn = Some text ->
  applyUpdates keyColumn [update] cache = (JsMap.set cache text update, true).
Proof.
  intros N O H. cbn [applyUpdates]. unfold keyOutcome, getProp. rewrite O, H.
  destruct update; [contradiction|reflexivity..].
Qed.


End About_cache_size_after_batches.

Section Sample_cache_size_after_batches_witness.

#[local] Existing Instance ownProperties.


End Sample_cache_size_after_batches_witness.

Section Sample_keyless_record_is_not_cached.

#[local] Existing Instance ownProperties.


End Sample_keyless_record_is_not_cached.

(** ** Objects of the worker *)

Section ListFacts.

Context {A : Type}.
Implicit Types (l : list A) (x : A).

Lemma nth_error_replaceNth_same l i x :
  i < List.length l -> nth_error (replaceNth i x l) i = Some x.
Proof.
  revert i; induction l as [|y l IH]; intros [|i] L; simpl in *; try lia; auto.
  apply IH; lia.
Qed.

Lemma nth_error_replaceNth_other l i j x :
  i <> j -> nth_error (replaceNth i x l) j = nth_error l j.
Proof.
  revert i j; induction l as [|y l IH]; intros [|i] [|j] N; simpl; auto; try lia.
Qed.

Lemma replaceNth_last l y x :
  replaceNth (List.length l) x (l ++ [y]) = l ++ [x].
Proof. induction l as [|z l IH]; simpl; congruence. Qed.

Lemma nth_error_length l i x : nth_error l i = Some x -> i < List.length l.
Proof. intros E. apply nth_error_Some. congruence. Qed.

End ListFacts.

Section WorkerObjects.

Variable JSON_parse : string -> option JsValue.
Context {engine : Engine}.

Lemma Methods_weaken (ok ok' : Callback -> Prop) p q :
  (forall cb, ok cb -> ok' cb) ->
  Methods JSON_parse ok p q -> Methods JSON_parse ok' p q.
Proof.
  intros W M. induction M as [|p q r _ IH S]; [constructor|].
  apply MethodsThen with q; [exact IH|].
  destruct S; constructor. now apply W.
Qed.

Lemma Methods_one ok p q : Method JSON_parse ok p q -> Methods JSON_parse ok p q.
Proof. intros M. eapply MethodsThen; [constructor | exact M]. Qed.

Lemma store_objects r x w : objects (store r x w) = replaceNth r x (objects w).
Proof. reflexivity. Qed.

Lemma handleConnect_objects e now cid portId port pid cfg id w :
  ObjectsStep JSON_parse e w (fst (fst (handleConnect now cid portId port pid cfg id w))).
Proof.
  unfold handleConnect.
  assert (forall p0 : ProviderConnection,
            Methods JSON_parse (runsCallback e 0)
              p0 (withSubscribers (JsMap.set (subscribers p0) portId port) p0)) as A0.
  { intros p0. apply Methods_one. constructor. }
  assert (forall ok (p0 : ProviderConnection) sl,
            Methods JSON_parse ok p0
              (withSubscribers (JsMap.set (subscribers p0) portId port) p0)
            /\ Methods JSON_parse ok p0
                 (fst (fst (connect sl cid
                    (withSubscribers (JsMap.set (subscribers p0) portId port) p0))))) as M.
  { intros ok p0 sl.
    assert (Methods JSON_parse ok p0
              (withSubscribers (JsMap.set (subscribers p0) portId port) p0)) as A
      by (apply Methods_one; constructor).
    split; [exact A|]. eapply MethodsThen; [exact A | constructor]. }
  clear A0.
  destruct (JsMap.get (providers w) pid) as [r|].
  - destruct (nth_error (objects w) r) as [p0|] eqn:E; [|now apply ObjectsSame].
    destruct (M (runsCallback e r) p0 (stompLoaded w)) as [A C].
    set (provider := withSubscribers _ p0) in *.
    destruct (negb (isConnected (statistics provider)) && negb (isConnecting provider)).
    + destruct (connect (stompLoaded w) cid provider) as [[p' es] [err|]] eqn:K;
        cbn [fst snd] in *;
        (eapply ObjectsUpdate; [exact E | exact C | reflexivity]).
    + destruct (isConnected (statistics provider));
        cbn [fst snd];
        (eapply ObjectsUpdate; [exact E | exact A | reflexivity]).
  - cbn [objects withProviders withObjects stompLoaded].
    rewrite nth_error_app2 by lia. rewrite Nat.sub_diag. cbn [nth_error].
    destruct (M (fun _ : Callback => False)
                (newProviderConnection pid cfg now) (stompLoaded w)) as [A C].
    set (provider := withSubscribers _ (newProviderConnection pid cfg now)) in *.
    destruct (negb (isConnected (statistics provider)) && negb (isConnecting provider)).
    + destruct (connect (stompLoaded w) cid provider) as [[p' es] [err|]] eqn:K;
        cbn [fst snd] in *;
        (eapply ObjectsNew; [exact C | rewrite store_objects; apply replaceNth_last]).
    + destruct (isConnected (statistics provider));
        cbn [fst snd];
        (eapply ObjectsNew; [exact A | rewrite store_objects; apply replaceNth_last]).
Qed.

Lemma lookupProvider_object w pid ref p :
  lookupProvider w pid = Some (ref, p) ->
  JsMap.get (providers w) pid = Some ref /\ nth_error (objects w) ref = Some p.
Proof.
  unfold lookupProvider. destruct (JsMap.get (providers w) pid) as [r|]; [|discriminate].
  destruct (nth_error (objects w) r) eqn:E; [|discriminate].
  intros [= <- <-]. now split.
Qed.

Lemma handleDisconnect_objects e pid w :
  ObjectsStep JSON_parse e w (fst (handleDisconnect pid w)).
Proof.
  unfold handleDisconnect.
  destruct (lookupProvider w pid) as [[r p]|] eqn:L; [|now apply ObjectsSame].
  apply lookupProvider_object in L as [_ E].
  destruct (disconnect p) as [p' es] eqn:D. cbn [fst].
  eapply ObjectsUpdate; [exact E | | reflexivity].
  apply Methods_one. replace p' with (fst (disconnect p)) by now rewrite D.
  constructor.
Qed.

Lemma handleRefresh_objects e port pid id w :
  ObjectsStep JSON_parse e w (fst (fst (handleRefresh port pid id w))).
Proof.
  unfold handleRefresh.
  destruct (lookupProvider w pid) as [[r p]|] eqn:L; [|now apply ObjectsSame].
  apply lookupProvider_object in L as [_ E].
  destruct (disconnect p) as [p' es] eqn:D. cbn [fst].
  eapply ObjectsUpdate; [exact E | | reflexivity].
  apply Methods_one. replace p' with (fst (disconnect p)) by now rewrite D.
  constructor.
Qed.

Lemma resumeRefresh_objects e cid t ts w :
  ObjectsStep JSON_parse e w (fst (resumeRefresh cid t (withTimers ts w))).
Proof.
  unfold resumeRefresh. cbn [objects withTimers stompLoaded].
  destruct (nth_error (objects w) (timerProvider t)) as [p|] eqn:E;
    [|now apply ObjectsSame].
  destruct (connect (stompLoaded w) cid p) as [[p' es] err] eqn:K.
  assert (Methods JSON_parse (runsCallback e (timerProvider t)) p p') as M.
  { apply Methods_one. replace p' with (fst (fst (connect (stompLoaded w) cid p)))
      by now rewrite K. constructor. }
  destruct err; cbn [fst]; eapply ObjectsUpdate; eauto.
Qed.

(** Every step has one of the three shapes. *)
Lemma step_objects e w : ObjectsStep JSON_parse e w (fst (step JSON_parse e w)).
Proof.
  destruct e as [now | portId id request now cid | r c cb now | k cid]; cbn [step].
  - now apply ObjectsSame.
  - destruct (JsMap.get (ports w) portId) as [port|]; [|now apply ObjectsSame].
    destruct request as [pid cfg | pid | pid | pid | pid | type]; cbn [handlePortMessage].
    + pose proof (handleConnect_objects
                    (PortMessage portId id (ConnectRequest pid cfg) now cid)
                    now cid portId port pid cfg id w) as H.
      destruct (handleConnect now cid portId port pid cfg id w) as [[w' es] [err|]];
        exact H.
    + pose proof (handleDisconnect_objects
                    (PortMessage portId id (DisconnectRequest pid) now cid) pid w) as H.
      destruct (handleDisconnect pid w) as [w' es]. exact H.
    + pose proof (handleRefresh_objects
                    (PortMessage portId id (RefreshRequest pid) now cid) port pid id w) as H.
      destruct (handleRefresh port pid id w) as [[w' es] [err|]]; exact H.
    + now apply ObjectsSame.
    + now apply ObjectsSame.
    + now apply ObjectsSame.
  - destruct (nth_error (objects w) r) as [p|] eqn:E; [|now apply ObjectsSame].
    destruct (callback JSON_parse c cb now p) as [p' es] eqn:K. cbn [fst].
    eapply ObjectsUpdate; [exact E | | reflexivity].
    apply Methods_one. replace p' with (fst (callback JSON_parse c cb now p))
      by now rewrite K.
    constructor. now exists c, now.
  - destruct (nth_error (timers w) k) as [t|]; [|now apply ObjectsSame].
    apply resumeRefresh_objects.
Qed.

End WorkerObjects.

(** ** What the methods leave alone *)

(** Where a goal applies [applyUpdatesToSnapshot], recall what [lemma] says
    of that call as [H] and split the call's result. *)
Tactic Notation "applied" constr(lemma) "as" ident(H) :=
  match goal with
  | |- context [applyUpdatesToSnapshot ?u ?n ?q] =>
      pose proof (lemma u n q) as H;
      destruct (applyUpdatesToSnapshot u n q) as [? [?|]]
  end.

Section MethodFacts.

Variable JSON_parse : string -> option JsValue.
Context {engine : Engine}.

Lemma connect_fields sl cid p :
  let q := fst (fst (connect sl cid p)) in
  config q = config p /\ snapshot q = snapshot p
  /\ isSnapshotComplete q = isSnapshotComplete p
  /\ statistics q = statistics p.
Proof.
  unfold connect.
  destruct (isConnecting p || isConnected (statistics p)); [now repeat split|].
  destruct sl; now repeat split.
Qed.

Lemma applyUpdatesToSnapshot_fields updates now p :
  let q := fst (applyUpdatesToSnapshot updates now p) in
  config q = config p /\ isSnapshotComplete q = isSnapshotComplete p
  /\ statistics q = statistics p /\ subscribers q = subscribers p
  /\ providerId q = providerId p.
Proof.
  unfold applyUpdatesToSnapshot.
  destruct (applyUpdates (keyColumnOf (config p)) updates (snapshot p)) as [cache []];
    now repeat split.
Qed.

Lemma applyUpdates_keeps keyColumn updates : forall cache key,
  JsMap.has cache key = true ->
  JsMap.has (fst (applyUpdates keyColumn updates cache)) key = true.
Proof.
  induction updates as [|u rest IH]; intros cache key H; simpl; [exact H|].
  destruct (keyOutcome keyColumn u); simpl; auto.
  apply IH, has_set. now right.
Qed.

Lemma handleMessage_config body now p :
  config (fst (handleMessage JSON_parse body now p)) = config p.
Proof.
  unfold handleMessage.
  destruct (classifyFrame JSON_parse _ (trim body)) as [|positions|]; try reflexivity.
  applied applyUpdatesToSnapshot_fields as F; cbn [fst] in *; destruct F as (-> & _);
    destruct (isSnapshotComplete _); reflexivity.
Qed.

Lemma handleMessage_keeps body now p :
  keepsKeys p (fst (handleMessage JSON_parse body now p)).
Proof.
  unfold handleMessage, keepsKeys. intros key H.
  destruct (classifyFrame JSON_parse _ (trim body)) as [|positions|]; try exact H.
  applied applyUpdatesToSnapshot_snapshot as S; cbn [fst] in *; destruct S as [S _]; rewrite S; apply applyUpdates_keeps;
    destruct (isSnapshotComplete _); exact H.
Qed.

(** No method changes the configuration. *)
Lemma method_config ok p q : Method JSON_parse ok p q -> config q = config p.
Proof.
  intros [p0 portId port | sl cid p0 | p0 | c cb now p0 _].
  - reflexivity.
  - apply connect_fields.
  - reflexivity.
  - destruct cb; cbn [callback]; try reflexivity.
    + unfold onConnect. cbn. destruct (connection p0); reflexivity.
    + apply handleMessage_config.
Qed.

(** No method but the [onConnect] callback removes a key from the cache. *)
Lemma method_keeps p q :
  Method JSON_parse (fun cb => cb <> OnConnect) p q -> keepsKeys p q.
Proof.
  intros [p0 portId port | sl cid p0 | p0 | c cb now p0 Hcb]; intros key H.
  - exact H.
  - destruct (connect_fields sl cid p0) as (_ & -> & _). exact H.
  - exact H.
  - destruct cb; cbn [callback]; try exact H.
    + now elim Hcb.
    + now apply handleMessage_keeps.
Qed.

Lemma methods_keep p q :
  Methods JSON_parse (fun cb => cb <> OnConnect) p q -> keepsKeys p q.
Proof.
  intros M. induction M as [|p q r _ IH S]; intros key H; [exact H|].
  apply (method_keeps _ _ S), IH, H.
Qed.

(** Without an end token no method leaves the snapshot phase for real time. *)
Lemma method_notRealtime ok p q :
  noEndToken (config p) -> Method JSON_parse ok p q -> notRealtime p -> notRealtime q.
Proof.
  intros N M [C R]. unfold notRealtime.
  destruct M as [p0 portId port | sl cid p0 | p0 | c cb now p0 _].
  - now split.
  - destruct (connect_fields sl cid p0) as (_ & _ & -> & ->). now split.
  - cbn. split; [exact C | discriminate].
  - destruct cb; cbn [callback].
    + unfold onConnect. cbn. destruct (connection p0); cbn; split; (reflexivity || discriminate).
    + now split.
    + now split.
    + cbn. split; [exact C | discriminate].
    + unfold handleMessage, classifyFrame. cbn.
      rewrite (isEndToken_unset _ _ N), andb_false_r.
      destruct (JSON_parse (trim body)) as [data|]; [|now split].
      applied applyUpdatesToSnapshot_fields as F; cbn [fst] in *; destruct F as (_ & -> & -> & _);
        rewrite C; cbn; now split.
Qed.

End MethodFacts.

(** ** Invariants of the objects along a run *)

Section WorkerRuns.

Variable JSON_parse : string -> option JsValue.
Context {engine : Engine}.

(** An object a step finds is still there after it, changed by methods. *)
Lemma step_forward e w ref p :
  nth_error (objects w) ref = Some p ->
  exists p', nth_error (objects (fst (step JSON_parse e w))) ref = Some p'
             /\ Methods JSON_parse (runsCallback e ref) p p'.
Proof.
  intros E. destruct (step_objects JSON_parse e w) as [S | r q x Er M S | pid cfg now x M S];
    rewrite S.
  - exists p. split; [exact E | constructor].
  - destruct (Nat.eq_dec r ref) as [<-|N].
    + exists x. split; [|congruence].
      apply nth_error_replaceNth_same. eapply nth_error_length, E.
    + exists p. rewrite (nth_error_replaceNth_other _ _ _ _ N). split; [exact E | constructor].
  - exists p. split; [|constructor].
    rewrite nth_error_app1; [exact E | eapply nth_error_length, E].
Qed.

(** An object found after a step was there before it, or is a new provider
    connection; either way methods made it what it is. *)
Lemma step_backward e w ref p' :
  nth_error (objects (fst (step JSON_parse e w))) ref = Some p' ->
  (exists p, nth_error (objects w) ref = Some p
             /\ Methods JSON_parse (runsCallback e ref) p p')
  \/ (exists providerId config now,
        Methods JSON_parse (fun _ => False)
          (newProviderConnection providerId config now) p').
Proof.
  destruct (step_objects JSON_parse e w) as [S | r q x Er M S | pid cfg now x M S];
    rewrite S; intros E.
  - left. exists p'. split; [exact E | constructor].
  - left. destruct (Nat.eq_dec r ref) as [<-|N].
    + rewrite nth_error_replaceNth_same in E by (eapply nth_error_length, Er).
      injection E as <-. now exists q.
    + rewrite (nth_error_replaceNth_other _ _ _ _ N) in E.
      exists p'. split; [exact E | constructor].
  - destruct (Nat.lt_ge_cases ref (List.length (objects w))) as [L|G].
    + left. rewrite nth_error_app1 in E by exact L.
      exists p'. split; [exact E | constructor].
    + right. rewrite nth_error_app2 in E by exact G.
      destruct (ref - List.length (objects w)) as [|n]; cbn in E.
      * injection E as <-. now exists pid, cfg, now.
      * destruct n; discriminate.
Qed.

Section ObjectInvariant.

Variable P : ProviderConnection -> Prop.
Hypothesis P_new : forall providerId config now,
  P (newProviderConnection providerId config now).
Hypothesis P_method : forall p q,
  P p -> Method JSON_parse (fun _ => True) p q -> P q.

Lemma objects_invariant_methods ok p q : P p -> Methods JSON_parse ok p q -> P q.
Proof.
  intros H M. apply (Methods_weaken JSON_parse ok (fun _ => True)) in M; [|auto].
  revert H. induction M as [|p q r _ IH S]; intros H; [exact H|].
  apply (P_method q r); [apply IH, H | exact S].
Qed.

Lemma objects_invariant_step e w :
  Forall P (objects w) -> Forall P (objects (fst (step JSON_parse e w))).
Proof.
  intros F. apply Forall_forall. intros p' I.
  apply In_nth_error in I as [ref E].
  apply step_backward in E as [(p & E & M) | (pid & cfg & now & M)].
  - eapply objects_invariant_methods; [|exact M].
    eapply Forall_forall; [exact F | eapply nth_error_In, E].
  - eapply objects_invariant_methods; [apply P_new | exact M].
Qed.

Lemma objects_invariant_run es : forall w,
  Forall P (objects w) -> Forall P (objects (fst (run JSON_parse es w))).
Proof.
  induction es as [|e rest IH]; intros w F; cbn [run]; [exact F|].
  pose proof (objects_invariant_step e w F) as F1.
  destruct (step JSON_parse e w) as [w1 out1]. cbn [fst] in F1.
  specialize (IH w1 F1).
  destruct (run JSON_parse rest w1) as [w2 out2]. exact IH.
Qed.

End ObjectInvariant.

End WorkerRuns.

Section About_no_end_token_never_realtime.

Context {engine : Engine}.

(** C10. When the configuration sets no end token (absent or empty),
    [isEndToken] answers [false] for every body, also for one that contains
    "success"; and whatever events the worker has processed, a provider
    connection with such a configuration classifies no frame as
    [EndOfSnapshot], has not completed its snapshot and is not in real-time
    mode. *)
Theorem no_end_token_never_realtime
  (JSON_parse : string -> option JsValue) (stompLoaded : bool)
  (events : list Event) (ref : nat) (p : ProviderConnection) :
  nth_error (objects (fst (run JSON_parse events (initialWorker stompLoaded)))) ref
  = Some p ->
  noEndToken (config p) ->
  (forall body, isEndToken (config p) body = false)
  /\ (forall body, classifyFrame JSON_parse p body <> EndOfSnapshot)
  /\ isSnapshotComplete p = false
  /\ mode (statistics p) <> Realtime.
Proof.
  intros E N.
  assert (forall body, isEndToken (config p) body = false) as T
    by (intros body; now apply isEndToken_unset).
  split; [exact T | split].
  { intros body. unfold classifyFrame. rewrite T, andb_false_r.
    destruct (JSON_parse body); discriminate. }
  pose proof (objects_invariant_run JSON_parse
                (fun q => noEndToken (config q) -> notRealtime q)) as I.
  assert (Forall (fun q => noEndToken (config q) -> notRealtime q)
            (objects (fst (run JSON_parse events (initialWorker stompLoaded))))) as F.
  { apply I.
    - intros pid cfg now _. split; [reflexivity | discriminate].
    - intros p0 q H M Nq. rewrite (method_config _ _ _ _ M) in Nq.
      eapply method_notRealtime; eauto.
    - constructor. }
  eapply Forall_forall in F; [|eapply nth_error_In, E]. exact (F N).
Qed.

End About_no_end_token_never_realtime.

Section Sample_no_end_token_never_realtime_witness.

#[local] Existing Instance ownProperties.

Lemma no_end_token_never_realtime_witness :
  isEndToken bareConfig "Success: All 2 records delivered" = false
  /\ isSnapshotComplete
       (firstObject (fst (run JsonText.parse
                            (snapshotRun bareConfig ["Success: All 2 records delivered"])
                            (initialWorker true)))) = false.
Proof.
  destruct (no_end_token_never_realtime JsonText.parse true
              (snapshotRun bareConfig ["Success: All 2 records delivered"]) 0
              (firstObject (fst (run JsonText.parse
                                   (snapshotRun bareConfig ["Success: All 2 records delivered"])
                                   (initialWorker true)))))
    as (T & _ & S & _).
  - reflexivity.
  - left; reflexivity.
  - split; [exact (T "Success: All 2 records delivered") | exact S].
Defined.

End Sample_no_end_token_never_realtime_witness.

Section About_cache_cleared_on_connect_only.

Context {engine : Engine}.

(** C7. The [onConnect] callback empties the cache and resets the snapshot
    row counter; the [onDisconnect] and error callbacks and [disconnect]
    leave the cache as it is; no step of the worker other than the
    [onConnect] callback of an object removes a key from that object's cache;
    and after a transport disconnect or error the records are still what
    [get-snapshot] returns. *)
Theorem cache_cleared_on_connect_only (JSON_parse : string -> option JsValue) :
  (forall c now p,
      getSnapshot (fst (onConnect c now p)) = []
      /\ snapshotRowsReceived (statistics (fst (onConnect c now p))) = 0%Z
      /\ isSnapshotComplete (fst (onConnect c now p)) = false)
  /\ (forall p message,
        getSnapshot (fst (onDisconnect p)) = getSnapshot p
        /\ getSnapshot (fst (onStompError message p)) = getSnapshot p
        /\ getSnapshot (fst (onWebSocketError p)) = getSnapshot p
        /\ getSnapshot (fst (disconnect p)) = getSnapshot p)
  /\ (forall e w ref p,
        nth_error (objects w) ref = Some p ->
        (forall c now, e <> Transport ref c OnConnect now) ->
        exists p', nth_error (objects (fst (step JSON_parse e w))) ref = Some p'
                   /\ keepsKeys p p')
  /\ (forall w providerId ref p c cb now,
        lookupProvider w providerId = Some (ref, p) ->
        cb = OnDisconnect \/ cb = OnWebSocketError
        \/ (exists message, cb = OnStompError message) ->
        handleGetSnapshot providerId w = getSnapshot p
        /\ handleGetSnapshot providerId
             (fst (step JSON_parse (Transport ref c cb now) w)) = getSnapshot p).
Proof.
  split; [|split; [|split]].
  - intros c now p. unfold onConnect. cbn. destruct (connection p); now repeat split.
  - intros p message. now repeat split.
  - intros e w ref p E NC.
    destruct (step_forward JSON_parse e w ref p E) as (p' & E' & M).
    exists p'. split; [exact E'|]. apply (methods_keep JSON_parse).
    eapply Methods_weaken; [|exact M].
    intros cb (c & now & ->) ->. now apply (NC c now).
  - intros w pid ref p c cb now L Hcb.
    split; [unfold handleGetSnapshot; now rewrite L|].
    pose proof L as L0. apply lookupProvider_object in L as [G E].
    cbn [step]. rewrite E.
    assert (forall q es, callback JSON_parse c cb now p = (q, es) ->
                         getSnapshot q = getSnapshot p) as K.
    { intros q es. destruct Hcb as [-> | [-> | [m ->]]]; cbn [callback];
        intros [= <- _]; reflexivity. }
    destruct (callback JSON_parse c cb now p) as [q es] eqn:C. cbn [fst].
    unfold handleGetSnapshot, lookupProvider. cbn [providers store withObjects objects].
    rewrite G, nth_error_replaceNth_same by (eapply nth_error_length, E).
    eapply K; reflexivity.
Qed.

End About_cache_cleared_on_connect_only.

(** ** The gateway: requests of the consumers *)

Section About_statistics_of_unknown_provider.

Context {engine : Engine}.

(** C2, as the code has it: a [get-statistics] request for a provider id the
    registry does not know is answered by exactly one message, a response
    with the request's id whose [statistics] is [null] and which has no
    [error] field; the worker's state is unchanged. *)
Theorem statistics_of_unknown_provider
  (JSON_parse : string -> option JsValue) (w : Worker)
  (portId : string) (port : Port) (id providerId : string)
  (now : Z) (freshClientId : string) :
  JsMap.get (ports w) portId = Some port ->
  JsMap.get (providers w) providerId = None ->
  step JSON_parse
    (PortMessage portId id (GetStatisticsRequest providerId) now freshClientId) w
  = (w, [PostMessage port (Response id (StatisticsOf None))])
  /\ envelopeId (Response id (StatisticsOf None)) = Some id
  /\ envelopeError (Response id (StatisticsOf None)) = None.
Proof.
  intros P R. cbn [step]. rewrite P. cbn [handlePortMessage].
  unfold handleGetStatistics, lookupProvider. rewrite R. now repeat split.
Qed.

End About_statistics_of_unknown_provider.

Section Sample_statistics_of_unknown_provider_witness.

#[local] Existing Instance ownProperties.

Lemma statistics_of_unknown_provider_witness :
  step JsonText.parse
    (PortMessage "port-1-1" "x1" (GetStatisticsRequest "unknown") 5 "stomp-5-aaaa")
    (onconnect 1 (initialWorker true))
  = (onconnect 1 (initialWorker true),
     [PostMessage (MessagePort "port-1-1") (Response "x1" (StatisticsOf None))]).
Proof.
  exact (proj1 (statistics_of_unknown_provider JsonText.parse
                  (onconnect 1 (initialWorker true)) "port-1-1"
                  (MessagePort "port-1-1") "x1" "unknown" 5%Z "stomp-5-aaaa"
                  eq_refl eq_refl)).
Defined.

End Sample_statistics_of_unknown_provider_witness.

Section Sample_statistics_of_unknown_provider_has_no_error.

#[local] Existing Instance ownProperties.

(** C2 as stated fails: the one message that answers request ["x1"] has no
    error. *)
Lemma statistics_of_unknown_provider_has_no_error :
  ~ exists m,
      In (PostMessage (MessagePort "port-1-1") m)
         (snd (step JsonText.parse
                 (PortMessage "port-1-1" "x1" (GetStatisticsRequest "unknown") 5
                    "stomp-5-aaaa")
                 (onconnect 1 (initialWorker true))))
      /\ envelopeId m = Some "x1"
      /\ envelopeError m <> None.
Proof.
  intros (m & I & _ & E). cbn in I. destruct I as [[= <-]|[]]. now apply E.
Qed.

End Sample_statistics_of_unknown_provider_has_no_error.


Section Sample_connect_while_connecting_or_connected_witness.

#[local] Existing Instance ownProperties.


End Sample_connect_while_connecting_or_connected_witness.

Section Sample_connecting_unreported_and_second_client.

#[local] Existing Instance ownProperties.


End Sample_connecting_unreported_and_second_client.

Section Sample_disconnect_of_one_consumer_tears_down.

#[local] Existing Instance ownProperties.

(** C1 on the code: two consumers share provider ["P"] and both receive its
    data; when the first sends [disconnect], the worker unsubscribes,
    deactivates the client and drops ["P"] from the registry, although the
    second consumer is still among the subscribers; its next [get-snapshot]
    finds nothing. *)
Theorem disconnect_of_one_consumer_tears_down
  : postedTo "port-2-2" (snd (run JsonText.parse sharedEvents (initialWorker true)))
    = [Connected "P" "P"; Response "c2" Success;
       Data "P" [recordValue "1" "10"; recordValue "2" "20"] true]
  /\ snd (step JsonText.parse firstDisconnects sharedWorker)
     = [Unsubscribe (sampleClient scenarioConfig) "/snapshot/positions/stomp-10-aaaa";
        Deactivate (sampleClient scenarioConfig);
        PostMessage (MessagePort "port-1-1") (Response "d1" Success)]
  /\ JsMap.get (providers (fst (step JsonText.parse firstDisconnects sharedWorker))) "P"
     = None
  /\ JsMap.keys (subscribers
                   (firstObject (fst (step JsonText.parse firstDisconnects sharedWorker))))
     = ["port-1-1"; "port-2-2"]
  /\ connection (firstObject (fst (step JsonText.parse firstDisconnects sharedWorker)))
     = None
  /\ snd (step JsonText.parse
            (PortMessage "port-2-2" "g2" (GetSnapshotRequest "P") 50 "stomp-50-dddd")
            (fst (step JsonText.parse firstDisconnects sharedWorker)))
     = [PostMessage (MessagePort "port-2-2") (Response "g2" (SnapshotData []))].
Proof. repeat split. Qed.

End Sample_disconnect_of_one_consumer_tears_down.

(** ** Pending requests *)

Section PendingFacts.

Lemma removeNth_In {A} (l : list A) j x : In x (removeNth j l) -> In x l.
Proof.
  revert j; induction l as [|y l IH]; intros [|j]; simpl; auto.
  intros [->|I]; [now left | right; eauto].
Qed.

Lemma removeNth_other {A} (l : list A) j t x :
  nth_error l j = Some t -> In x l -> x = t \/ In x (removeNth j l).
Proof.
  revert j; induction l as [|y l IH]; intros [|j]; simpl; try discriminate.
  - intros [= ->] [->|I]; auto.
  - intros E [->|I]; [right; now left|].
    destruct (IH _ E I); [now left | right; now right].
Qed.

Lemma removeNth_NoDup {A B} (f : A -> B) (l : list A) j :
  NoDup (map f l) -> NoDup (map f (removeNth j l)).
Proof.
  revert j; induction l as [|y l IH]; intros [|j] D; simpl in *; auto;
    inversion D as [|? ? NI D']; subst; auto.
  constructor; [|now apply IH].
  intros I. apply NI. apply in_map_iff in I as (x & E & I).
  apply in_map_iff. exists x. split; [exact E | eapply removeNth_In, I].
Qed.

Lemma removeNth_distinct {A B} (f : A -> B) (l : list A) j t x :
  NoDup (map f l) -> nth_error l j = Some t -> In x (removeNth j l) -> f x <> f t.
Proof.
  revert j; induction l as [|y l IH]; intros [|j] D E I; simpl in *; try discriminate;
    inversion D as [|? ? NI D']; subst.
  - injection E as ->. intros Q. apply NI. rewrite <- Q. now apply in_map.
  - destruct I as [->|I]; [|eauto].
    intros Q. apply NI. rewrite Q. apply in_map. eapply nth_error_In, E.
Qed.

Lemma NoDup_map_eq {A B} (f : A -> B) (l : list A) a b :
  NoDup (map f l) -> In a l -> In b l -> f a = f b -> a = b.
Proof.
  induction l as [|y l IH]; simpl; [contradiction|].
  intros D [->|Ia] [->|Ib] Q; inversion D as [|? ? NI D']; subst; auto.
  - elim NI. rewrite Q. now apply in_map.
  - elim NI. rewrite <- Q. now apply in_map.
Qed.

Lemma keys_delete_In {V} (m : JsMap.t V) k k' :
  In k' (JsMap.keys (JsMap.delete m k)) -> In k' (JsMap.keys m).
Proof.
  induction m as [|[k0 v0] m IH]; simpl; auto.
  destruct (string_dec k k0); simpl; [now right|]. intros [->|I]; auto.
Qed.

Lemma keys_delete_NoDup {V} (m : JsMap.t V) k :
  NoDup (JsMap.keys m) -> NoDup (JsMap.keys (JsMap.delete m k)).
Proof.
  induction m as [|[k0 v0] m IH]; simpl; intros D; [exact D|].
  inversion D as [|? ? NI D']; subst.
  destruct (string_dec k k0); simpl; [exact D'|].
  constructor; [|now apply IH]. intros I. apply NI. eapply keys_delete_In, I.
Qed.

Lemma settled_app {A} (calls more : Calls A) k :
  settled (calls ++ more) k <-> settled calls k \/ settled more k.
Proof. unfold settled. rewrite map_app. apply in_app_iff. Qed.

Lemma promiseState_None {A} (calls : Calls A) k :
  promiseState calls k = None <-> ~ settled calls k.
Proof.
  unfold settled. induction calls as [|[k' o] calls IH]; simpl.
  - split; [intros _ [] | reflexivity].
  - destruct (Nat.eqb_spec k k') as [->|N].
    + split; [discriminate | intros H; elim H; now left].
    + rewrite IH. split; [intros H [E|I]; [congruence | auto] | auto].
Qed.

(** The first call decides: more calls do not change a settled promise. *)
Lemma promiseState_app {A} (calls more : Calls A) k o :
  promiseState calls k = Some o -> promiseState (calls ++ more) k = Some o.
Proof.
  induction calls as [|[k' o'] calls IH]; simpl; [discriminate|].
  destruct (Nat.eqb k k'); auto.
Qed.

Lemma settleCount_app {A} (calls more : Calls A) k :
  settleCount (calls ++ more) k = settleCount calls k + settleCount more k.
Proof. unfold settleCount. now rewrite filter_app, length_app. Qed.

Lemma settleCount_unsettled {A} (calls : Calls A) k :
  ~ settled calls k -> settleCount calls k = 0.
Proof.
  unfold settled, settleCount. induction calls as [|[k' o] calls IH]; simpl; [reflexivity|].
  intros N. destruct (Nat.eqb_spec k k') as [->|_]; [elim N; now left|].
  apply IH. intros I. apply N. now right.
Qed.

Lemma settleCount_once {A} (calls : Calls A) k :
  NoDup (map fst calls) -> settled calls k -> settleCount calls k = 1.
Proof.
  unfold settled. induction calls as [|[k' o] calls IH]; simpl; [contradiction|].
  intros D I. inversion D as [|? ? NI D']; subst.
  unfold settleCount. simpl. destruct (Nat.eqb_spec k k') as [->|N].
  - simpl. f_equal. now apply settleCount_unsettled.
  - destruct I as [E|I]; [congruence|]. now apply IH.
Qed.

(** Decimal texts. *)
Lemma ofZ_inj (a b : Z) : ofZ a = ofZ b -> a = b.
Proof.
  unfold ofZ. intros E. apply DecimalZ.to_int_inj.
  apply (f_equal NilEmpty.int_of_string) in E.
  rewrite !NilEmpty.isi in E. now injection E.
Qed.

Lemma string_of_uint_dashFree (d : Decimal.uint) :
  dashFree (NilEmpty.string_of_uint d).
Proof. induction d; simpl; auto; split; auto; discriminate. Qed.

Lemma ofZ_dashFree (n : Z) : (0 <= n)%Z -> dashFree (ofZ n).
Proof.
  unfold ofZ. destruct n as [|p|p]; intros L; try lia; cbn.
  - split; [discriminate | exact I].
  - apply string_of_uint_dashFree.
Qed.

Lemma dash_split (a a' b b' : string) :
  dashFree a -> dashFree a' ->
  (a ++ String "-" b)%string = (a' ++ String "-" b')%string -> a = a'.
Proof.
  revert a'; induction a as [|c a IH]; intros [|c' a'] F F' E; simpl in *.
  - reflexivity.
  - injection E as E _. destruct F' as [N _]. now elim N.
  - injection E as E _. destruct F as [N _]. now elim N.
  - injection E as -> E. f_equal. apply (IH a'); tauto.
Qed.

End PendingFacts.

(** *** The [pendingMessages] map of [StompClientService] *)

Section PendingMapProofs.

Import PendingMap PendingMapInvariant.

Context {engine : Engine}.

#[local] Arguments generateMessageId : simpl never.

Lemma NoDup_snoc {A} (l : list A) (x : A) : NoDup l -> ~ In x l -> NoDup (l ++ [x]).
Proof.
  intros D N. apply NoDup_app; [exact D | repeat constructor; intros [] |].
  intros a I [<-|[]]. now apply N.
Qed.

(** Message ids with different counters are different. *)
Lemma generateMessageId_counter (n t n' t' : Z) :
  (0 <= n)%Z -> (0 <= n')%Z ->
  generateMessageId n t = generateMessageId n' t' -> n = n'.
Proof.
  intros L L' E. unfold generateMessageId in E. cbn [append] in E.
  injection E as E. apply ofZ_inj.
  apply (dash_split _ _ (ofZ t) (ofZ t')); [now apply ofZ_dashFree .. | exact E].
Qed.

Lemma pendingMap_initial b : Invariant (initial b).
Proof.
  constructor; cbn.
  - lia.
  - intros t [].
  - constructor.
  - constructor.
  - intros t [].
  - intros k [].
  - constructor.
  - constructor.
  - discriminate.
  - intros t [].
  - intros k L. lia.
Qed.

Lemma pendingMap_send type now s : Invariant s -> Invariant (sendWorkerMessage type now s).
Proof.
  intros [cp ti tid tpd tb cb co kd pe te pc]. unfold sendWorkerMessage.
  destruct (portAvailable s); cbn [negb].
  - (* the request is posted *)
    assert (~ In (generateMessageId (messageId s + 1) now) (map timerId (timers s))) as F.
    { intros I. apply in_map_iff in I as (t & E & I).
      destruct (ti t I) as (c & n & Q & B). rewrite Q in E.
      apply generateMessageId_counter in E; lia. }
    constructor; cbn.
    + lia.
    + intros t I. apply in_app_iff in I as [I|[<-|[]]].
      * destruct (ti t I) as (c & n & Q & B). exists c, n. split; [exact Q | lia].
      * exists (messageId s + 1)%Z, now. split; [reflexivity | lia].
    + rewrite map_app. now apply NoDup_snoc.
    + rewrite map_app. apply NoDup_snoc; [exact tpd|]. cbn.
      intros I. apply in_map_iff in I as (t & E & I). destruct (tb t I). lia.
    + intros t I. apply in_app_iff in I as [I|[<-|[]]]; cbn.
      * destruct (tb t I). split; [lia | assumption].
      * split; [lia | reflexivity].
    + intros k S. specialize (cb k S). lia.
    + exact co.
    + now apply keys_set_NoDup.
    + intros id k G.
      destruct (string_dec (generateMessageId (messageId s + 1) now) id) as [<-|N].
      * rewrite get_set_same in G. injection G as <-. split.
        -- intros S. specialize (cb _ S). lia.
        -- eexists. split; [apply in_or_app; right; now left | now split].
      * rewrite (get_set_other _ _ _ _ N) in G. destruct (pe id k G) as (U & t & I & Q).
        split; [exact U|]. exists t. split; [apply in_or_app; now left | exact Q].
    + intros t I. apply in_app_iff in I as [I|[<-|[]]]; cbn.
      * destruct (te t I) as [G|S]; [left | now right].
        rewrite get_set_other; [exact G|]. intros Q. apply F. rewrite Q. now apply in_map.
      * left. apply get_set_same.
    + intros k L. destruct (Nat.eq_dec k (promises s)) as [->|N].
      * right. eexists. split; [apply in_or_app; right; now left | reflexivity].
      * destruct (pc k ltac:(lia)) as [S|(t & I & Q)]; [now left | right].
        exists t. split; [apply in_or_app; now left | exact Q].
  - (* no port: the promise is rejected at once *)
    assert (~ settled (calls s) (promises s)) as U
      by (intros S; specialize (cb _ S); lia).
    constructor; cbn; auto.
    + intros t I. destruct (tb t I). split; [lia | assumption].
    + intros k S. apply settled_app in S as [S|[<-|[]]]; [specialize (cb k S)|]; cbn; lia.
    + rewrite map_app. now apply NoDup_snoc.
    + intros id k G. destruct (pe id k G) as (N & t & I & Q & R). split.
      * intros S. apply settled_app in S as [S|[E|[]]]; [now apply N|].
        cbn in E. destruct (tb t I). lia.
      * now exists t.
    + intros t I. destruct (te t I) as [G|S]; [now left | right].
      apply settled_app. now left.
    + intros k L. destruct (Nat.eq_dec k (promises s)) as [->|N].
      * left. apply settled_app. right. now left.
      * destruct (pc k ltac:(lia)) as [S|T]; [left | now right].
        apply settled_app. now left.
Qed.

(** The invariant is about the requests: it does not look at the client
    state nor at the data messages. *)
Lemma invariant_same_requests s s' :
  messageId s' = messageId s -> pendingMessages s' = pendingMessages s ->
  promises s' = promises s -> calls s' = calls s -> timers s' = timers s ->
  Invariant s -> Invariant s'.
Proof.
  intros E1 E2 E3 E4 E5 [cp ti tid tpd tb cb co kd pe te pc].
  constructor; rewrite ?E1, ?E2, ?E3, ?E4, ?E5; assumption.
Qed.

(** The [switch] over a broadcast touches the client state and the data
    messages only. *)
Lemma handleBroadcast_requests response s :
  portAvailable (handleBroadcast response s) = portAvailable s
  /\ messageId (handleBroadcast response s) = messageId s
  /\ pendingMessages (handleBroadcast response s) = pendingMessages s
  /\ promises (handleBroadcast response s) = promises s
  /\ calls (handleBroadcast response s) = calls s
  /\ timers (handleBroadcast response s) = timers s
  /\ posted (handleBroadcast response s) = posted s.
Proof.
  unfold handleBroadcast.
  repeat match goal with
  | |- context [if ?b then _ else _] => destruct b
  | |- context [match read ?p ?n with _ => _ end] => destruct (read p n)
  end; cbn; auto 10.
Qed.

Lemma pendingMap_message response s :
  Invariant s -> Invariant (handleWorkerMessage response s).
Proof.
  intros H. pose proof H as [cp ti tid tpd tb cb co kd pe te pc].
  unfold handleWorkerMessage.
  destruct (JsMap.get (pendingMessages s) (id response)) as [k|] eqn:G.
  2:{ destruct (handleBroadcast_requests response s) as (_ & E1 & E2 & E3 & E4 & E5 & _).
      now apply (invariant_same_requests s). }
  destruct (pe _ _ G) as (U & t0 & I0 & Q0 & R0).
  constructor; cbn; auto.
  - intros k' S. apply settled_app in S as [S|[<-|[]]]; [now apply cb|].
    destruct (tb t0 I0). cbn. lia.
  - rewrite map_app. now apply NoDup_snoc.
  - now apply keys_delete_NoDup.
  - intros id' k' G'.
    destruct (string_dec (id response) id') as [<-|N].
    { rewrite get_delete_same in G' by exact kd. discriminate. }
    rewrite (get_delete_other _ _ _ N) in G'.
    destruct (pe _ _ G') as (U' & t1 & I1 & Q1 & R1). split; [|now exists t1].
    intros S. apply settled_app in S as [S|[E|[]]]; [now apply U'|]. cbn in E.
    apply N. rewrite <- Q0, <- Q1. f_equal.
    apply (NoDup_map_eq timerPromise (timers s)); auto. congruence.
  - intros t I. destruct (te t I) as [G'|S].
    + destruct (string_dec (id response) (timerId t)) as [E|N].
      * right. apply settled_app. right. left. cbn. rewrite <- E, G in G'. congruence.
      * left. now rewrite (get_delete_other _ _ _ N).
    + right. apply settled_app. now left.
  - intros k' L. destruct (pc k' L) as [S|T]; [left | now right].
    apply settled_app. now left.
Qed.

Lemma pendingMap_timer j s : Invariant s -> Invariant (step (TimerFires j) s).
Proof.
  intros H. pose proof H as [cp ti tid tpd tb cb co kd pe te pc].
  cbn [step]. destruct (nth_error (timers s) j) as [t|] eqn:E; [|exact H].
  pose proof (nth_error_In _ _ E) as It.
  unfold onTimeout, JsMap.has. cbn [pendingMessages withTimers].
  destruct (JsMap.get (pendingMessages s) (timerId t)) as [k|] eqn:G.
  - destruct (pe _ _ G) as (U & t1 & I1 & Q1 & R1).
    assert (t1 = t) as -> by (apply (NoDup_map_eq timerId (timers s)); auto).
    subst k.
    constructor; cbn; auto.
    + intros t' I. apply ti. eapply removeNth_In, I.
    + now apply removeNth_NoDup.
    + now apply removeNth_NoDup.
    + intros t' I. apply tb. eapply removeNth_In, I.
    + intros k' S. apply settled_app in S as [S|[<-|[]]]; [now apply cb|].
      cbn. now destruct (tb t It).
    + rewrite map_app. now apply NoDup_snoc.
    + now apply keys_delete_NoDup.
    + intros id' k' G'.
      destruct (string_dec (timerId t) id') as [<-|N].
      { rewrite get_delete_same in G' by exact kd. discriminate. }
      rewrite (get_delete_other _ _ _ N) in G'.
      destruct (pe _ _ G') as (U' & t2 & I2 & Q2 & R2).
      assert (t2 <> t) as D by (intros ->; now apply N).
      split.
      * intros S. apply settled_app in S as [S|[Q|[]]]; [now apply U'|]. cbn in Q.
        apply D. apply (NoDup_map_eq timerPromise (timers s)); auto. congruence.
      * exists t2. split; [|now split].
        destruct (removeNth_other _ _ _ _ E I2); [contradiction | assumption].
    + intros t' I.
      pose proof (removeNth_distinct timerId _ _ _ _ tid E I) as N.
      destruct (te t' (removeNth_In _ _ _ I)) as [G'|S].
      * left. rewrite get_delete_other; [exact G' | congruence].
      * right. apply settled_app. now left.
    + intros k' L. destruct (pc k' L) as [S|(t3 & I3 & Q3)].
      * left. apply settled_app. now left.
      * destruct (removeNth_other _ _ _ _ E I3) as [->|I].
        -- left. apply settled_app. right. left. exact Q3.
        -- right. now exists t3.
  - constructor; cbn; auto.
    + intros t' I. apply ti. eapply removeNth_In, I.
    + now apply removeNth_NoDup.
    + now apply removeNth_NoDup.
    + intros t' I. apply tb. eapply removeNth_In, I.
    + intros id' k' G'. destruct (pe _ _ G') as (U' & t2 & I2 & Q2 & R2).
      split; [exact U'|]. exists t2. split; [|now split].
      destruct (removeNth_other _ _ _ _ E I2) as [->|I]; [congruence | exact I].
    + intros t' I. apply te. eapply removeNth_In, I.
    + intros k' L. destruct (pc k' L) as [S|(t3 & I3 & Q3)]; [now left|].
      destruct (removeNth_other _ _ _ _ E I3) as [->|I].
      * left. destruct (te t It) as [G'|S]; [congruence | now rewrite <- Q3].
      * right. now exists t3.
Qed.

Lemma pendingMap_run events : forall s, Invariant s -> Invariant (run events s).
Proof.
  unfold run. induction events as [|e rest IH]; intros s H; cbn [fold_left]; [exact H|].
  apply IH. destruct e as [type now | response | j | c].
  - now apply pendingMap_send.
  - now apply pendingMap_message.
  - now apply pendingMap_timer.
  - now apply (invariant_same_requests s).
Qed.

End PendingMapProofs.

(** *** The message listeners of [StompClientEnhancedService] *)

Section PendingListenerProofs.

Import PendingListener PendingListenerInvariant.

Lemma filter_map_NoDup {A B} (f : A -> B) (g : A -> bool) (l : list A) :
  NoDup (map f l) -> NoDup (map f (filter g l)).
Proof.
  induction l as [|y l IH]; simpl; intros D; [exact D|].
  inversion D as [|? ? NI D']; subst.
  destruct (g y); simpl; [|now apply IH].
  constructor; [|now apply IH]. intros I. apply NI.
  apply in_map_iff in I as (x & E & I). apply filter_In in I as [I _].
  apply in_map_iff. now exists x.
Qed.

Lemma settled_hits (m : Envelope) (ls : list Listener) k :
  settled (map (fun l => (listenerPromise l, outcomeOf (envelopeError m) m))
             (filter (matches m) ls)) k
  <-> exists l, In l ls /\ matches m l = true /\ listenerPromise l = k.
Proof.
  unfold settled. rewrite map_map. cbn [fst]. rewrite in_map_iff. split.
  - intros (l & E & I). apply filter_In in I as [I M]. now exists l.
  - intros (l & I & M & E). exists l. split; [exact E | now apply filter_In].
Qed.

Lemma listener_initial b : Invariant (initial b).
Proof.
  constructor; cbn.
  - intros t [].
  - intros k [].
  - constructor.
  - intros l [].
  - intros k L. lia.
Qed.

Lemma listener_send type now random s :
  Invariant s -> Invariant (sendWorkerMessage type now random s).
Proof.
  intros [tb cb ld le pc]. unfold sendWorkerMessage.
  assert (~ settled (calls s) (promises s)) as U
    by (intros S; specialize (cb _ S); lia).
  assert (forall l, In l (listeners s) -> listenerPromise l < promises s) as lb.
  { intros l I. destruct (le l I) as (_ & t & It & Q). destruct (tb t It). lia. }
  destruct (portAvailable s); cbn [negb]; constructor; cbn.
  - intros t I. apply in_app_iff in I as [I|[<-|[]]]; cbn.
    + destruct (tb t I). split; [lia | assumption].
    + split; [lia | reflexivity].
  - intros k S. specialize (cb k S). lia.
  - rewrite map_app. apply NoDup_snoc; [exact ld|]. cbn.
    intros I. apply in_map_iff in I as (l & E & I). specialize (lb l I). lia.
  - intros l I. apply in_app_iff in I as [I|[<-|[]]]; cbn.
    + destruct (le l I) as (N & t & It & Q). split; [exact N|].
      exists t. split; [apply in_or_app; now left | exact Q].
    + split; [exact U|]. eexists. split; [apply in_or_app; right; now left | reflexivity].
  - intros k L. destruct (Nat.eq_dec k (promises s)) as [->|N].
    + right. eexists. split; [apply in_or_app; right; now left | reflexivity].
    + destruct (pc k ltac:(lia)) as [S|(t & I & Q)]; [now left | right].
      exists t. split; [apply in_or_app; now left | exact Q].
  - intros t I. destruct (tb t I). split; [lia | assumption].
  - intros k S. apply settled_app in S as [S|[<-|[]]]; [specialize (cb k S)|]; cbn; lia.
  - exact ld.
  - intros l I. destruct (le l I) as (N & T). split; [|exact T].
    intros S. apply settled_app in S as [S|[E|[]]]; [now apply N|].
    cbn in E. specialize (lb l I). lia.
  - intros k L. destruct (Nat.eq_dec k (promises s)) as [->|N].
    + left. apply settled_app. right. now left.
    + destruct (pc k ltac:(lia)) as [S|T]; [left | now right].
      apply settled_app. now left.
Qed.

Lemma listener_message m s : Invariant s -> Invariant (onMessage m s).
Proof.
  intros [tb cb ld le pc]. unfold onMessage. constructor; cbn.
  - exact tb.
  - intros k S. apply settled_app in S as [S|S]; [now apply cb|].
    apply settled_hits in S as (l & I & _ & <-).
    destruct (le l I) as (_ & t & It & <-). now destruct (tb t It).
  - now apply filter_map_NoDup.
  - intros l I. apply filter_In in I as [I M]. destruct (le l I) as (N & T).
    split; [|exact T]. intros S. apply settled_app in S as [S|S]; [now apply N|].
    apply settled_hits in S as (l' & I' & M' & E).
    assert (l' = l) as -> by (apply (NoDup_map_eq listenerPromise (listeners s)); auto).
    rewrite M' in M. discriminate.
  - intros k L. destruct (pc k L) as [S|T]; [left | now right].
    apply settled_app. now left.
Qed.

Lemma listener_timer j s : Invariant s -> Invariant (step (TimerFires j) s).
Proof.
  intros H. pose proof H as [tb cb ld le pc]. cbn [step].
  destruct (nth_error (timers s) j) as [t|] eqn:E; [|exact H].
  pose proof (nth_error_In _ _ E) as It.
  unfold onTimeout. constructor; cbn.
  - intros t' I. apply tb. eapply removeNth_In, I.
  - intros k S. apply settled_app in S as [S|[<-|[]]]; [now apply cb|].
    cbn. now destruct (tb t It).
  - now apply filter_map_NoDup.
  - intros l I. apply filter_In in I as [I M]. destruct (le l I) as (N & t' & I' & Q).
    apply negb_true_iff, Nat.eqb_neq in M. split.
    + intros S. apply settled_app in S as [S|[Q'|[]]]; [now apply N|]. cbn in Q'. congruence.
    + exists t'. split; [|exact Q].
      destruct (removeNth_other _ _ _ _ E I') as [->|I'']; [congruence | exact I''].
  - intros k L. destruct (pc k L) as [S|(t3 & I3 & Q3)].
    + left. apply settled_app. now left.
    + destruct (removeNth_other _ _ _ _ E I3) as [->|I].
      * left. apply settled_app. right. left. exact Q3.
      * right. now exists t3.
Qed.

Lemma listener_run events : forall s, Invariant s -> Invariant (run events s).
Proof.
  unfold run. induction events as [|e rest IH]; intros s H; cbn [fold_left]; [exact H|].
  apply IH. destruct e as [type now random | m | j].
  - now apply listener_send.
  - now apply listener_message.
  - now apply listener_timer.
Qed.

(** The log of settle calls only grows. *)
Lemma listener_calls_grow events : forall s,
  exists more, calls (run events s) = calls s ++ more.
Proof.
  unfold run. induction events as [|e rest IH]; intros s; cbn [fold_left].
  - exists []. now rewrite app_nil_r.
  - destruct (IH (step e s)) as [more E]. rewrite E.
    assert (exists one, calls (step e s) = calls s ++ one) as [one ->].
    { destruct e as [type now random | m | j]; cbn [step].
      - unfold sendWorkerMessage. destruct (portAvailable s); cbn;
          eexists; [symmetry; apply app_nil_r | reflexivity].
      - eexists. reflexivity.
      - destruct (nth_error (timers s) j); [eexists; reflexivity|].
        exists []. now rewrite app_nil_r. }
    exists (one ++ more). now rewrite app_assoc.
Qed.

End PendingListenerProofs.

Lemma promiseState_first {A} (calls more : Calls A) k o :
  ~ settled calls k ->
  promiseState more k = Some o ->
  promiseState (calls ++ more) k = Some o.
Proof.
  unfold settled. induction calls as [|[k' o'] calls IH]; simpl; intros N E; [exact E|].
  destruct (Nat.eqb_spec k k') as [->|_]; [elim N; now left|].
  apply IH; [|exact E]. intros I. apply N. now right.
Qed.

(** *** A pending request is settled once *)

Section Correlation.

Context {engine : Engine}.

Lemma pendingMap_late_response response s :
  JsMap.get (PendingMap.pendingMessages s) (PendingMap.id response) = None ->
  PendingMap.handleWorkerMessage response s = PendingMap.handleBroadcast response s.
Proof. unfold PendingMap.handleWorkerMessage. now intros ->. Qed.

Lemma pendingMap_reachable b events :
  PendingMapInvariant.Invariant (PendingMap.run events (PendingMap.initial b)).
Proof. apply pendingMap_run, pendingMap_initial. Qed.

Lemma listener_reachable b events :
  PendingListenerInvariant.Invariant
    (PendingListener.run events (PendingListener.initial b)).
Proof. apply listener_run, listener_initial. Qed.

Lemma settled_dec {A} (calls : Calls A) k : {settled calls k} + {~ settled calls k}.
Proof. apply in_dec, Nat.eq_dec. Qed.

(** C8. Whatever requests, worker messages and timeouts a service has seen:
    - [StompClientService] (the [pendingMessages] map): [resolve] or [reject]
      of a request's promise is called at most once, and exactly once when
      its timer (of 10000 ms) has fired; a request is in the map exactly
      while its promise is pending; a matching response settles the promise
      with the response and removes the entry; the timeout of a pending
      request rejects it with the timeout error and removes the entry; a
      response whose id is not pending settles no promise and leaves the
      map and the timers as they are: it is handled as a broadcast of its
      type.
    - [StompClientEnhancedService] (one listener per request): a settled
      promise keeps its outcome through all later events; a promise is
      settled when its timer (of 10000 ms) has fired; a listener is
      registered only while its promise is pending; a matching response or
      the timeout settles a pending promise and removes its listener; a
      message that finds no listener of a promise calls neither its
      [resolve] nor its [reject]. *)
Theorem pending_request_settled_once :
  (forall (portAvailable : bool) (events : list PendingMap.Event),
     let s := PendingMap.run events (PendingMap.initial portAvailable) in
     (forall k, settleCount (PendingMap.calls s) k <= 1)
     /\ (forall k, k < PendingMap.promises s ->
           (forall t, In t (PendingMap.timers s) -> PendingMap.timerPromise t <> k) ->
           settleCount (PendingMap.calls s) k = 1)
     /\ (forall id k, JsMap.get (PendingMap.pendingMessages s) id = Some k ->
           promiseState (PendingMap.calls s) k = None
           /\ exists t, In t (PendingMap.timers s)
                        /\ PendingMap.timerId t = id
                        /\ PendingMap.timerPromise t = k
                        /\ PendingMap.timerDelay t = 10000%Z)
     /\ (forall k, k < PendingMap.promises s ->
           promiseState (PendingMap.calls s) k = None ->
           exists id, JsMap.get (PendingMap.pendingMessages s) id = Some k)
     /\ (forall response k,
           JsMap.get (PendingMap.pendingMessages s) (PendingMap.id response) = Some k ->
           promiseState (PendingMap.calls (PendingMap.handleWorkerMessage response s)) k
           = Some (outcomeOf (PendingMap.error response) (PendingMap.payload response))
           /\ JsMap.get (PendingMap.pendingMessages
                           (PendingMap.handleWorkerMessage response s))
                (PendingMap.id response) = None)
     /\ (forall j t, nth_error (PendingMap.timers s) j = Some t ->
           promiseState (PendingMap.calls s) (PendingMap.timerPromise t) = None ->
           promiseState (PendingMap.calls (PendingMap.step (PendingMap.TimerFires j) s))
             (PendingMap.timerPromise t)
           = Some (Rejected (timeoutMessage (PendingMap.timerType t)))
           /\ JsMap.get (PendingMap.pendingMessages
                           (PendingMap.step (PendingMap.TimerFires j) s))
                (PendingMap.timerId t) = None)
     /\ (forall response,
           JsMap.get (PendingMap.pendingMessages s) (PendingMap.id response) = None ->
           PendingMap.handleWorkerMessage response s
           = PendingMap.handleBroadcast response s
           /\ PendingMap.calls (PendingMap.handleWorkerMessage response s)
              = PendingMap.calls s
           /\ PendingMap.pendingMessages (PendingMap.handleWorkerMessage response s)
              = PendingMap.pendingMessages s
           /\ PendingMap.timers (PendingMap.handleWorkerMessage response s)
              = PendingMap.timers s))
  /\ (forall (portAvailable : bool) (events : list PendingListener.Event),
        let s := PendingListener.run events (PendingListener.initial portAvailable) in
        (forall k o more, promiseState (PendingListener.calls s) k = Some o ->
           promiseState (PendingListener.calls (PendingListener.run more s)) k = Some o)
        /\ (forall k, k < PendingListener.promises s ->
              (forall t, In t (PendingListener.timers s) ->
                         PendingListener.timerPromise t <> k) ->
              promiseState (PendingListener.calls s) k <> None)
        /\ (forall l, In l (PendingListener.listeners s) ->
              promiseState (PendingListener.calls s) (PendingListener.listenerPromise l)
              = None
              /\ exists t, In t (PendingListener.timers s)
                           /\ PendingListener.timerPromise t
                              = PendingListener.listenerPromise l
                           /\ PendingListener.timerDelay t = 10000%Z)
        /\ (forall m l, In l (PendingListener.listeners s) ->
              PendingListener.matches m l = true ->
              promiseState (PendingListener.calls (PendingListener.onMessage m s))
                (PendingListener.listenerPromise l)
              = Some (outcomeOf (envelopeError m) m)
              /\ forall l', In l' (PendingListener.listeners (PendingListener.onMessage m s)) ->
                   PendingListener.listenerPromise l' <> PendingListener.listenerPromise l)
        /\ (forall j t, nth_error (PendingListener.timers s) j = Some t ->
              promiseState (PendingListener.calls s) (PendingListener.timerPromise t) = None ->
              promiseState
                (PendingListener.calls (PendingListener.step (PendingListener.TimerFires j) s))
                (PendingListener.timerPromise t)
              = Some (Rejected (timeoutMessage (PendingListener.timerType t)))
              /\ forall l', In l' (PendingListener.listeners
                                     (PendingListener.step (PendingListener.TimerFires j) s)) ->
                   PendingListener.listenerPromise l' <> PendingListener.timerPromise t)
        /\ (forall m k,
              (forall l, In l (PendingListener.listeners s) ->
                         PendingListener.listenerPromise l <> k) ->
              settleCount (PendingListener.calls (PendingListener.onMessage m s)) k
              = settleCount (PendingListener.calls s) k)).
Proof.
  split.
  - intros b events s.
    pose proof (pendingMap_reachable b events) as H. fold s in H.
    pose proof H as [cp ti tid tpd tb cb co kd pe te pc].
    repeat match goal with |- _ /\ _ => split end.
    + intros k. destruct (settled_dec (PendingMap.calls s) k) as [S|N].
      * rewrite (settleCount_once _ _ co S). lia.
      * rewrite (settleCount_unsettled _ _ N). lia.
    + intros k L T. apply settleCount_once; [exact co|].
      destruct (pc k L) as [S|(t & I & Q)]; [exact S | elim (T t I Q)].
    + intros id k G. destruct (pe id k G) as (N & t & I & Q & R).
      split; [now apply promiseState_None|]. exists t. destruct (tb t I). auto.
    + intros k L N. apply promiseState_None in N.
      destruct (pc k L) as [S|(t & I & Q)]; [contradiction|].
      exists (PendingMap.timerId t). destruct (te t I) as [G|S]; congruence.
    + intros response k G. unfold PendingMap.handleWorkerMessage. rewrite G. cbn. split.
      * apply promiseState_first; [apply (pe _ _ G)|]. cbn. now rewrite Nat.eqb_refl.
      * now apply get_delete_same.
    + intros j t E N. apply promiseState_None in N.
      pose proof (nth_error_In _ _ E) as I.
      destruct (te t I) as [G|S]; [|contradiction].
      cbn [PendingMap.step]. rewrite E. unfold PendingMap.onTimeout, JsMap.has.
      cbn [PendingMap.pendingMessages PendingMap.withTimers]. rewrite G. cbn. split.
      * apply promiseState_first; [exact N|]. cbn. now rewrite Nat.eqb_refl.
      * now apply get_delete_same.
    + intros response G. rewrite (pendingMap_late_response _ _ G).
      destruct (handleBroadcast_requests response s)
        as (_ & _ & E2 & _ & E4 & E5 & _).
      auto.
  - intros b events s.
    pose proof (listener_reachable b events) as H. fold s in H.
    pose proof H as [tb cb ld le pc].
    repeat match goal with |- _ /\ _ => split end.
    + intros k o more E. destruct (listener_calls_grow more s) as [extra ->].
      now apply promiseState_app.
    + intros k L T N. apply promiseState_None in N.
      destruct (pc k L) as [S|(t & I & Q)]; [contradiction | elim (T t I Q)].
    + intros l I. destruct (le l I) as (N & t & It & Q).
      split; [now apply promiseState_None|]. exists t. destruct (tb t It). auto.
    + intros m l I M. unfold PendingListener.onMessage. cbn. split.
      * apply promiseState_first; [apply (le l I)|].
        assert (In l (filter (PendingListener.matches m) (PendingListener.listeners s)))
          as F by now apply filter_In.
        clear - F. induction (filter _ _) as [|l0 rest IH]; [contradiction|].
        cbn. destruct (Nat.eqb_spec (PendingListener.listenerPromise l)
                                    (PendingListener.listenerPromise l0)); [reflexivity|].
        destruct F as [->|F]; [congruence | now apply IH].
      * intros l' F Q. apply filter_In in F as [I' M'].
        assert (l' = l) as ->
          by (apply (NoDup_map_eq PendingListener.listenerPromise
                       (PendingListener.listeners s)); auto).
        rewrite M in M'. discriminate.
    + intros j t E N. apply promiseState_None in N.
      cbn [PendingListener.step]. rewrite E. unfold PendingListener.onTimeout. cbn. split.
      * apply promiseState_first; [exact N|]. cbn. now rewrite Nat.eqb_refl.
      * intros l' F. apply filter_In in F as [_ M].
        now apply negb_true_iff, Nat.eqb_neq in M.
    + intros m k N. unfold PendingListener.onMessage. cbn [PendingListener.calls].
      rewrite settleCount_app. rewrite (settleCount_unsettled (map _ _)); [lia|].
      intros S. apply settled_hits in S as (l & I & _ & Q). exact (N l I Q).
Qed.

End Correlation.

Section Sample_late_response.

#[local] Existing Instance ownProperties.

(** C8, the late response is not ignored. A [connect] request of
    [StompClientService] times out: its promise is rejected and its entry
    removed, and the client state says [connected: false]. The worker's
    answer with the request's id arrives afterwards: the promise keeps its
    rejection, and the client state now says [connected: true]. *)
Lemma late_response_sets_client_state :
  promiseState
    (PendingMap.calls (PendingMap.run (firstn 2 scenarioFour) (PendingMap.initial true))) 0
  = Some (Rejected "Message timeout: connect")
  /\ JsMap.get
       (PendingMap.pendingMessages
          (PendingMap.run (firstn 2 scenarioFour) (PendingMap.initial true)))
       (PendingMap.id lateResponse) = None
  /\ PendingMap.connected
       (PendingMap.clientState
          (PendingMap.run (firstn 2 scenarioFour) (PendingMap.initial true)))
     = PendingMap.HValue (JBool false)
  /\ PendingMap.connected
       (PendingMap.clientState
          (PendingMap.handleWorkerMessage lateResponse
             (PendingMap.run (firstn 2 scenarioFour) (PendingMap.initial true))))
     = PendingMap.HValue (JBool true)
  /\ promiseState
       (PendingMap.calls
          (PendingMap.handleWorkerMessage lateResponse
             (PendingMap.run (firstn 2 scenarioFour) (PendingMap.initial true)))) 0
     = Some (Rejected "Message timeout: connect").
Proof. repeat split; vm_compute; reflexivity. Qed.

End Sample_late_response.

(** ** The end-to-end scenarios of the specification, evaluated *)

Section Sample_scenario_one_events.

#[local] Existing Instance ownProperties.

(** Scenario 1: two [data] events in the snapshot phase, then one
    [snapshot-complete] with [rowCount = 2]; the snapshot holds two
    records. *)
Example scenario_one_events :
  postedTo "port-1-1" (snd (run JsonText.parse scenarioOne (initialWorker true)))
  = [Response "c1" Success;
     Connected "P" "stomp-10-aaaa";
     Data "P" [recordValue "1" "10"] true;
     Data "P" [recordValue "2" "20"] true;
     SnapshotComplete "P" 2 10]
  /\ handleGetSnapshot "P" (fst (run JsonText.parse scenarioOne (initialWorker true)))
     = [recordValue "1" "10"; recordValue "2" "20"].
Proof. split; reflexivity. Qed.

End Sample_scenario_one_events.

Section Sample_scenario_two_events.

#[local] Existing Instance ownProperties.

(** Scenario 2: one more [data] event, in real time; the cache is updated in
    place and still holds two records. *)
Example scenario_two_events :
  postedTo "port-1-1"
    (snd (step JsonText.parse
            (Transport 0 (sampleClient scenarioConfig) (OnMessage (record "1" "99")) 40)
            (fst (run JsonText.parse scenarioOne (initialWorker true)))))
  = [Data "P" [recordValue "1" "99"] false]
  /\ handleGetSnapshot "P" (fst (run JsonText.parse scenarioTwo (initialWorker true)))
     = [recordValue "1" "99"; recordValue "2" "20"].
Proof. split; reflexivity. Qed.

End Sample_scenario_two_events.

Section Sample_scenario_four_timeout.

#[local] Existing Instance ownProperties.

(** Scenario 4 on [StompClientService]: the promise is rejected by the
    timeout, once; the entry is gone, and the late response settles
    nothing. *)
Example scenario_four_timeout :
  PendingMap.calls (PendingMap.run scenarioFour (PendingMap.initial true))
  = [(0, Rejected "Message timeout: connect")]
  /\ PendingMap.pendingMessages (PendingMap.run scenarioFour (PendingMap.initial true))
     = JsMap.empty
  /\ PendingMap.timers (PendingMap.run scenarioFour (PendingMap.initial true))
     = [].
Proof. repeat split; reflexivity. Qed.

End Sample_scenario_four_timeout.

Section Sample_cache_across_reconnect.

#[local] Existing Instance ownProperties.

(** After a transport disconnect the two records of scenario 1 are still
    what [get-snapshot] returns; the next transport connect empties the
    cache. *)
Example cache_across_reconnect :
  handleGetSnapshot "P"
    (fst (run JsonText.parse (scenarioOne ++ [transportDrops]) (initialWorker true)))
  = [recordValue "1" "10"; recordValue "2" "20"]
  /\ handleGetSnapshot "P"
       (fst (run JsonText.parse (scenarioOne ++ [transportDrops; transportReconnects])
               (initialWorker true)))
     = [].
Proof. split; reflexivity. Qed.

End Sample_cache_across_reconnect.

(** On [StompClientEnhancedService] the timer is not cancelled by the
    response: [reject] is called after [resolve], and the promise stays
    resolved; the repeated response finds no listener. *)
Example scenario_four_answered :
  PendingListener.calls
    (PendingListener.run answeredThenTimedOut (PendingListener.initial true))
  = [(0, Resolved (Response "msg-0-abc1234" (SnapshotData [])));
     (0, Rejected "Message timeout: get-snapshot")]
  /\ promiseState
       (PendingListener.calls
          (PendingListener.run answeredThenTimedOut (PendingListener.initial true))) 0
     = Some (Resolved (Response "msg-0-abc1234" (SnapshotData [])))
  /\ PendingListener.listeners
       (PendingListener.run answeredThenTimedOut (PendingListener.initial true))
     = [].
Proof. repeat split; reflexivity. Qed.

(** * Further properties of the provider connection *)

Section DestinationFacts.



End DestinationFacts.

Section EndTokenFacts.

Lemma isWhiteSpace_lower (c : ascii) : isWhiteSpace (toLowerCaseUnit c) = isWhiteSpace c.
Proof. destruct c as [[] [] [] [] [] [] [] []]; reflexivity. Qed.

Lemma trimStart_lower (s : string) : trimStart (toLowerCase s) = toLowerCase (trimStart s).
Proof.
  induction s as [|c s IH]; simpl; [reflexivity|].
  rewrite isWhiteSpace_lower. destruct (isWhiteSpace c); [exact IH | reflexivity].
Qed.

Lemma trimEnd_lower (s : string) : trimEnd (toLowerCase s) = toLowerCase (trimEnd s).
Proof.
  induction s as [|c s IH]; [reflexivity|].
  cbn [toLowerCase]. rewrite !trimEnd_cons, IH, isWhiteSpace_lower.
  destruct (trimEnd s); cbn [toLowerCase]; [destruct (isWhiteSpace c)|]; reflexivity.
Qed.

Lemma trim_lower (s : string) : trim (toLowerCase s) = toLowerCase (trim s).
Proof. unfold trim. now rewrite trimStart_lower, trimEnd_lower. Qed.

Lemma truthy_lower (s : string) : truthy (toLowerCase s) = truthy s.
Proof. destruct s; reflexivity. Qed.

(** X2. The end-token test looks at neither the letter case nor the surrounding
    white space of the body, nor at the letter case of the configured
    token. *)
Theorem isEndToken_ignores_case_and_padding (config : Config) (body : string) :
  isEndToken config (toLowerCase body) = isEndToken config body
  /\ isEndToken config (trim body) = isEndToken config body
  /\ (forall config' T T',
        snapshotEndToken config = Some T ->
        snapshotEndToken config' = Some T' ->
        toLowerCase T = toLowerCase T' ->
        isEndToken config' body = isEndToken config body).
Proof.
  split; [|split].
  - unfold isEndToken. now rewrite trim_lower, toLowerCase_idem.
  - apply isEndToken_trim.
  - intros config' T T' E E' L. unfold isEndToken. rewrite E, E'.
    rewrite <- (truthy_lower T), <- (truthy_lower T'), L. reflexivity.
Qed.

End EndTokenFacts.

Section FrameFacts.

Variable JSON_parse : string -> option JsValue.
Context {engine : Engine}.




Lemma broadcast_subscribers p q m :
  subscribers p = subscribers q -> broadcast p m = broadcast q m.
Proof. unfold broadcast. now intros ->. Qed.

(** [handleMessage] on a frame that carries data. *)
Lemma handleMessage_data body now p data :
  negb (isSnapshotComplete p) && isEndToken (config p) body = false ->
  JSON_parse (trim body) = Some data ->
  handleMessage JSON_parse body now p =
  let n := Z.of_nat (List.length (asArray data)) in
  let counted :=
    withStatistics (if isSnapshotComplete p then addUpdateRows n else addSnapshotRows n)
      (withStatistics (addBytes (Z.of_nat (String.length (trim body)))) p) in
  match applyUpdatesToSnapshot (asArray data) now counted with
  | (p3, None) =>
      (p3, broadcast p (Data (providerId p) (asArray data) (negb (isSnapshotComplete p))))
  | (p3, Some error) => (p3, broadcast p (ErrorEvent (providerId p) error))
  end.
Proof.
  intros G E. unfold handleMessage, classifyFrame. cbn.
  rewrite isEndToken_trim, G, E. cbn zeta.
  destruct (isSnapshotComplete p) eqn:C;
    match goal with
    | |- context [applyUpdatesToSnapshot ?u ?n ?q] =>
        pose proof (applyUpdatesToSnapshot_fields u n q) as F;
        destruct (applyUpdatesToSnapshot u n q) as [p3 [err|]]
    end; cbn [fst] in F; destruct F as (_ & Fc & _ & Fs & Fp);
    rewrite Fp, ?Fc; cbn; rewrite ?C; f_equal; apply broadcast_subscribers; exact Fs.
Qed.

(** What no frame changes. *)
Lemma handleMessage_frame body now p :
  let q := fst (handleMessage JSON_parse body now p) in
  config q = config p /\ subscribers q = subscribers p /\ providerId q = providerId p
  /\ snapshotStartTime q = snapshotStartTime p /\ connection q = connection p
  /\ subscription q = subscription p /\ isConnecting q = isConnecting p
  /\ isConnected (statistics q) = isConnected (statistics p).
Proof.
  unfold handleMessage.
  destruct (classifyFrame JSON_parse _ (trim body)) as [|positions|];
    try (cbn; now repeat split).
  unfold applyUpdatesToSnapshot.
  match goal with
  | |- context [applyUpdates ?k ?u ?c] => destruct (applyUpdates k u c) as [cache []]
  end; cbn; destruct (isSnapshotComplete p); cbn; now repeat split.
Qed.






End FrameFacts.

Section Sample_cache_holds_latest_record_witness.

#[local] Existing Instance ownProperties.


End Sample_cache_holds_latest_record_witness.

Section Sample_null_record_aborts_batch_witness.

#[local] Existing Instance ownProperties.


End Sample_null_record_aborts_batch_witness.



Section FrameRunFacts.

Variable JSON_parse : string -> option JsValue.
Context {engine : Engine}.


Lemma broadcast_filter p m (f : Effect -> bool) :
  (forall port, f (PostMessage port m) = false) -> filter f (broadcast p m) = [].
Proof.
  intros H. unfold broadcast. induction (subscribers p) as [|[k port] rest IH]; simpl;
    [reflexivity|]. now rewrite H.
Qed.


(** A frame that is no end token, while the snapshot is incomplete or after:
    the phase stays, the rows are counted, and no [snapshot-complete] is
    posted. *)
Lemma handleMessage_no_end body now p :
  negb (isSnapshotComplete p) && isEndToken (config p) body = false ->
  let r := handleMessage JSON_parse body now p in
  isSnapshotComplete (fst r) = isSnapshotComplete p
  /\ filter isSnapshotCompleteMessage (snd r) = []
  /\ (isSnapshotComplete p = false ->
      snapshotRowsReceived (statistics (fst r))
      = (snapshotRowsReceived (statistics p) + recordsIn JSON_parse body)%Z).
Proof.
  intros G. unfold recordsIn.
  destruct (JSON_parse (trim body)) as [data|] eqn:E.
  - cbn zeta. rewrite (handleMessage_data JSON_parse body now p data G E). cbn zeta.
    match goal with
    | |- context [applyUpdatesToSnapshot ?u ?n ?q] =>
        pose proof (applyUpdatesToSnapshot_fields u n q) as F;
        destruct (applyUpdatesToSnapshot u n q) as [p3 [err|]]
    end; cbn [fst snd] in *; destruct F as (_ & -> & -> & _); cbn;
      (split; [reflexivity | split; [now apply broadcast_filter|]]);
      intros ->; reflexivity.
  - cbn zeta. rewrite (handleMessage_ignored JSON_parse body now p G E). cbn.
    repeat split. intros _. now rewrite Z.add_0_r.
Qed.

Lemma handleMessages_snapshot frames : forall p,
  isSnapshotComplete p = false ->
  (forall frame, In frame frames -> isEndToken (config p) (fst frame) = false) ->
  let q := fst (handleMessages JSON_parse frames p) in
  isSnapshotComplete q = false /\ config q = config p
  /\ subscribers q = subscribers p /\ providerId q = providerId p
  /\ snapshotStartTime q = snapshotStartTime p
  /\ snapshotRowsReceived (statistics q)
     = (snapshotRowsReceived (statistics p) + sumRecords JSON_parse frames)%Z
  /\ filter isSnapshotCompleteMessage (snd (handleMessages JSON_parse frames p)) = [].
Proof.
  induction frames as [|[body now] rest IH]; intros p C N; cbn [handleMessages sumRecords fold_right].
  - cbn. repeat split; [exact C | lia].
  - assert (negb (isSnapshotComplete p) && isEndToken (config p) body = false) as G.
    { pose proof (N (body, now) (or_introl eq_refl)) as H. cbn [fst] in H.
      rewrite H. apply andb_false_r. }
    destruct (handleMessage_no_end body now p G) as (C1 & F1 & R1).
    destruct (handleMessage_frame JSON_parse body now p) as (K1 & S1 & P1 & T1 & _).
    destruct (handleMessage JSON_parse body now p) as [p1 out1]. cbn [fst snd] in *.
    rewrite C in C1. specialize (R1 C).
    destruct (IH p1 C1) as (C2 & K2 & S2 & P2 & T2 & R2 & F2).
    { intros frame I. rewrite K1. apply N. now right. }
    destruct (handleMessages JSON_parse rest p1) as [p2 out2]. cbn [fst snd] in *.
    rewrite filter_app, F1, F2.
    repeat split; try congruence. unfold sumRecords in *. rewrite R2, R1. lia.
Qed.

(** X5. The [snapshot-complete] broadcast reports the rows counted since the
    snapshot began: the records of all data frames that came before the end
    token. *)
Theorem snapshot_complete_reports_rows before body now p :
  isSnapshotComplete p = false ->
  (forall frame, In frame before -> isEndToken (config p) (fst frame) = false) ->
  isEndToken (config p) body = true ->
  snd (handleMessage JSON_parse body now (fst (handleMessages JSON_parse before p)))
  = broadcast p (SnapshotComplete (providerId p)
                   (snapshotRowsReceived (statistics p) + sumRecords JSON_parse before)
                   (now - snapshotStartTime p)%Z).
Proof.
  intros C N E.
  destruct (handleMessages_snapshot before p C N) as (C' & K & S & P & T & R & _).
  rewrite handleMessage_end; [|exact C' | now rewrite K]. cbn [snd].
  rewrite P, T, R. now apply broadcast_subscribers.
Qed.



End FrameRunFacts.

Section Sample_snapshot_complete_reports_rows_witness.

#[local] Existing Instance ownProperties.

Lemma snapshot_complete_reports_rows_witness :
  snd (handleMessage JsonText.parse "Success: All 3 records delivered" 130
         (fst (handleMessages JsonText.parse
                 [(twoRecords, 110%Z); ("not json", 115%Z); (record "3" "30", 120%Z)]
                 (snapshotPhase scenarioConfig))))
  = [PostMessage (MessagePort "port-1-1") (SnapshotComplete "P" 3 30)].
Proof.
  refine (snapshot_complete_reports_rows JsonText.parse
            [(twoRecords, 110%Z); ("not json", 115%Z); (record "3" "30", 120%Z)]
            "Success: All 3 records delivered" 130%Z (snapshotPhase scenarioConfig)
            eq_refl _ eq_refl).
  intros frame [<-|[<-|[<-|[]]]]; reflexivity.
Defined.

End Sample_snapshot_complete_reports_rows_witness.

Section ConnectionFacts.

(** [disconnect] twice is [disconnect] once: the second call changes nothing
    and touches neither the subscription nor the client. *)
Lemma disconnect_is_idempotent (p : ProviderConnection) :
  disconnect (fst (disconnect p)) = (fst (disconnect p), []).
Proof. reflexivity. Qed.

(** X7. After [disconnect], [connect] is never the no-op: whatever phase the
    provider was in, it creates a new client for the configured URL and
    topics and activates it (or fails and stays idle when the STOMP library is
    missing); the cache and the subscribers are kept. *)
Theorem connect_after_disconnect (stompLoaded : bool) (freshClientId : string)
  (p : ProviderConnection) :
  let client :=
    {| brokerURL := websocketUrl (config p); clientId := freshClientId;
       listenerTopic := buildListenerTopic (config p) freshClientId;
       triggerDestination := buildTriggerDestination (config p) freshClientId |} in
  let r := connect stompLoaded freshClientId (fst (disconnect p)) in
  snapshot (fst (fst r)) = snapshot p
  /\ subscribers (fst (fst r)) = subscribers p
  /\ isConnected (statistics (fst (fst r))) = false
  /\ mode (statistics (fst (fst r))) = Idle
  /\ (if stompLoaded
      then snd (fst r) = [Activate client]
           /\ connection (fst (fst r)) = Some client
           /\ isConnecting (fst (fst r)) = true /\ snd r = None
      else snd (fst r) = []
           /\ connection (fst (fst r)) = None
           /\ isConnecting (fst (fst r)) = false /\ snd r <> None).
Proof.
  unfold connect, disconnect. cbn. destruct stompLoaded; cbn; repeat split; discriminate.
Qed.

End ConnectionFacts.

(** * Further properties of the worker *)

Section ProviderIdentity.

Variable JSON_parse : string -> option JsValue.
Context {engine : Engine}.

Lemma connect_providerId sl cid p :
  providerId (fst (fst (connect sl cid p))) = providerId p.
Proof.
  unfold connect. destruct (isConnecting p || isConnected (statistics p)); [reflexivity|].
  destruct sl; reflexivity.
Qed.

Lemma callback_providerId c cb now p :
  providerId (fst (callback JSON_parse c cb now p)) = providerId p.
Proof.
  destruct cb; cbn [callback]; try reflexivity.
  - unfold onConnect. cbn. destruct (connection p); reflexivity.
  - apply handleMessage_frame.
Qed.

Lemma method_providerId ok p q :
  Method JSON_parse ok p q -> providerId q = providerId p.
Proof.
  intros [p0 portId port | sl cid p0 | p0 | c cb now p0 _].
  - reflexivity.
  - apply connect_providerId.
  - reflexivity.
  - apply callback_providerId.
Qed.

Lemma methods_identity ok p q :
  Methods JSON_parse ok p q -> providerId q = providerId p /\ config q = config p.
Proof.
  intros M. induction M as [|p q r _ [IH1 IH2] S]; [now split|].
  rewrite (method_providerId _ _ _ S), (method_config _ _ _ _ S). now split.
Qed.

End ProviderIdentity.

Section Soundness.

Variable JSON_parse : string -> option JsValue.
Context {engine : Engine}.

Lemma length_replaceNth {A} (l : list A) i x :
  List.length (replaceNth i x l) = List.length l.
Proof. revert i; induction l as [|y l IH]; intros [|i]; simpl; auto. Qed.

Lemma length_removeNth_le {A} (l : list A) k :
  List.length (removeNth k l) <= List.length l.
Proof. revert k; induction l as [|y l IH]; intros [|k]; simpl; auto. specialize (IH k). lia. Qed.

Lemma sound_store w ref p x :
  WorkerSound w -> nth_error (objects w) ref = Some p -> providerId x = providerId p ->
  WorkerSound (store ref x w).
Proof.
  intros [rd rv tv] E Q. constructor; cbn.
  - exact rd.
  - intros name r G. destruct (rv name r G) as (q & Eq & Pq).
    destruct (Nat.eq_dec ref r) as [->|N].
    + exists x. split; [apply nth_error_replaceNth_same; eapply nth_error_length, E|].
      congruence.
    + exists q. split; [now rewrite nth_error_replaceNth_other | exact Pq].
  - intros t I. rewrite length_replaceNth. now apply tv.
Qed.

Lemma sound_delete w name :
  WorkerSound w -> WorkerSound (withProviders (JsMap.delete (providers w) name) w).
Proof.
  intros [rd rv tv]. constructor; cbn.
  - now apply keys_delete_NoDup.
  - intros name' r G. destruct (string_dec name name') as [<-|N].
    + rewrite get_delete_same in G by exact rd. discriminate.
    + rewrite (get_delete_other _ _ _ N) in G. now apply rv.
  - exact tv.
Qed.

Lemma sound_new w name config now :
  WorkerSound w ->
  WorkerSound
    (withProviders (JsMap.set (providers w) name (List.length (objects w)))
       (withObjects (objects w ++ [newProviderConnection name config now]) w)).
Proof.
  intros [rd rv tv]. constructor; cbn.
  - now apply keys_set_NoDup.
  - intros name' r G. destruct (string_dec name name') as [<-|N].
    + rewrite get_set_same in G. injection G as <-.
      exists (newProviderConnection name config now).
      rewrite nth_error_app2, Nat.sub_diag by lia. now split.
    + rewrite (get_set_other _ _ _ _ N) in G. destruct (rv _ _ G) as (q & E & Q).
      exists q. split; [|exact Q].
      rewrite nth_error_app1; [exact E | eapply nth_error_length, E].
  - intros t I. rewrite length_app. specialize (tv t I). cbn. lia.
Qed.

Lemma sound_timers w ts :
  WorkerSound w ->
  (forall t, In t ts -> timerProvider t < List.length (objects w)) ->
  WorkerSound (withTimers ts w).
Proof. intros [rd rv tv] H. constructor; cbn; auto. Qed.

Lemma sound_initial b : WorkerSound (initialWorker b).
Proof.
  constructor; cbn.
  - constructor.
  - discriminate.
  - intros t [].
Qed.

Lemma handleConnect_sound now cid portId port pid cfg id w :
  WorkerSound w ->
  WorkerSound (fst (fst (handleConnect now cid portId port pid cfg id w))).
Proof.
  intros H. unfold handleConnect.
  assert (forall w1 ref, WorkerSound w1 ->
            WorkerSound
              (fst (fst
                 match nth_error (objects w1) ref with
                 | None => (w1, [], None)
                 | Some provider0 =>
                     let provider :=
                       withSubscribers (JsMap.set (subscribers provider0) portId port)
                         provider0 in
                     let respond := [PostMessage port (Response id Success)] in
                     if negb (isConnected (statistics provider)) && negb (isConnecting provider)
                     then
                       match connect (stompLoaded w1) cid provider with
                       | (provider', es, Some error) => (store ref provider' w1, es, Some error)
                       | (provider', es, None) => (store ref provider' w1, es ++ respond, None)
                       end
                     else if isConnected (statistics provider)
                     then
                       (store ref provider w1,
                        [PostMessage port (Connected pid pid)]
                        ++ (if Nat.ltb 0 (JsMap.size (snapshot provider))
                            then [PostMessage port (Data pid (getSnapshot provider) false)]
                            else [])
                        ++ respond, None)
                     else (store ref provider w1, respond, None)
                 end))) as K.
  { intros w1 ref H1. destruct (nth_error (objects w1) ref) as [p0|] eqn:E; [|exact H1].
    cbn zeta. set (provider := withSubscribers _ p0).
    destruct (negb (isConnected (statistics provider)) && negb (isConnecting provider)).
    - pose proof (connect_providerId (stompLoaded w1) cid provider) as Q.
      destruct (connect (stompLoaded w1) cid provider) as [[p' es] [err|]];
        cbn [fst] in *; now apply (sound_store w1 ref p0).
    - destruct (isConnected (statistics provider)); cbn [fst];
        now apply (sound_store w1 ref p0). }
  destruct (JsMap.get (providers w) pid) as [r|]; [now apply K|].
  apply K. now apply sound_new.
Qed.

Lemma handleDisconnect_sound pid w :
  WorkerSound w -> WorkerSound (fst (handleDisconnect pid w)).
Proof.
  intros H. unfold handleDisconnect.
  destruct (lookupProvider w pid) as [[r p]|] eqn:L; [|exact H].
  apply lookupProvider_object in L as [_ E].
  destruct (disconnect p) as [p' es] eqn:D. cbn [fst].
  assert (providerId p' = providerId p) as Q
    by (replace p' with (fst (disconnect p)) by (now rewrite D); reflexivity).
  apply (sound_delete (store r p' w)). now apply (sound_store w r p).
Qed.

Lemma handleRefresh_sound port pid id w :
  WorkerSound w -> WorkerSound (fst (fst (handleRefresh port pid id w))).
Proof.
  intros H. unfold handleRefresh.
  destruct (lookupProvider w pid) as [[r p]|] eqn:L; [|exact H].
  apply lookupProvider_object in L as [_ E].
  destruct (disconnect p) as [p' es] eqn:D. cbn [fst].
  assert (providerId p' = providerId p) as Q
    by (replace p' with (fst (disconnect p)) by (now rewrite D); reflexivity).
  pose proof (sound_store w r p p' H E Q) as H1.
  apply sound_timers; [exact H1|]. cbn [timers store withObjects].
  intros t I. apply in_app_iff in I as [I|[<-|[]]].
  - now apply H1.
  - cbn. rewrite length_replaceNth. eapply nth_error_length, E.
Qed.

(** The registry, the objects and the timers fit together after every
    step. *)
Lemma step_sound e w : WorkerSound w -> WorkerSound (fst (step JSON_parse e w)).
Proof.
  intros H. destruct e as [now | portId id request now cid | r c cb now | k cid]; cbn [step].
  - destruct H as [rd rv tv]. constructor; cbn; auto.
  - destruct (JsMap.get (ports w) portId) as [port|]; [|exact H].
    destruct request as [pid cfg | pid | pid | pid | pid | type]; cbn [handlePortMessage];
      try exact H.
    + pose proof (handleConnect_sound now cid portId port pid cfg id w H) as K.
      destruct (handleConnect now cid portId port pid cfg id w) as [[w' es] [err|]]; exact K.
    + pose proof (handleDisconnect_sound pid w H) as K.
      destruct (handleDisconnect pid w) as [w' es]. exact K.
    + pose proof (handleRefresh_sound port pid id w H) as K.
      destruct (handleRefresh port pid id w) as [[w' es] [err|]]; exact K.
  - destruct (nth_error (objects w) r) as [p|] eqn:E; [|exact H].
    pose proof (callback_providerId JSON_parse c cb now p) as Q.
    destruct (callback JSON_parse c cb now p) as [p' es]. cbn [fst] in *.
    now apply (sound_store w r p).
  - destruct (nth_error (timers w) k) as [t|] eqn:E; [|exact H].
    assert (WorkerSound (withTimers (removeNth k (timers w)) w)) as H1.
    { apply sound_timers; [exact H|]. intros t' I. apply H. eapply removeNth_In, I. }
    unfold resumeRefresh. cbn [objects withTimers stompLoaded].
    destruct (nth_error (objects w) (timerProvider t)) as [p|] eqn:Ep; [|exact H1].
    pose proof (connect_providerId (stompLoaded w) cid p) as Q.
    destruct (connect (stompLoaded w) cid p) as [[p' es] [err|]]; cbn [fst] in *;
      now apply (sound_store _ (timerProvider t) p).
Qed.

Lemma run_sound events : forall w,
  WorkerSound w -> WorkerSound (fst (run JSON_parse events w)).
Proof.
  induction events as [|e rest IH]; intros w H; cbn [run]; [exact H|].
  pose proof (step_sound e w H) as H1.
  destruct (step JSON_parse e w) as [w1 out1]. cbn [fst] in H1.
  specialize (IH w1 H1). destruct (run JSON_parse rest w1) as [w2 out2]. exact IH.
Qed.

(** X8. Whatever events the worker has processed: a provider id in the registry
    refers to a provider connection that carries that id, so [lookup] by id
    succeeds for every registered id; and the provider a pending refresh will
    reconnect exists. *)
Theorem registry_refers_to_named_providers (stompLoaded : bool) (events : list Event) :
  let w := fst (run JSON_parse events (initialWorker stompLoaded)) in
  NoDup (JsMap.keys (providers w))
  /\ (forall name ref, JsMap.get (providers w) name = Some ref ->
        exists p, lookupProvider w name = Some (ref, p) /\ providerId p = name)
  /\ (forall t, In t (timers w) -> nth_error (objects w) (timerProvider t) <> None).
Proof.
  intros w. pose proof (run_sound events _ (sound_initial stompLoaded)) as [rd rv tv].
  fold w in rd, rv, tv. split; [exact rd | split].
  - intros name ref G. destruct (rv name ref G) as (p & E & Q).
    exists p. split; [|exact Q]. unfold lookupProvider. now rewrite G, E.
  - intros t I. apply nth_error_Some. now apply tv.
Qed.

End Soundness.

(** * Phases and cache of a provider connection along a run *)

Section PhaseFacts.

Variable JSON_parse : string -> option JsValue.
Context {engine : Engine}.

Lemma consistent_new providerId config now :
  Consistent (newProviderConnection providerId config now).
Proof. constructor; cbn; try discriminate; auto. Qed.

Lemma applyUpdatesToSnapshot_phase updates now p :
  let q := fst (applyUpdatesToSnapshot updates now p) in
  isConnecting q = isConnecting p /\ connection q = connection p
  /\ subscription q = subscription p /\ statistics q = statistics p
  /\ isSnapshotComplete q = isSnapshotComplete p.
Proof.
  unfold applyUpdatesToSnapshot.
  destruct (applyUpdates (keyColumnOf (config p)) updates (snapshot p)) as [cache []];
    now repeat split.
Qed.

Lemma handleMessage_phase body now p :
  let q := fst (handleMessage JSON_parse body now p) in
  isConnecting q = isConnecting p
  /\ isConnected (statistics q) = isConnected (statistics p)
  /\ connection q = connection p
  /\ subscription q = subscription p
  /\ (mode (statistics q) = mode (statistics p)
      /\ isSnapshotComplete q = isSnapshotComplete p
      \/ mode (statistics q) = Realtime /\ isSnapshotComplete q = true).
Proof.
  cbv zeta. unfold handleMessage.
  destruct (classifyFrame JSON_parse _ (trim body)) as [|positions|].
  - cbn. repeat split. now right.
  - set (p2 := if isSnapshotComplete _ then _ else _).
    assert (isConnecting p2 = isConnecting p
            /\ isConnected (statistics p2) = isConnected (statistics p)
            /\ connection p2 = connection p /\ subscription p2 = subscription p
            /\ mode (statistics p2) = mode (statistics p)
            /\ isSnapshotComplete p2 = isSnapshotComplete p) as (A & B & C & D & E & F).
    { subst p2. cbn. destruct (isSnapshotComplete p) eqn:SC; cbn; rewrite ?SC; repeat split. }
    pose proof (applyUpdatesToSnapshot_phase positions now p2) as K. cbv zeta in K.
    destruct (applyUpdatesToSnapshot positions now p2) as [p3 [err|]]; cbn [fst] in *;
      destruct K as (K1 & K2 & K3 & K4 & K5); rewrite K1, K2, K3, K4, K5;
      (split; [exact A | split; [exact B | split; [exact C | split; [exact D |]]]]);
      left; split; assumption.
  - cbn. repeat split. now left.
Qed.

Lemma consistent_method p q :
  Consistent p -> Method JSON_parse (fun _ => True) p q -> Consistent q.
Proof.
  intros H M. pose proof H as [a b c d e].
  destruct M as [p portId port | sl cid p | p | cl cb now p _].
  - constructor; cbn; auto.
  - unfold connect. destruct (isConnecting p || isConnected (statistics p)) eqn:B;
      [exact H|]. apply orb_false_elim in B as [IC K].
    destruct sl; cbn [fst]; constructor; cbn; auto; try discriminate;
      rewrite K; discriminate.
  - constructor; cbn; auto; try discriminate.
  - destruct cb; cbn [callback].
    + unfold onConnect. cbn. destruct (connection p) eqn:C; cbn [fst];
        constructor; cbn; auto; try discriminate; rewrite C; discriminate.
    + constructor; cbn; auto.
    + constructor; cbn; auto.
    + constructor; cbn; auto; discriminate.
    + destruct (handleMessage_phase body now p) as (A & B & C & D & E).
      constructor; rewrite ?A, ?B, ?C, ?D; auto.
      * destruct E as [[E _]|[E _]]; rewrite E; [auto | discriminate].
      * destruct E as [[E F]|[E _]]; rewrite E, ?F; [auto | discriminate].
      * destruct E as [[E F]|[_ F]]; rewrite ?E, F; auto.
Qed.

End PhaseFacts.

Section About_provider_phases_fit_together.

Context {engine : Engine}.

(** X9. Whatever events the worker has processed, the flags of each of its
    provider connections fit together: one that is connecting is not
    connected; one that is connected is not in mode [idle]; in mode
    [snapshot] it is connected and its snapshot is not complete; in mode
    [realtime] its snapshot is complete; and it holds a subscription only
    while it holds a client. *)
Theorem provider_phases_fit_together
  (JSON_parse : string -> option JsValue) (stompLoaded : bool) (events : list Event) :
  Forall Consistent (objects (fst (run JSON_parse events (initialWorker stompLoaded)))).
Proof.
  apply objects_invariant_run.
  - apply consistent_new.
  - apply consistent_method.
  - constructor.
Qed.

End About_provider_phases_fit_together.

Section CacheFacts.

Variable JSON_parse : string -> option JsValue.
Context {engine : Engine}.

Lemma In_set {V} (m : JsMap.t V) key u k v :
  In (k, v) (JsMap.set m key u) -> (k, v) = (key, u) \/ In (k, v) m.
Proof.
  induction m as [|[k' v'] m IH]; cbn.
  - intros [E|[]]. left. now symmetry.
  - destruct (string_dec key k') as [->|N]; cbn.
    + intros [E|I]; [left; now symmetry | right; now right].
    + intros [E|I]; [right; now left|]. destruct (IH I); [now left | right; now right].
Qed.

Lemma applyUpdates_sound keyColumn updates : forall cache,
  cacheSound keyColumn cache ->
  cacheSound keyColumn (fst (applyUpdates keyColumn updates cache)).
Proof.
  induction updates as [|update rest IH]; intros cache H; cbn [applyUpdates]; [exact H|].
  destruct (keyOutcome keyColumn update) as [| |key] eqn:K; [exact H | now apply IH |].
  apply IH. destruct H as [N S]. split; [now apply keys_set_NoDup|].
  intros k v I. apply In_set in I as [E|I]; [|now apply S].
  injection E as -> ->. exact K.
Qed.

Lemma cacheSound_method p q :
  CacheSound p -> Method JSON_parse (fun _ => True) p q -> CacheSound q.
Proof.
  intros H M. destruct M as [p portId port | sl cid p | p | cl cb now p _].
  - exact H.
  - destruct (connect_fields sl cid p) as (C & S & _). unfold CacheSound.
    now rewrite C, S.
  - exact H.
  - destruct cb; cbn [callback]; try exact H.
    + unfold onConnect. cbn. destruct (connection p); cbn [fst]; (split; [constructor | intros k v []]).
    + unfold handleMessage.
      destruct (classifyFrame JSON_parse _ (trim body)) as [|positions|]; try exact H.
      set (p2 := if isSnapshotComplete _ then _ else _).
      assert (CacheSound p2) as H2
        by (subst p2; cbn; destruct (isSnapshotComplete p); exact H).
      assert (CacheSound (fst (applyUpdatesToSnapshot positions now p2))) as H3.
      { pose proof (applyUpdates_sound (keyColumnOf (config p2)) positions _ H2) as K.
        unfold applyUpdatesToSnapshot.
        destruct (applyUpdates (keyColumnOf (config p2)) positions (snapshot p2))
          as [cache []]; exact K. }
      destruct (applyUpdatesToSnapshot positions now p2) as [p3 [err|]]; exact H3.
Qed.

Lemma keysOf_values keyColumn (cache : JsMap.t JsValue) :
  (forall key update, In (key, update) cache -> keyOutcome keyColumn update = KeyIs key) ->
  keysOf keyColumn (JsMap.values cache) = JsMap.keys cache
  /\ Forall (hasKey keyColumn) (JsMap.values cache).
Proof.
  unfold JsMap.values, JsMap.keys.
  induction cache as [|[k v] cache IH]; intros S; cbn; [now split|].
  rewrite (S k v) by now left.
  destruct IH as [IH1 IH2]; [intros key update I; apply S; now right|].
  split; [now rewrite IH1|].
  constructor; [exists k; apply S; now left | exact IH2].
Qed.

End CacheFacts.

Section About_snapshot_has_one_record_per_key.

Context {engine : Engine}.

(** X10. Whatever events the worker has processed, what [getSnapshot] returns
    for each of its provider connections is one record per key: every
    record has a value in the key column, the stringified key values are the
    keys of the cache, in order, and no two records share one. *)
Theorem snapshot_has_one_record_per_key
  (JSON_parse : string -> option JsValue) (stompLoaded : bool) (events : list Event) :
  Forall (fun p =>
            Forall (hasKey (keyColumnOf (config p))) (getSnapshot p)
            /\ keysOf (keyColumnOf (config p)) (getSnapshot p) = JsMap.keys (snapshot p)
            /\ NoDup (keysOf (keyColumnOf (config p)) (getSnapshot p)))
    (objects (fst (run JSON_parse events (initialWorker stompLoaded)))).
Proof.
  assert (Forall CacheSound
            (objects (fst (run JSON_parse events (initialWorker stompLoaded))))) as F.
  { apply objects_invariant_run.
    - intros pid cfg now. split; [constructor | intros k v []].
    - apply cacheSound_method.
    - constructor. }
  eapply Forall_impl; [|exact F]. intros p [N S].
  destruct (keysOf_values (keyColumnOf (config p)) (snapshot p) S) as [K H].
  unfold getSnapshot. split; [exact H | split; [exact K | now rewrite K]].
Qed.

End About_snapshot_has_one_record_per_key.

(** * Counters and answers *)

Section CounterFacts.

Variable JSON_parse : string -> option JsValue.
Context {engine : Engine}.

Lemma countersGrow_refl p : CountersGrow p p.
Proof. constructor; lia. Qed.

Lemma countersGrow_trans p q r : CountersGrow p q -> CountersGrow q r -> CountersGrow p r.
Proof. intros [] []. constructor; lia. Qed.

Lemma handleMessage_counters body now p :
  CountersGrow p (fst (handleMessage JSON_parse body now p)).
Proof.
  unfold handleMessage.
  destruct (classifyFrame JSON_parse _ (trim body)) as [|positions|].
  - constructor; cbn; lia.
  - set (p2 := if isSnapshotComplete _ then _ else _).
    assert (CountersGrow p p2) as G
      by (subst p2; cbn; destruct (isSnapshotComplete p); constructor; cbn; lia).
    pose proof (applyUpdatesToSnapshot_phase positions now p2) as K. cbv zeta in K.
    destruct (applyUpdatesToSnapshot positions now p2) as [p3 [err|]]; cbn [fst] in *;
      destruct K as (_ & _ & _ & K & _); destruct G; constructor; rewrite K; assumption.
  - constructor; cbn; lia.
Qed.

Lemma method_counters ok p q : Method JSON_parse ok p q -> CountersGrow p q.
Proof.
  intros [p0 portId port | sl cid p0 | p0 | c cb now p0 _].
  - constructor; cbn; lia.
  - destruct (connect_fields sl cid p0) as (_ & _ & _ & S).
    constructor; rewrite S; lia.
  - constructor; cbn; lia.
  - destruct cb; cbn [callback].
    + unfold onConnect. cbn. destruct (connection p0); constructor; cbn; lia.
    + apply countersGrow_refl.
    + apply countersGrow_refl.
    + constructor; cbn; lia.
    + apply handleMessage_counters.
Qed.

Lemma methods_counters ok p q : Methods JSON_parse ok p q -> CountersGrow p q.
Proof.
  intros M. induction M as [|p q r _ IH S]; [apply countersGrow_refl|].
  eapply countersGrow_trans; [exact IH | eapply method_counters, S].
Qed.

(** X11. A provider connection stays where it is in the heap, and the bytes
    received, the update rows, the connections and the disconnections it
    has counted never go down, whatever events the worker processes. *)
Theorem counters_never_decrease (events : list Event) : forall w ref p,
  nth_error (objects w) ref = Some p ->
  exists p', nth_error (objects (fst (run JSON_parse events w))) ref = Some p'
             /\ CountersGrow p p'.
Proof.
  induction events as [|e rest IH]; intros w ref p E; cbn [run].
  - exists p. split; [exact E | apply countersGrow_refl].
  - destruct (step_forward JSON_parse e w ref p E) as (p1 & E1 & M).
    destruct (step JSON_parse e w) as [w1 out1]. cbn [fst] in E1.
    destruct (IH w1 ref p1 E1) as (p2 & E2 & G).
    destruct (run JSON_parse rest w1) as [w2 out2]. cbn [fst] in *.
    exists p2. split; [exact E2|].
    eapply countersGrow_trans; [eapply methods_counters, M | exact G].
Qed.

End CounterFacts.

Section Sample_counters_never_decrease_witness.

#[local] Existing Instance ownProperties.

Lemma counters_never_decrease_witness :
  exists p', nth_error (objects (fst (run JsonText.parse
                                        [Transport 0 (sampleClient scenarioConfig) OnConnect 20;
                                         Transport 0 (sampleClient scenarioConfig)
                                           (OnMessage twoRecords) 35]
                                        connectingWorker))) 0 = Some p'
             /\ CountersGrow (firstObject connectingWorker) p'.
Proof.
  apply (counters_never_decrease JsonText.parse
           [Transport 0 (sampleClient scenarioConfig) OnConnect 20;
            Transport 0 (sampleClient scenarioConfig) (OnMessage twoRecords) 35]
           connectingWorker 0 (firstObject connectingWorker)).
  reflexivity.
Defined.

End Sample_counters_never_decrease_witness.

Section AnswerFacts.

Variable JSON_parse : string -> option JsValue.
Context {engine : Engine}.

Lemma answers_app es1 es2 : answers (es1 ++ es2) = answers es1 ++ answers es2.
Proof. apply filter_app. Qed.

Lemma connect_answers sl cid p : answers (snd (fst (connect sl cid p))) = [].
Proof.
  unfold connect. destruct (isConnecting p || isConnected (statistics p)); [reflexivity|].
  destruct sl; reflexivity.
Qed.

Lemma disconnect_answers p : answers (snd (disconnect p)) = [].
Proof.
  unfold disconnect. cbn [snd].
  destruct (subscription p) as [[c topic]|]; destruct (connection p); reflexivity.
Qed.

Lemma connectTail_answers w1 ref provider0 (cid portId : string) (port : Port)
  (pid id : string) :
  nth_error (objects w1) ref = Some provider0 ->
  let provider :=
    withSubscribers (JsMap.set (subscribers provider0) portId port) provider0 in
  let respond := [PostMessage port (Response id Success)] in
  let result :=
    if negb (isConnected (statistics provider)) && negb (isConnecting provider)
    then
      match connect (stompLoaded w1) cid provider with
      | (provider', es, Some error) => (store ref provider' w1, es, Some error)
      | (provider', es, None) => (store ref provider' w1, es ++ respond, None)
      end
    else if isConnected (statistics provider)
    then
      (store ref provider w1,
       [PostMessage port (Connected pid pid)]
       ++ (if Nat.ltb 0 (JsMap.size (snapshot provider))
           then [PostMessage port (Data pid (getSnapshot provider) false)]
           else [])
       ++ respond, None)
    else (store ref provider w1, respond, None) in
  timers (fst (fst result)) = timers w1
  /\ match snd result with
     | None => answers (snd (fst result)) = respond
     | Some _ => answers (snd (fst result)) = []
     end.
Proof.
  intros E provider respond. cbv zeta.
  destruct (negb (isConnected (statistics provider)) && negb (isConnecting provider)).
  - pose proof (connect_answers (stompLoaded w1) cid provider) as A.
    destruct (connect (stompLoaded w1) cid provider) as [[p' es] [err|]];
      cbn [fst snd] in *; (split; [reflexivity|]); [exact A|].
    now rewrite answers_app, A.
  - destruct (isConnected (statistics provider)); cbn [fst snd]; (split; [reflexivity|]);
      [|reflexivity].
    destruct (Nat.ltb 0 (JsMap.size (snapshot provider))); reflexivity.
Qed.

Lemma handleConnect_answers now cid portId port pid cfg id w :
  WorkerSound w ->
  let result := handleConnect now cid portId port pid cfg id w in
  timers (fst (fst result)) = timers w
  /\ match snd result with
     | None => answers (snd (fst result)) = [PostMessage port (Response id Success)]
     | Some _ => answers (snd (fst result)) = []
     end.
Proof.
  intros [rd rv tv]. cbv zeta. unfold handleConnect.
  destruct (JsMap.get (providers w) pid) as [r|] eqn:G.
  - destruct (rv pid r G) as (q & E & _). rewrite E.
    exact (connectTail_answers w r q cid portId port pid id E).
  - set (w1 := withProviders _ _).
    assert (nth_error (objects w1) (List.length (objects w))
            = Some (newProviderConnection pid cfg now)) as E
      by (subst w1; cbn; now rewrite nth_error_app2, Nat.sub_diag by lia).
    rewrite E.
    exact (connectTail_answers w1 _ _ cid portId port pid id E).
Qed.

Lemma handlePortMessage_answers now cid portId port id request w :
  WorkerSound w ->
  let result := handlePortMessage now cid portId port id request w in
  (exists m, answers (snd result) = [PostMessage port m] /\ envelopeId m = Some id
             /\ timers (fst result) = timers w)
  \/ (answers (snd result) = []
      /\ exists ref, nth_error (objects w) ref <> None
         /\ timers (fst result)
            = timers w ++ [{| timerProvider := ref; timerPort := port;
                              timerMessageId := id |}]).
Proof.
  intros H. cbv zeta.
  destruct request as [pid cfg | pid | pid | pid | pid | type]; cbn [handlePortMessage].
  - left. destruct (handleConnect_answers now cid portId port pid cfg id w H) as [T A].
    destruct (handleConnect now cid portId port pid cfg id w) as [[w' es] [err|]];
      cbn [fst snd] in *.
    + exists (ErrorResponse id err). rewrite answers_app, A. now repeat split.
    + exists (Response id Success). now repeat split.
  - left. unfold handleDisconnect.
    destruct (lookupProvider w pid) as [[r p]|]; cbn [fst snd].
    + pose proof (disconnect_answers p) as A.
      destruct (disconnect p) as [p' es]. cbn [fst snd] in *.
      exists (Response id Success). rewrite answers_app, A. now repeat split.
    + exists (Response id Success). now repeat split.
  - unfold handleRefresh. destruct (lookupProvider w pid) as [[r p]|] eqn:L; cbn [fst snd].
    + right. apply lookupProvider_object in L as [_ E].
      pose proof (disconnect_answers p) as A.
      destruct (disconnect p) as [p' es]. cbn [fst snd] in *.
      rewrite answers_app, A. split; [reflexivity|].
      exists r. split; [congruence | reflexivity].
    + left. exists (ErrorResponse id "Provider not connected"). now repeat split.
  - left. eexists. now repeat split.
  - left. eexists. now repeat split.
  - left. eexists. now repeat split.
Qed.

Lemma resumeRefresh_answers cid t w p :
  nth_error (objects w) (timerProvider t) = Some p ->
  exists m, answers (snd (resumeRefresh cid t w)) = [PostMessage (timerPort t) m]
            /\ envelopeId m = Some (timerMessageId t)
            /\ timers (fst (resumeRefresh cid t w)) = timers w.
Proof.
  intros E. unfold resumeRefresh. rewrite E.
  pose proof (connect_answers (stompLoaded w) cid p) as A.
  destruct (connect (stompLoaded w) cid p) as [[p' es] [err|]]; cbn [fst snd] in *;
    eexists; rewrite answers_app, A; now repeat split.
Qed.

(** X12. The worker answers a request it takes from a port exactly once, to
    that port and under the id of the request: at once, or, for a refresh
    of a registered provider, not at once but through one timer that holds
    the port and the id. *)
Theorem request_is_answered_once (stompLoaded : bool) (events : list Event)
  (now : Z) (freshClientId portId : string) (port : Port) (id : string)
  (request : Request) :
  let w := fst (run JSON_parse events (initialWorker stompLoaded)) in
  let result := handlePortMessage now freshClientId portId port id request w in
  (exists m, answers (snd result) = [PostMessage port m] /\ envelopeId m = Some id
             /\ timers (fst result) = timers w)
  \/ (answers (snd result) = []
      /\ exists ref, nth_error (objects w) ref <> None
         /\ timers (fst result)
            = timers w ++ [{| timerProvider := ref; timerPort := port;
                              timerMessageId := id |}]).
Proof.
  intros w. apply handlePortMessage_answers.
  apply run_sound, sound_initial.
Qed.

(** X13. When a refresh timer fires, the worker posts the one answer to the
    refresh request, to the port that asked and under the id of the request,
    and the timer is gone. *)
Theorem refresh_is_answered_by_its_timer (stompLoaded : bool) (events : list Event)
  (k : nat) (t : RefreshTimer) (freshClientId : string) :
  let w := fst (run JSON_parse events (initialWorker stompLoaded)) in
  nth_error (timers w) k = Some t ->
  let result := step JSON_parse (RefreshTimerFires k freshClientId) w in
  exists m, answers (snd result) = [PostMessage (timerPort t) m]
            /\ envelopeId m = Some (timerMessageId t)
            /\ timers (fst result) = removeNth k (timers w).
Proof.
  intros w E. cbv zeta. cbn [step]. rewrite E.
  pose proof (run_sound JSON_parse events _ (sound_initial stompLoaded)) as [_ _ tv].
  fold w in tv. specialize (tv t (nth_error_In _ _ E)).
  destruct (nth_error (objects w) (timerProvider t)) as [p|] eqn:Ep;
    [|apply nth_error_None in Ep; lia].
  apply (resumeRefresh_answers freshClientId t (withTimers (removeNth k (timers w)) w) p).
  exact Ep.
Qed.

End AnswerFacts.

Section Sample_refresh_is_answered_by_its_timer_witness.

#[local] Existing Instance ownProperties.

Lemma refresh_is_answered_by_its_timer_witness :
  exists m,
    answers (snd (step JsonText.parse (RefreshTimerFires 0 "stomp-50-dddd")
                    (fst (run JsonText.parse refreshEvents (initialWorker true)))))
    = [PostMessage (MessagePort "port-1-1") m]
    /\ envelopeId m = Some "r1"
    /\ timers (fst (step JsonText.parse (RefreshTimerFires 0 "stomp-50-dddd")
                      (fst (run JsonText.parse refreshEvents (initialWorker true)))))
       = removeNth 0 (timers (fst (run JsonText.parse refreshEvents (initialWorker true)))).
Proof.
  apply (refresh_is_answered_by_its_timer JsonText.parse true refreshEvents 0 refreshTimer
           "stomp-50-dddd").
  reflexivity.
Defined.

End Sample_refresh_is_answered_by_its_timer_witness.

Section RequestFacts.

Variable JSON_parse : string -> option JsValue.
Context {engine : Engine}.

(** X14. After the worker has handled a disconnect request for a provider id, the
    id names no provider: a second disconnect request changes nothing and
    touches no client, [get-statistics] gives [null] and [get-snapshot] the
    empty list. *)
Theorem disconnect_request_is_idempotent (stompLoaded : bool) (events : list Event)
  (providerId : string) :
  let w := fst (run JSON_parse events (initialWorker stompLoaded)) in
  let w1 := fst (handleDisconnect providerId w) in
  handleDisconnect providerId w1 = (w1, [])
  /\ handleGetStatistics providerId w1 = None
  /\ handleGetSnapshot providerId w1 = [].
Proof.
  intros w w1.
  pose proof (run_sound JSON_parse events _ (sound_initial stompLoaded)) as [rd _ _].
  fold w in rd.
  assert (lookupProvider w1 providerId = None) as L.
  { subst w1. unfold handleDisconnect.
    destruct (lookupProvider w providerId) as [[r p]|] eqn:L; [|exact L].
    destruct (disconnect p) as [p' es]. cbn [fst].
    unfold lookupProvider. cbn. now rewrite get_delete_same. }
  unfold handleDisconnect, handleGetStatistics, handleGetSnapshot. now rewrite L.
Qed.


End RequestFacts.

Section Sample_refresh_reconnects_with_a_new_client_witness.

#[local] Existing Instance ownProperties.


End Sample_refresh_reconnects_with_a_new_client_witness.

(** X16. Without the STOMP library a connect request for a new provider id is
    answered with the error of the failed construction and nothing else is
    posted or activated; the provider stays registered under the id, idle,
    not connecting, without a client, with the requesting port as its only
    consumer. *)
Theorem connect_without_library_leaves_provider (w : Worker) (now : Z)
  (freshClientId portId : string) (port : Port) (providerId : string)
  (config : Config) (id : string) :
  stompLoaded w = false ->
  JsMap.get (providers w) providerId = None ->
  let result :=
    handlePortMessage now freshClientId portId port id
      (ConnectRequest providerId config) w in
  snd result = [PostMessage port (ErrorResponse id "StompJs is not defined")]
  /\ lookupProvider (fst result) providerId
     = Some (List.length (objects w),
             withSubscribers [(portId, port)]
               (newProviderConnection providerId config now)).
Proof.
  intros SL G. cbv zeta. cbn [handlePortMessage]. unfold handleConnect. rewrite G.
  cbn [objects withProviders withObjects].
  rewrite nth_error_app2, Nat.sub_diag by lia. cbn [nth_error].
  cbn [statistics isConnected isConnecting withSubscribers newProviderConnection negb andb].
  unfold connect.
  cbn [statistics isConnected isConnecting withSubscribers newProviderConnection orb
       stompLoaded withProviders withObjects].
  rewrite SL. cbn [fst snd app]. split; [reflexivity|].
  unfold lookupProvider. cbn [providers store withProviders withObjects objects].
  rewrite get_set_same, replaceNth_last. 
  rewrite nth_error_app2, Nat.sub_diag by lia. reflexivity.
Qed.

Lemma connect_without_library_leaves_provider_witness :
  snd (handlePortMessage 10 "stomp-10-aaaa" "port-1-1" (MessagePort "port-1-1") "c1"
         (ConnectRequest "P" scenarioConfig) (onconnect 1 (initialWorker false)))
  = [PostMessage (MessagePort "port-1-1") (ErrorResponse "c1" "StompJs is not defined")].
Proof.
  destruct (connect_without_library_leaves_provider (onconnect 1 (initialWorker false)) 10
              "stomp-10-aaaa" "port-1-1" (MessagePort "port-1-1") "P" scenarioConfig "c1")
    as [H _].
  - reflexivity.
  - reflexivity.
  - exact H.
Defined.

(** * The frame codec of the plain STOMP worker *)

Section StompFrameFacts.

Import StompSharedWorker.

Lemma split_nonempty sep s : split sep s <> [].
Proof.
  destruct s as [|c s]; cbn; [discriminate|].
  destruct (Ascii.eqb c sep); [discriminate|].
  destruct (split sep s); discriminate.
Qed.

Lemma split_free sep s : hasUnit sep s = false -> split sep s = [s].
Proof.
  induction s as [|c s IH]; cbn; [reflexivity|].
  destruct (Ascii.eqb c sep); [discriminate|]. cbn.
  intros H. now rewrite (IH H).
Qed.

Lemma split_app sep a b :
  hasUnit sep a = false ->
  split sep (a ++ String sep b) = a :: split sep b.
Proof.
  induction a as [|c a IH]; cbn.
  - now rewrite Ascii.eqb_refl.
  - destruct (Ascii.eqb c sep); [discriminate|]. cbn.
    intros H. now rewrite (IH H).
Qed.

Lemma split_head sep a b :
  hasUnit sep a = false ->
  exists rest, split sep (a ++ String sep b) = a :: rest /\ rest = split sep b.
Proof. intros H. eexists. split; [now apply split_app | reflexivity]. Qed.

Lemma join_first sep c x rest :
  join sep (String c x :: rest) = String c (join sep (x :: rest)).
Proof. destruct rest; reflexivity. Qed.

Lemma join_split s : join newline (split LF s) = s.
Proof.
  induction s as [|c s IH]; cbn [split]; [reflexivity|].
  pose proof (split_nonempty LF s) as N.
  destruct (split LF s) as [|x rest] eqn:S; [contradiction|].
  destruct (Ascii.eqb c LF) eqn:E.
  - apply Ascii.eqb_eq in E as ->.
    change (join newline (EmptyString :: x :: rest))
      with (String LF (join newline (x :: rest))).
    now rewrite IH.
  - now rewrite join_first, IH.
Qed.

Lemma dropFinalNul_app s : dropFinalNul (s ++ String NUL EmptyString) = s.
Proof.
  induction s as [|c s IH]; [reflexivity|].
  cbn [String.append dropFinalNul]. rewrite IH.
  destruct s; reflexivity.
Qed.

Lemma buildStompFrame_lines command headers body :
  buildStompFrame command headers body
  = (command ++ newline ++ headerLines headers ++ newline ++ body
     ++ String NUL EmptyString)%string.
Proof.
  unfold buildStompFrame.
  assert (forall hs frame tail,
            (fold_left
               (fun frame header =>
                  (frame ++ (fst header ++ ":" ++ snd header ++ newline))%string)
               hs frame ++ tail
             = frame ++ headerLines hs ++ tail)%string) as F.
  { induction hs as [|h hs IH]; intros frame tail; cbn [fold_left headerLines].
    - reflexivity.
    - rewrite IH, !append_assoc. reflexivity. }
  rewrite F, append_assoc. reflexivity.
Qed.


Lemma readHeaders_built headers : forall acc tail,
  forallb plainHeader headers = true ->
  readHeaders (split LF (headerLines headers ++ String LF tail)) acc
  = (fold_left (fun m header => assignHeader m (fst header) (beforeColon (snd header)))
       headers acc,
     Some (split LF tail)).
Proof.
  induction headers as [|[k v] rest IH]; intros acc tail P.
  - cbn [headerLines String.append split]. rewrite Ascii.eqb_refl. reflexivity.
  - cbn [forallb] in P. apply andb_prop in P as [P Pr].
    unfold plainHeader in P. cbn [fst snd] in P.
    apply andb_prop in P as [P V]. apply andb_prop in P as [P KC].
    apply andb_prop in P as [T KL].
    apply negb_true_iff in V, KC, KL.
    cbn [headerLines fst snd fold_left].
    assert (hasUnit LF (k ++ ":" ++ v) = false) as L.
    { clear - KL V. induction k as [|c k IHk]; cbn.
      - exact V.
      - cbn in KL. apply orb_false_elim in KL as [-> KL]. now apply IHk. }
    replace ((k ++ ":" ++ v ++ newline ++ headerLines rest) ++ String LF tail)%string
      with ((k ++ ":" ++ v) ++ String LF (headerLines rest ++ String LF tail))%string
      by (rewrite !append_assoc; reflexivity).
    rewrite (split_app LF _ _ L). cbn [readHeaders].
    destruct (String.eqb (k ++ ":" ++ v) "") eqn:E.
    { apply String.eqb_eq in E. destruct k; discriminate. }
    change (k ++ ":" ++ v)%string with (k ++ String colon v)%string.
    rewrite (split_app colon _ _ KC).
    pose proof (split_nonempty colon v) as N. unfold beforeColon.
    destruct (split colon v) as [|value more]; [contradiction|].
    rewrite T. cbn [hd]. now apply IH.
Qed.

Lemma parse_built command headers body :
  hasUnit LF command = false ->
  forallb plainHeader headers = true ->
  parseStompFrame (buildStompFrame command headers body)
  = {| StompSharedWorker.command := command;
       StompSharedWorker.headers :=
         fold_left (fun m header => assignHeader m (fst header) (beforeColon (snd header)))
           headers JsMap.empty;
       StompSharedWorker.body := body |}.
Proof.
  intros C P. rewrite buildStompFrame_lines. unfold parseStompFrame.
  change (command ++ newline ++ headerLines headers ++ newline ++ body
          ++ String NUL EmptyString)%string
    with (command ++ String LF (headerLines headers
                                ++ String LF (body ++ String NUL EmptyString)))%string.
  rewrite (split_app LF _ _ C). cbn [hd tl].
  rewrite (readHeaders_built headers JsMap.empty _ P).
  now rewrite join_split, dropFinalNul_app.
Qed.

Lemma beforeColon_free value : hasUnit colon value = false -> beforeColon value = value.
Proof. intros H. unfold beforeColon. now rewrite split_free. Qed.

Lemma beforeColon_app a b : hasUnit colon a = false -> beforeColon (a ++ String colon b) = a.
Proof. intros H. unfold beforeColon. now rewrite split_app. Qed.

(** Assigning headers to [{}] never creates the property [__proto__]. *)
Lemma assigned_has_no_proto (headers : list (string * string)) (f : string -> string) :
  forall acc, JsMap.get acc "__proto__" = None ->
  JsMap.get (fold_left (fun m header => assignHeader m (fst header) (f (snd header)))
               headers acc) "__proto__" = None.
Proof.
  induction headers as [|[k v] rest IH]; intros acc G; cbn [fold_left fst snd]; [exact G|].
  apply IH. unfold assignHeader. destruct (String.eqb k "__proto__") eqn:K; [exact G|].
  rewrite get_set_other; [exact G|]. intros ->. now rewrite String.eqb_refl in K.
Qed.

(** X17. [parseStompFrame] reads back what [buildStompFrame] wrote: the
    command, the headers as the object that assigning them to [{}] gives,
    and the body, whatever the body holds, when the command has no line
    feed, the header keys are not empty and have no line feed and no colon,
    and the header values have no line feed and no colon. A header named
    [__proto__] is lost on the way: the object read back has no such
    property. *)
Theorem built_frame_parses_back (command : string) (headers : list (string * string))
  (body : string) :
  hasUnit LF command = false ->
  forallb plainHeader headers = true ->
  forallb (fun header => negb (hasUnit colon (snd header))) headers = true ->
  parseStompFrame (buildStompFrame command headers body)
  = mkFrame command (headersOf headers) body
  /\ JsMap.get (headersOf headers) "__proto__" = None.
Proof.
  intros C P V. split.
  - rewrite (parse_built command headers body C P). f_equal.
    unfold headersOf. generalize (@JsMap.empty string). clear P.
    induction headers as [|[k v] rest IH]; intros acc; cbn [fold_left fst snd];
      [reflexivity|].
    cbn [forallb snd] in V. apply andb_prop in V as [Vv Vr].
    apply negb_true_iff in Vv. rewrite (beforeColon_free v Vv). now apply IH.
  - unfold headersOf. now apply (assigned_has_no_proto headers (fun value => value)).
Qed.

Lemma built_frame_parses_back_witness :
  parseStompFrame
    (buildStompFrame "SEND" [("destination", "/queue/a"); ("content-type", "text/plain")]
       ("line one" ++ newline ++ "line two"))
  = mkFrame "SEND"
      (headersOf [("destination", "/queue/a"); ("content-type", "text/plain")])
      ("line one" ++ newline ++ "line two").
Proof.
  apply (proj1 (built_frame_parses_back "SEND"
                  [("destination", "/queue/a"); ("content-type", "text/plain")]
                  ("line one" ++ newline ++ "line two") eq_refl eq_refl eq_refl)).
Defined.

(** X18. A header value that holds a colon does not come back whole:
    [parseStompFrame] keeps the part before the first colon of the value.
    A header named [__proto__] does not come back at all: the object read
    back has no own property of that name. *)
Theorem header_value_is_cut_at_colon (command : string)
  (headers : list (string * string)) (key value rest body : string) :
  hasUnit LF command = false ->
  forallb plainHeader (headers ++ [(key, (value ++ String colon rest)%string)]) = true ->
  hasUnit colon value = false ->
  JsMap.get
    (StompSharedWorker.headers
       (parseStompFrame
          (buildStompFrame command
             (headers ++ [(key, (value ++ String colon rest)%string)]) body)))
    key
  = if String.eqb key "__proto__" then None else Some value.
Proof.
  intros C P V. rewrite (parse_built command _ body C P).
  cbn [StompSharedWorker.headers]. rewrite fold_left_app. cbn [fold_left fst snd].
  rewrite (beforeColon_app value rest V). unfold assignHeader at 1.
  destruct (String.eqb key "__proto__") eqn:K; [|apply get_set_same].
  apply String.eqb_eq in K. subst key. now apply assigned_has_no_proto.
Qed.

Lemma header_value_is_cut_at_colon_witness :
  JsMap.get
    (StompSharedWorker.headers
       (parseStompFrame
          (buildStompFrame "CONNECT"
             ([("accept-version", "1.0,1.1,1.2")] ++ [("host", "localhost:8080")])
             EmptyString)))
    "host"
  = Some "localhost".
Proof.
  apply (header_value_is_cut_at_colon "CONNECT" [("accept-version", "1.0,1.1,1.2")]
           "host" "localhost" "8080" EmptyString); reflexivity.
Defined.

End StompFrameFacts.

(** * The plain STOMP worker *)

Section LegacyWorkerFacts.

Import StompSharedWorker.

Lemma keys_set_present {V} (m : JsMap.t V) k v :
  JsMap.get m k <> None -> JsMap.keys (JsMap.set m k v) = JsMap.keys m.
Proof.
  unfold JsMap.keys. induction m as [|[k' v'] m IH]; cbn; [congruence|].
  destruct (string_dec k k') as [->|N]; cbn; [reflexivity|].
  intros G. now rewrite IH.
Qed.

Lemma sendToPort_muted c m w : muted c w -> sendToPort c m w = [].
Proof.
  unfold muted, sendToPort. destruct (JsMap.get (connections w) c) as [conn|]; [|reflexivity].
  now intros ->.
Qed.

Lemma socketSend_effects frame w :
  (snd (socketSend frame w) = None /\ fst (socketSend frame w) = [SocketSend frame])
  \/ (snd (socketSend frame w) <> None /\ fst (socketSend frame w) = []).
Proof.
  unfold socketSend. destruct (websocket w) as [[]|]; cbn; auto; right; split; congruence.
Qed.

(** What [handleUnsubscribe] leaves alone, and what it does for a
    connection that cannot be posted to. *)
Lemma handleUnsubscribe_facts c id sid w :
  let result := handleUnsubscribe c id sid w in
  websocket (fst (fst result)) = websocket w
  /\ JsMap.keys (connections (fst (fst result))) = JsMap.keys (connections w)
  /\ (forall other, other <> c ->
        JsMap.get (connections (fst (fst result))) other = JsMap.get (connections w) other)
  /\ (muted c w ->
      muted c (fst (fst result))
      /\ Forall isUnsubscribeSend (snd (fst result))).
Proof.
  cbv zeta. unfold handleUnsubscribe.
  destruct (JsMap.get (subscriptions w) sid) as [s|].
  2:{ cbn [fst snd]. split; [reflexivity|]. split; [reflexivity|]. split; [reflexivity|].
      intros M. split; [exact M|].
      unfold sendError. rewrite sendToPort_muted by exact M. constructor. }
  destruct (socketSend_effects (buildStompFrame "UNSUBSCRIBE" [("id", sid)] "") w)
    as [[N E]|[N E]];
    destruct (socketSend _ w) as [es [err|]]; cbn [fst snd] in *; try congruence; subst es.
  2:{ split; [reflexivity|]. split; [reflexivity|]. split; [reflexivity|].
      intros M. split; [exact M | constructor]. }
  set (w1 := withSubscriptions _ w).
  destruct (JsMap.get (connections w1) c) as [conn|] eqn:G; cbn [fst snd].
  - cbn [websocket withConnections connections]. split; [reflexivity|]. split.
    { apply keys_set_present. subst w1. cbn in *. congruence. }
    split.
    { intros other O. now rewrite get_set_other by congruence. }
    intros M. assert (active conn = false) as A.
    { unfold muted in M. subst w1. cbn in G. now rewrite G in M. }
    assert (muted c (withConnections
                       (JsMap.set (connections w1) c
                          {| subscriptionIds := setDelete sid (subscriptionIds conn);
                             active := active conn |}) w1)) as M'.
    { unfold muted. cbn [connections withConnections]. now rewrite get_set_same. }
    split; [exact M'|]. rewrite sendToPort_muted by exact M'.
    constructor; [now exists sid | constructor].
  - split; [reflexivity|]. split; [reflexivity|]. split; [reflexivity|].
    intros M. assert (muted c w1) as M' by exact M.
    split; [exact M'|]. rewrite sendToPort_muted by exact M'.
    constructor; [now exists sid | constructor].
Qed.

Lemma unsubscribeAll_facts c ids : forall w,
  let result := unsubscribeAll c ids w in
  websocket (fst (fst result)) = websocket w
  /\ JsMap.keys (connections (fst (fst result))) = JsMap.keys (connections w)
  /\ (forall other, other <> c ->
        JsMap.get (connections (fst (fst result))) other = JsMap.get (connections w) other)
  /\ (muted c w ->
      muted c (fst (fst result))
      /\ Forall isUnsubscribeSend (snd (fst result))).
Proof.
  induction ids as [|sid rest IH]; intros w; cbv zeta; cbn [unsubscribeAll].
  - cbn [fst snd]. split; [reflexivity|]. split; [reflexivity|]. split; [reflexivity|].
    intros M. split; [exact M | constructor].
  - destruct (handleUnsubscribe_facts c "auto-unsubscribe" sid w) as (W & K & O & M).
    destruct (handleUnsubscribe c "auto-unsubscribe" sid w) as [[w1 es1] [err|]];
      cbn [fst snd] in *.
    + split; [exact W|]. split; [exact K|]. split; [exact O | exact M].
    + specialize (IH w1). cbv zeta in IH. destruct IH as (W2 & K2 & O2 & M2).
      destruct (unsubscribeAll c rest w1) as [[w2 es2] err2]. cbn [fst snd] in *.
      split; [congruence|]. split; [congruence|]. split.
      { intros other N. rewrite O2, O by exact N. reflexivity. }
      intros Mu. destruct (M Mu) as [Mu1 F1]. destruct (M2 Mu1) as [Mu2 F2].
      split; [exact Mu2 | now apply Forall_app].
Qed.

Lemma unsubscribeSend_not_post es : Forall isUnsubscribeSend es -> filter isPost es = [].
Proof.
  induction 1 as [|e es [sid ->] _ IH]; [reflexivity | exact IH].
Qed.

Lemma muted_deleted c w :
  NoDup (JsMap.keys (connections w)) ->
  muted c (withConnections (JsMap.delete (connections w) c) w).
Proof. intros N. unfold muted. cbn. now rewrite get_delete_same. Qed.

(** The first half of [handleDisconnect]: the connection is made inactive,
    its subscriptions are cancelled and it is removed. *)
Lemma handleDisconnect_leaves c w :
  NoDup (JsMap.keys (connections w)) ->
  let left :=
    match JsMap.get (connections w) c with
    | Some connection =>
        let w0 :=
          withConnections
            (JsMap.set (connections w) c
               {| subscriptionIds := subscriptionIds connection; active := false |}) w in
        match unsubscribeAll c (subscriptionIds connection) w0 with
        | (w1, es, Some error) => (w1, es, Some error)
        | (w1, es, None) =>
            (withConnections (JsMap.delete (connections w1) c) w1, es, None)
        end
    | None => (w, [], None)
    end in
  muted c (fst (fst left))
  /\ Forall isUnsubscribeSend (snd (fst left))
  /\ websocket (fst (fst left)) = websocket w
  /\ (forall other, other <> c ->
        JsMap.get (connections (fst (fst left))) other = JsMap.get (connections w) other)
  /\ (snd left = None -> JsMap.get (connections (fst (fst left))) c = None).
Proof.
  intros N. cbv zeta.
  destruct (JsMap.get (connections w) c) as [conn|] eqn:G.
  2:{ cbn [fst snd]. split; [unfold muted; now rewrite G|]. split; [constructor|].
      split; [reflexivity|]. split; [reflexivity | intros _; exact G]. }
  set (w0 := withConnections _ w).
  assert (muted c w0) as M0
    by (unfold muted; subst w0; cbn; now rewrite get_set_same).
  assert (JsMap.keys (connections w0) = JsMap.keys (connections w)) as K0
    by (subst w0; cbn; apply keys_set_present; congruence).
  assert (forall other, other <> c ->
            JsMap.get (connections w0) other = JsMap.get (connections w) other) as O0
    by (intros other O; subst w0; cbn; rewrite get_set_other; congruence).
  destruct (unsubscribeAll_facts c (subscriptionIds conn) w0) as (W & K & O & M).
  destruct (M M0) as [M1 F].
  destruct (unsubscribeAll c (subscriptionIds conn) w0) as [[w1 es] [err|]];
    cbn [fst snd] in *.
  - split; [exact M1|]. split; [exact F|]. split; [exact W|]. split.
    + intros other X. rewrite O, O0 by exact X. reflexivity.
    + discriminate.
  - assert (NoDup (JsMap.keys (connections w1))) as N1 by congruence.
    split; [now apply muted_deleted|]. split; [exact F|]. split; [exact W|]. split.
    + intros other X. cbn. rewrite get_delete_other, O, O0 by congruence. reflexivity.
    + intros _. cbn. now apply get_delete_same.
Qed.

Lemma disconnect_posts_nothing_and_mutes (connectionId id : string) (now : Z) (w : Worker) :
  NoDup (JsMap.keys (connections w)) ->
  let result := handlePortMessage connectionId id DisconnectRequest now w in
  filter isPost (snd result) = [] /\ muted connectionId (fst result).
Proof.
  intros N. unfold handlePortMessage, handleDisconnect. cbv zeta.
  destruct (handleDisconnect_leaves connectionId w N) as (M & F & _).
  cbv zeta in M, F.
  destruct (match JsMap.get (connections w) connectionId with
            | Some connection => _
            | None => _
            end) as [[w1 es1] [err|]]; cbn [fst snd] in *.
  { unfold sendError. rewrite sendToPort_muted, app_nil_r by exact M.
    split; [now apply unsubscribeSend_not_post | exact M]. }
  assert (filter isPost es1 = []) as P1 by now apply unsubscribeSend_not_post.
  destruct (websocket w1) as [state|] eqn:W.
  2:{ cbn [fst snd]. rewrite sendToPort_muted by exact M.
      cbn [app]. rewrite app_nil_r. split; [exact P1 | exact M]. }
  destruct (Nat.eqb (JsMap.size (connections w1)) 0).
  2:{ cbn [fst snd]. rewrite sendToPort_muted by exact M.
      cbn [app]. rewrite app_nil_r. split; [exact P1 | exact M]. }
  destruct (socketSend_effects (buildStompFrame "DISCONNECT" [] "") w1) as [[E S]|[E S]];
    destruct (socketSend _ w1) as [es [err|]]; cbn [fst snd] in *; try congruence; subst es.
  - assert (muted connectionId (socketClose w1)) as M'.
    { unfold socketClose. rewrite W. destruct state; exact M. }
    rewrite sendToPort_muted by exact M'.
    rewrite !filter_app, P1. split; [reflexivity | exact M'].
  - unfold sendError. rewrite sendToPort_muted by exact M.
    rewrite !app_nil_r. split; [exact P1 | exact M].
Qed.

Lemma disconnect_posts_nothing (connectionId id : string) (now : Z) (w : Worker) :
  NoDup (JsMap.keys (connections w)) ->
  filter isPost (snd (handlePortMessage connectionId id DisconnectRequest now w)) = [].
Proof. intros N. now apply disconnect_posts_nothing_and_mutes. Qed.

(** X19. A disconnect request is never confirmed: whatever the state of the
    worker, handling the request posts nothing to any port, not the
    [disconnected] answer and not an error either, and leaves the
    connection removed or inactive. *)
Theorem disconnect_is_never_confirmed (connectionId id : string) (now : Z) (w : Worker) :
  NoDup (JsMap.keys (connections w)) ->
  let result := handlePortMessage connectionId id DisconnectRequest now w in
  filter isPost (snd result) = [] /\ muted connectionId (fst result).
Proof. exact (disconnect_posts_nothing_and_mutes connectionId id now w). Qed.

Lemma disconnect_is_never_confirmed_witness :
  filter isPost
    (snd (handlePortMessage (generateId 1 5) "d1" DisconnectRequest 30 busyWorker)) = []
  /\ muted (generateId 1 5)
       (fst (handlePortMessage (generateId 1 5) "d1" DisconnectRequest 30 busyWorker)).
Proof.
  apply (disconnect_is_never_confirmed (generateId 1 5) "d1" 30 busyWorker).
  vm_compute. repeat constructor; cbn; intuition discriminate.
Defined.

Lemma size_present {V} (m : JsMap.t V) k :
  JsMap.get m k <> None -> Nat.eqb (JsMap.size m) 0 = false.
Proof. destruct m; cbn; [congruence | reflexivity]. Qed.

(** X20. While another connection remains, a disconnect request leaves the
    socket alone: all the worker does is call [send] with UNSUBSCRIBE
    frames; it sends no DISCONNECT frame, does not close the socket, and the
    other connection stays as it is. *)
Theorem disconnect_keeps_socket_for_others (connectionId id : string) (now : Z)
  (w : Worker) (other : string) :
  NoDup (JsMap.keys (connections w)) ->
  other <> connectionId ->
  JsMap.get (connections w) other <> None ->
  let result := handlePortMessage connectionId id DisconnectRequest now w in
  Forall isUnsubscribeSend (snd result)
  /\ websocket (fst result) = websocket w
  /\ JsMap.get (connections (fst result)) other = JsMap.get (connections w) other.
Proof.
  intros N X G. unfold handlePortMessage, handleDisconnect. cbv zeta.
  destruct (handleDisconnect_leaves connectionId w N) as (M & F & W & O & _).
  cbv zeta in M, F, W, O.
  destruct (match JsMap.get (connections w) connectionId with
            | Some connection => _
            | None => _
            end) as [[w1 es1] [err|]]; cbn [fst snd] in *.
  { unfold sendError. rewrite sendToPort_muted, app_nil_r by exact M.
    split; [exact F | split; [exact W | now apply O]]. }
  assert (Nat.eqb (JsMap.size (connections w1)) 0 = false) as S.
  { apply (size_present _ other). rewrite O by exact X. exact G. }
  rewrite S.
  assert ((match websocket w1 with
           | Some _ => (w1, @nil Effect, @None string)
           | None => (w1, [], None)
           end) = (w1, [], None)) as -> by (destruct (websocket w1); reflexivity).
  cbn [fst snd app]. rewrite sendToPort_muted, app_nil_r by exact M.
  split; [exact F | split; [exact W | now apply O]].
Qed.

Lemma disconnect_keeps_socket_for_others_witness :
  websocket (fst (handlePortMessage (generateId 1 5) "d1" DisconnectRequest 30 busyWorker))
  = Some OPEN.
Proof.
  destruct (disconnect_keeps_socket_for_others (generateId 1 5) "d1" 30 busyWorker
              (generateId 2 6)) as (_ & W & _).
  - vm_compute. repeat constructor; cbn; intuition discriminate.
  - vm_compute. discriminate.
  - vm_compute. discriminate.
  - exact W.
Defined.

Lemma unsubscribeAll_open c ids : forall w,
  websocket w = Some OPEN -> snd (unsubscribeAll c ids w) = None.
Proof.
  induction ids as [|sid rest IH]; intros w W; cbn [unsubscribeAll]; [reflexivity|].
  destruct (handleUnsubscribe_facts c "auto-unsubscribe" sid w) as (W1 & _).
  assert (snd (handleUnsubscribe c "auto-unsubscribe" sid w) = None) as E.
  { unfold handleUnsubscribe. destruct (JsMap.get (subscriptions w) sid); [|reflexivity].
    unfold socketSend. rewrite W. reflexivity. }
  destruct (handleUnsubscribe c "auto-unsubscribe" sid w) as [[w1 es1] [err|]];
    cbn [fst snd] in *; [discriminate|].
  specialize (IH w1). rewrite W1 in IH. specialize (IH W).
  destruct (unsubscribeAll c rest w1) as [[w2 es2] err2]. exact IH.
Qed.

(** X21. When the last connection disconnects over an open socket, the worker
    cancels its subscriptions, then sends the DISCONNECT frame and closes
    the socket; no connection is left. *)
Theorem last_disconnect_closes_socket (connectionId id : string) (now : Z)
  (w : Worker) (connection : Connection) :
  connections w = [(connectionId, connection)] ->
  websocket w = Some OPEN ->
  let result := handlePortMessage connectionId id DisconnectRequest now w in
  exists es,
    snd result = es ++ [SocketSend (buildStompFrame "DISCONNECT" [] ""); SocketClose]
    /\ Forall isUnsubscribeSend es
    /\ websocket (fst result) = Some CLOSING
    /\ connections (fst result) = [].
Proof.
  intros C W. unfold handlePortMessage, handleDisconnect. cbv zeta.
  assert (JsMap.get (connections w) connectionId = Some connection) as G.
  { rewrite C. cbn. destruct (string_dec connectionId connectionId); congruence. }
  rewrite G.
  set (w0 := withConnections _ w).
  assert (muted connectionId w0) as M0
    by (unfold muted; subst w0; cbn; now rewrite get_set_same).
  assert (JsMap.keys (connections w0) = [connectionId]) as K0.
  { subst w0. cbn [connections withConnections].
    rewrite keys_set_present by congruence. now rewrite C. }
  assert (websocket w0 = Some OPEN) as W0 by exact W.
  destruct (unsubscribeAll_facts connectionId (subscriptionIds connection) w0)
    as (W1 & K1 & _ & M).
  destruct (M M0) as [M1 F].
  pose proof (unsubscribeAll_open connectionId (subscriptionIds connection) w0 W0) as E.
  destruct (unsubscribeAll connectionId (subscriptionIds connection) w0)
    as [[w1 es] [err|]]; cbn [fst snd] in *; [discriminate|].
  assert (JsMap.delete (connections w1) connectionId = []) as D.
  { rewrite K0 in K1. destruct (connections w1) as [|[k v] [|more]]; try discriminate.
    cbn in K1. injection K1 as ->. cbn.
    destruct (string_dec connectionId connectionId); congruence. }
  cbn [websocket withConnections connections]. rewrite W1, W0, D. cbn [JsMap.size List.length Nat.eqb].
  unfold socketSend. cbn [websocket withConnections]. rewrite W1, W0. cbn [fst snd].
  exists es. split.
  { unfold sendToPort. cbn [connections socketClose withConnections websocket].
    unfold socketClose. cbn [websocket withConnections]. rewrite W1, W0.
    cbn [connections withWebsocket withConnections JsMap.get]. now rewrite app_nil_r. }
  split; [exact F|]. unfold socketClose. cbn [websocket withConnections].
  rewrite W1, W0. now split.
Qed.

Lemma last_disconnect_closes_socket_witness :
  exists es,
    snd (handlePortMessage (generateId 1 5) "d1" DisconnectRequest 30 lastWorker)
    = es ++ [SocketSend (buildStompFrame "DISCONNECT" [] ""); SocketClose]
    /\ Forall isUnsubscribeSend es
    /\ websocket (fst (handlePortMessage (generateId 1 5) "d1" DisconnectRequest 30
                         lastWorker)) = Some CLOSING
    /\ connections (fst (handlePortMessage (generateId 1 5) "d1" DisconnectRequest 30
                           lastWorker)) = [].
Proof.
  apply (last_disconnect_closes_socket (generateId 1 5) "d1" 30 lastWorker
           {| subscriptionIds := [generateId 2 20]; active := true |}); reflexivity.
Defined.

Lemma postsTo_app c es es' : postsTo c (es ++ es') = postsTo c es ++ postsTo c es'.
Proof. unfold postsTo. now rewrite flat_map_app. Qed.

Lemma postsTo_sendToPort c c' m w :
  postsTo c (sendToPort c' m w)
  = if String.eqb c' c
    then match JsMap.get (connections w) c with
         | Some connection => if active connection then [m] else []
         | None => []
         end
    else [].
Proof.
  unfold sendToPort. destruct (String.eqb c' c) eqn:E.
  - apply String.eqb_eq in E as ->.
    destruct (JsMap.get (connections w) c) as [conn|]; [|reflexivity].
    destruct (active conn); cbn; [|reflexivity]. now rewrite String.eqb_refl.
  - destruct (JsMap.get (connections w) c') as [conn|]; [|reflexivity].
    destruct (active conn); cbn; [|reflexivity]. now rewrite E.
Qed.

Lemma broadcast_postsTo c d m w connection :
  JsMap.get (connections w) c = Some connection ->
  active connection = true ->
  postsTo c (broadcastToSubscribers (Some d) m w)
  = repeat m (List.length (subscriptionsOf c d w)).
Proof.
  intros G A. unfold broadcastToSubscribers, subscriptionsOf.
  induction (subscriptions w) as [|[sid s] ss IH]; [reflexivity|].
  cbn [flat_map filter snd]. rewrite postsTo_app, IH. unfold isFor.
  destruct (String.eqb (destination s) d); cbn [andb]; [|reflexivity].
  rewrite postsTo_sendToPort, G, A.
  destruct (String.eqb (connectionId s) c); reflexivity.
Qed.

Lemma broadcast_misses c d m w :
  (forall sid s, In (sid, s) (subscriptions w) -> connectionId s = c -> destination s <> d) ->
  postsTo c (broadcastToSubscribers (Some d) m w) = [].
Proof.
  unfold broadcastToSubscribers.
  induction (subscriptions w) as [|[sid s] ss IH]; intros H; [reflexivity|].
  cbn [flat_map snd]. rewrite postsTo_app.
  rewrite IH by (intros sid' s' I; apply (H sid' s'); now right).
  rewrite app_nil_r. unfold isFor.
  destruct (String.eqb (destination s) d) eqn:E; [|reflexivity].
  rewrite postsTo_sendToPort.
  destruct (String.eqb (connectionId s) c) eqn:C; [|reflexivity].
  apply String.eqb_eq in E, C. elim (H sid s); auto. now left.
Qed.

End LegacyWorkerFacts.

Section LegacyMessages.

Import StompSharedWorker.

Variable JSON_parse : string -> option JsValue.

(** X22. A MESSAGE frame is posted to an active connection once for each of
    its subscriptions to the destination of the frame, every time the same
    message: a connection that subscribed twice to a destination gets each
    message twice. *)
Theorem message_is_posted_per_subscription (frame : Frame) (timestamp now : Z)
  (w : Worker) (connectionId destination : string) (connection : Connection) :
  JsMap.get (connections w) connectionId = Some connection ->
  active connection = true ->
  JsMap.get (headers frame) "destination" = Some destination ->
  exists m,
    postsTo connectionId (snd (handleStompMessage JSON_parse frame timestamp now w))
    = repeat m (List.length (subscriptionsOf connectionId destination w)).
Proof.
  intros G A D. unfold handleStompMessage. cbv zeta. cbn [snd]. rewrite D.
  set (w2 := withMessageId _ _). eexists.
  exact (broadcast_postsTo connectionId destination _ w2 connection G A).
Qed.

Lemma append_longer (a b : string) : (a ++ String colon b)%string <> a.
Proof.
  induction a as [|c a IH]; cbn; [discriminate|].
  intros E. injection E as E. now apply IH.
Qed.

(** X23. A subscription to a destination that holds a colon gets nothing: of
    a MESSAGE frame for that destination, [parseStompFrame] keeps the
    destination up to the colon, and [handleStompMessage] posts nothing to a
    connection whose subscriptions are all to the full destination. *)
Theorem colon_destination_misses_its_subscribers (headers : list (string * string))
  (before after body : string) (timestamp now : Z) (w : Worker) (connectionId : string) :
  forallb plainHeader
    (headers ++ [("destination", (before ++ String colon after)%string)]) = true ->
  hasUnit colon before = false ->
  (forall subscriptionId subscription,
      In (subscriptionId, subscription) (subscriptions w) ->
      StompSharedWorker.connectionId subscription = connectionId ->
      destination subscription = (before ++ String colon after)%string) ->
  postsTo connectionId
    (snd (handleStompMessage JSON_parse
            (parseStompFrame
               (buildStompFrame "MESSAGE"
                  (headers ++ [("destination", (before ++ String colon after)%string)])
                  body))
            timestamp now w)) = [].
Proof.
  intros P C S. rewrite (parse_built "MESSAGE" _ body eq_refl P).
  unfold handleStompMessage. cbv zeta. cbn [snd StompSharedWorker.headers].
  rewrite fold_left_app. cbn [fold_left fst snd].
  rewrite (beforeColon_app before after C).
  change (assignHeader ?m "destination" before) with (JsMap.set m "destination" before).
  rewrite get_set_same.
  set (w2 := withMessageId _ _).
  apply (broadcast_misses connectionId before _ w2). intros sid s I Q E.
  rewrite (S sid s I Q) in E. now apply append_longer in E.
Qed.

End LegacyMessages.

Section LegacyWitnesses.

Import StompSharedWorker.

Lemma message_is_posted_per_subscription_witness :
  exists m,
    postsTo (generateId 1 5)
      (snd (handleStompMessage JsonText.parse
              (mkFrame "MESSAGE" [("destination", "/topic/a")] "hello") 40 41 busyWorker))
    = repeat m (List.length (subscriptionsOf (generateId 1 5) "/topic/a" busyWorker)).
Proof.
  apply (message_is_posted_per_subscription JsonText.parse
           (mkFrame "MESSAGE" [("destination", "/topic/a")] "hello") 40 41 busyWorker
           (generateId 1 5) "/topic/a"
           {| subscriptionIds := [generateId 3 20; generateId 4 21]; active := true |});
    vm_compute; reflexivity.
Defined.

Lemma colon_destination_misses_its_subscribers_witness :
  postsTo (generateId 1 5)
    (snd (handleStompMessage JsonText.parse
            (parseStompFrame
               (buildStompFrame "MESSAGE"
                  ([("message-id", "7")]
                   ++ [("destination", ("/topic/a" ++ String colon "b")%string)])
                  "hello"))
            40 41 colonWorker)) = [].
Proof.
  apply (colon_destination_misses_its_subscribers JsonText.parse [("message-id", "7")]
           "/topic/a" "b" "hello" 40 41 colonWorker (generateId 1 5)).
  - reflexivity.
  - reflexivity.
  - intros sid s [E|[]] _. injection E as _ <-. reflexivity.
Defined.

End LegacyWitnesses.

Section LegacyIds.

Import StompSharedWorker.

Variable JSON_parse : string -> option JsValue.

Lemma keys_set_In {V} (m : JsMap.t V) k v key :
  In key (JsMap.keys (JsMap.set m k v)) -> key = k \/ In key (JsMap.keys m).
Proof.
  unfold JsMap.keys. induction m as [|[k' v'] m IH]; cbn.
  - intros [<-|[]]. now left.
  - destruct (string_dec k k') as [->|N]; cbn.
    + intros [<-|I]; [left; reflexivity | right; now right].
    + intros [<-|I]; [right; now left|]. destruct (IH I); [now left | right; now right].
Qed.

Lemma generatedBelow_le n n' key :
  (n <= n')%Z -> generatedBelow n key -> generatedBelow n' key.
Proof. intros L (c & t & E & B). exists c, t. split; [exact E | lia]. Qed.

Lemma generateId_counter (n t n' t' : Z) :
  (0 <= n)%Z -> (0 <= n')%Z -> generateId n t = generateId n' t' -> n = n'.
Proof. exact (generateMessageId_counter n t n' t'). Qed.

(** The next id is in use nowhere. *)
Lemma next_id_unused w now :
  IdsGenerated w ->
  ~ In (generateId (messageId w + 1) now) (JsMap.keys (connections w))
  /\ ~ In (generateId (messageId w + 1) now) (JsMap.keys (subscriptions w)).
Proof.
  intros [cp _ _ ci si]. split; intros I.
  - destruct (ci _ I) as (c & t & E & B). apply generateId_counter in E; lia.
  - destruct (si _ I) as (c & t & E & B). apply generateId_counter in E; lia.
Qed.

Lemma idsGenerated_step w w' :
  IdsGenerated w ->
  (messageId w <= messageId w')%Z ->
  NoDup (JsMap.keys (connections w')) ->
  NoDup (JsMap.keys (subscriptions w')) ->
  (forall key, In key (JsMap.keys (connections w')) ->
     In key (JsMap.keys (connections w)) \/ generatedBelow (messageId w') key) ->
  (forall key, In key (JsMap.keys (subscriptions w')) ->
     In key (JsMap.keys (subscriptions w)) \/ generatedBelow (messageId w') key) ->
  IdsGenerated w'.
Proof.
  intros [cp ck sk ci si] L N1 N2 C S. constructor; [lia | exact N1 | exact N2 | |].
  - intros key I. destruct (C key I) as [O|G]; [|exact G].
    eapply generatedBelow_le; [exact L | now apply ci].
  - intros key I. destruct (S key I) as [O|G]; [|exact G].
    eapply generatedBelow_le; [exact L | now apply si].
Qed.

Ltac worker_fields :=
  cbn [connections subscriptions messageId websocket stompConnected
       withConnections withSubscriptions withMessageId withWebsocket].

Lemma ids_withConnection w c connection :
  IdsGenerated w -> JsMap.get (connections w) c <> None ->
  IdsGenerated (withConnections (JsMap.set (connections w) c connection) w).
Proof.
  intros H G. apply (idsGenerated_step w); worker_fields; try lia; try apply H.
  - apply keys_set_NoDup, H.
  - intros key I. left. now rewrite keys_set_present in I.
  - auto.
Qed.

Lemma ids_handleUnsubscribe c id sid w :
  IdsGenerated w -> IdsGenerated (fst (fst (handleUnsubscribe c id sid w))).
Proof.
  intros H. unfold handleUnsubscribe.
  destruct (JsMap.get (subscriptions w) sid); [|exact H].
  destruct (socketSend _ w) as [es [err|]]; [exact H|].
  set (w1 := withSubscriptions _ w).
  assert (IdsGenerated w1) as H1.
  { apply (idsGenerated_step w); subst w1; worker_fields; try lia; try apply H.
    - apply keys_delete_NoDup, H.
    - auto.
    - intros key I. left. eapply keys_delete_In, I. }
  destruct (JsMap.get (connections w1) c) as [conn|] eqn:G; cbn [fst]; [|exact H1].
  apply ids_withConnection; [exact H1 | congruence].
Qed.

Lemma ids_unsubscribeAll c ids : forall w,
  IdsGenerated w -> IdsGenerated (fst (fst (unsubscribeAll c ids w))).
Proof.
  induction ids as [|sid rest IH]; intros w H; cbn [unsubscribeAll]; [exact H|].
  pose proof (ids_handleUnsubscribe c "auto-unsubscribe" sid w H) as H1.
  destruct (handleUnsubscribe c "auto-unsubscribe" sid w) as [[w1 es1] [err|]];
    cbn [fst] in *; [exact H1|].
  specialize (IH w1 H1). destruct (unsubscribeAll c rest w1) as [[w2 es2] err2]. exact IH.
Qed.

Lemma ids_deleted w c :
  IdsGenerated w -> IdsGenerated (withConnections (JsMap.delete (connections w) c) w).
Proof.
  intros H. apply (idsGenerated_step w); worker_fields; try lia; try apply H.
  - apply keys_delete_NoDup, H.
  - intros key I. left. eapply keys_delete_In, I.
  - auto.
Qed.

Lemma ids_socketClose w : IdsGenerated w -> IdsGenerated (socketClose w).
Proof.
  intros H. unfold socketClose. destruct (websocket w) as [[]|]; try exact H;
    destruct H; constructor; assumption.
Qed.

Lemma ids_handleDisconnect c id w :
  IdsGenerated w -> IdsGenerated (fst (fst (handleDisconnect c id w))).
Proof.
  intros H. unfold handleDisconnect. cbv zeta.
  assert (IdsGenerated
            (fst (fst
               match JsMap.get (connections w) c with
               | Some connection =>
                   match
                     unsubscribeAll c (subscriptionIds connection)
                       (withConnections
                          (JsMap.set (connections w) c
                             {| subscriptionIds := subscriptionIds connection;
                                active := false |}) w)
                   with
                   | (w1, es, Some error) => (w1, es, Some error)
                   | (w1, es, None) =>
                       (withConnections (JsMap.delete (connections w1) c) w1, es, None)
                   end
               | None => (w, [], None)
               end))) as L.
  { destruct (JsMap.get (connections w) c) as [conn|] eqn:G; [|exact H].
    pose proof (ids_unsubscribeAll c (subscriptionIds conn) _
                  (ids_withConnection w c
                     {| subscriptionIds := subscriptionIds conn; active := false |} H
                     ltac:(congruence))) as H1.
    destruct (unsubscribeAll c (subscriptionIds conn) _) as [[w1 es] [err|]];
      cbn [fst] in *; [exact H1 | now apply ids_deleted]. }
  destruct (match JsMap.get (connections w) c with
            | Some connection => _
            | None => _
            end) as [[w1 es1] [err|]]; cbn [fst] in *; [exact L|].
  destruct (websocket w1) as [state|]; [|exact L].
  destruct (Nat.eqb (JsMap.size (connections w1)) 0); [|exact L].
  destruct (socketSend _ w1) as [es [err|]]; cbn [fst]; [exact L|].
  now apply ids_socketClose.
Qed.

Lemma ids_withMessageId w :
  IdsGenerated w -> IdsGenerated (withMessageId (messageId w + 1) w).
Proof.
  intros H. apply (idsGenerated_step w); worker_fields; try lia; try apply H; auto.
Qed.

Lemma ids_handleSubscribe c id destination headers now w :
  IdsGenerated w ->
  IdsGenerated (fst (fst (handleSubscribe c id destination headers now w))).
Proof.
  intros H. unfold handleSubscribe. destruct (negb (stompConnected w)); [exact H|].
  cbv zeta. pose proof (ids_withMessageId w H) as H1.
  destruct (socketSend _ _) as [es [err|]]; [exact H1|].
  set (w2 := withSubscriptions _ _).
  assert (IdsGenerated w2) as H2.
  { apply (idsGenerated_step w); subst w2; worker_fields; try lia; try apply H.
    - apply keys_set_NoDup, H.
    - auto.
    - intros key I. apply keys_set_In in I as [->|I]; [right | now left].
      exists (messageId w + 1)%Z, now. split; [reflexivity|]. destruct H. lia. }
  destruct (JsMap.get (connections w2) c) as [conn|] eqn:G; cbn [fst]; [|exact H2].
  apply ids_withConnection; [exact H2 | congruence].
Qed.

Lemma ids_handlePortMessage c id request now w :
  IdsGenerated w -> IdsGenerated (fst (handlePortMessage c id request now w)).
Proof.
  intros H. unfold handlePortMessage. cbv zeta.
  assert (IdsGenerated
            (fst (fst
               match request with
               | DisconnectRequest => handleDisconnect c id w
               | SubscribeRequest destination headers =>
                   handleSubscribe c id destination headers now w
               | UnsubscribeRequest subscriptionId => handleUnsubscribe c id subscriptionId w
               | SendRequest destination body headers =>
                   handleSend c id destination body headers w
               | OtherRequest type =>
                   (w, sendError c id ("Unknown message type: " ++ type)%string w, None)
               end))) as K.
  { destruct request as [|d hs|sid|d b hs|type].
    - now apply ids_handleDisconnect.
    - now apply ids_handleSubscribe.
    - now apply ids_handleUnsubscribe.
    - unfold handleSend. destruct (negb (stompConnected w)); [exact H|].
      cbv zeta. destruct (socketSend _ w) as [es [err|]]; exact H.
    - exact H. }
  destruct (match request with
            | DisconnectRequest => _
            | SubscribeRequest destination headers => _
            | UnsubscribeRequest subscriptionId => _
            | SendRequest destination body headers => _
            | OtherRequest type => _
            end) as [[w1 es] [err|]]; exact K.
Qed.

Lemma ids_onConnect now w : IdsGenerated w -> IdsGenerated (fst (onConnect now w)).
Proof.
  intros H. unfold onConnect. cbv zeta. cbn [fst].
  apply (idsGenerated_step w); worker_fields; try lia; try apply H.
  - apply keys_set_NoDup, H.
  - intros key I. apply keys_set_In in I as [->|I]; [right | now left].
    exists (messageId w + 1)%Z, now. split; [reflexivity|]. destruct H. lia.
  - auto.
Qed.

Lemma ids_step e w : IdsGenerated w -> IdsGenerated (step JSON_parse e w).
Proof.
  intros H. destruct e as [now | c id request now | c | socket connected | data ts now];
    cbn [step].
  - now apply ids_onConnect.
  - now apply ids_handlePortMessage.
  - now apply ids_deleted.
  - destruct H. constructor; assumption.
  - cbv zeta. destruct (String.eqb _ "MESSAGE"); [|exact H].
    unfold handleStompMessage. cbv zeta. cbn [fst].
    apply (idsGenerated_step w); worker_fields; try lia; try apply H; auto.
Qed.

Lemma ids_run events : forall w, IdsGenerated w -> IdsGenerated (run JSON_parse events w).
Proof.
  unfold run. induction events as [|e rest IH]; intros w H; cbn [fold_left]; [exact H|].
  apply IH, ids_step, H.
Qed.

Lemma ids_initial : IdsGenerated initialWorker.
Proof. constructor; cbn; try lia; try constructor; intros key []. Qed.

(** X24. Whatever events the worker has processed, a port that connects gets
    a connection id that is in use for no connection and no subscription:
    the connections grow by one, and every connection there was stays as it
    is. *)
Theorem new_port_gets_new_connection (events : list Event) (now : Z) :
  let w := run JSON_parse events initialWorker in
  let w' := fst (onConnect now w) in
  JsMap.get (connections w) (generateId (messageId w + 1) now) = None
  /\ JsMap.get (subscriptions w) (generateId (messageId w + 1) now) = None
  /\ JsMap.size (connections w') = S (JsMap.size (connections w))
  /\ forall other, JsMap.get (connections w) other <> None ->
       JsMap.get (connections w') other = JsMap.get (connections w) other.
Proof.
  intros w w'. pose proof (ids_run events _ ids_initial) as H. fold w in H.
  destruct (next_id_unused w now H) as [NC NS].
  split; [now apply get_absent|]. split; [now apply get_absent|]. split.
  - subst w'. unfold onConnect. cbn [fst connections withConnections withMessageId].
    apply size_set_absent. unfold JsMap.has. now rewrite get_absent.
  - intros other G. subst w'. unfold onConnect.
    cbn [fst connections withConnections withMessageId].
    apply get_set_other. intros <-. apply G. now apply get_absent.
Qed.

(** X25. Whatever events the worker has processed, a subscribe request over an
    open socket with STOMP connected records one more subscription, under
    an id that was in use nowhere, for the destination and the connection of
    the request; the subscriptions there were stay as they are, and the
    frame goes to the socket. *)
Theorem subscribe_adds_one_subscription (events : list Event)
  (connectionId id destination : string) (headers : JsMap.t string) (now : Z) :
  let w := run JSON_parse events initialWorker in
  stompConnected w = true ->
  websocket w = Some OPEN ->
  let result := handleSubscribe connectionId id destination headers now w in
  let subscriptionId := generateId (messageId w + 1) now in
  snd result = None
  /\ JsMap.get (subscriptions w) subscriptionId = None
  /\ JsMap.size (subscriptions (fst (fst result))) = S (JsMap.size (subscriptions w))
  /\ JsMap.get (subscriptions (fst (fst result))) subscriptionId
     = Some {| destination := destination;
               StompSharedWorker.connectionId := connectionId;
               subscriptionHeaders := headers |}
  /\ (forall other, other <> subscriptionId ->
        JsMap.get (subscriptions (fst (fst result))) other
        = JsMap.get (subscriptions w) other)
  /\ In (SocketSend
           (buildStompFrame "SUBSCRIBE"
              (spread [("id", subscriptionId); ("destination", destination)] headers) ""))
        (snd (fst result)).
Proof.
  intros w SC WS. cbv zeta.
  pose proof (ids_run events _ ids_initial) as H. fold w in H.
  destruct (next_id_unused w now H) as [_ NS].
  unfold handleSubscribe. rewrite SC. cbn [negb]. cbv zeta.
  unfold socketSend. cbn [websocket withMessageId]. rewrite WS.
  set (w2 := withSubscriptions _ _).
  assert (subscriptions w2
          = JsMap.set (subscriptions w) (generateId (messageId w + 1) now)
              {| destination := destination;
                 StompSharedWorker.connectionId := connectionId;
                 subscriptionHeaders := headers |}) as S2 by reflexivity.
  assert (forall w3, subscriptions w3 = subscriptions w2 ->
            JsMap.get (subscriptions w) (generateId (messageId w + 1) now) = None
            /\ JsMap.size (subscriptions w3) = S (JsMap.size (subscriptions w))
            /\ JsMap.get (subscriptions w3) (generateId (messageId w + 1) now)
               = Some {| destination := destination;
                         StompSharedWorker.connectionId := connectionId;
                         subscriptionHeaders := headers |}
            /\ (forall other, other <> generateId (messageId w + 1) now ->
                  JsMap.get (subscriptions w3) other = JsMap.get (subscriptions w) other))
    as K.
  { intros w3 ->. rewrite S2. split; [now apply get_absent|]. split.
    - apply size_set_absent. unfold JsMap.has. now rewrite get_absent.
    - split; [apply get_set_same|]. intros other N. apply get_set_other. congruence. }
  destruct (JsMap.get (connections w2) connectionId) as [conn|]; cbn [fst snd].
  - split; [reflexivity|]. destruct (K (withConnections
                                          (JsMap.set (connections w2) connectionId
                                             {| subscriptionIds :=
                                                  setAdd (generateId (messageId w + 1) now)
                                                    (subscriptionIds conn);
                                                active := active conn |}) w2) eq_refl)
      as (K1 & K2 & K3 & K4).
    split; [exact K1|]. split; [exact K2|]. split; [exact K3|]. split; [exact K4|].
    now left.
  - split; [reflexivity|]. destruct (K w2 eq_refl) as (K1 & K2 & K3 & K4).
    split; [exact K1|]. split; [exact K2|]. split; [exact K3|]. split; [exact K4|].
    now left.
Qed.

End LegacyIds.

Section LegacyIdsWitness.

Import StompSharedWorker.

Lemma subscribe_adds_one_subscription_witness :
  JsMap.size
    (subscriptions
       (fst (fst (handleSubscribe (generateId 1 5) "s1" "/topic/a" [] 30
                    (run JsonText.parse openEvents initialWorker)))))
  = S (JsMap.size (subscriptions (run JsonText.parse openEvents initialWorker))).
Proof.
  destruct (subscribe_adds_one_subscription JsonText.parse openEvents (generateId 1 5) "s1"
              "/topic/a" [] 30) as (_ & _ & H & _).
  - vm_compute. reflexivity.
  - vm_compute. reflexivity.
  - exact H.
Defined.

End LegacyIdsWitness.

Section LegacyRetired.

Import StompSharedWorker.

Variable JSON_parse : string -> option JsValue.

Lemma muted_same c w w' :
  JsMap.get (connections w') c = JsMap.get (connections w) c -> muted c w -> muted c w'.
Proof. unfold muted. now intros ->. Qed.

Lemma handleUnsubscribe_messageId c id sid w :
  messageId (fst (fst (handleUnsubscribe c id sid w))) = messageId w.
Proof.
  unfold handleUnsubscribe. destruct (JsMap.get (subscriptions w) sid); [|reflexivity].
  destruct (socketSend _ w) as [es [err|]]; [reflexivity|]. cbn [fst].
  match goal with
  | |- context [JsMap.get (connections ?x) c] => destruct (JsMap.get (connections x) c)
  end; reflexivity.
Qed.

Lemma unsubscribeAll_messageId c ids : forall w,
  messageId (fst (fst (unsubscribeAll c ids w))) = messageId w.
Proof.
  induction ids as [|sid rest IH]; intros w; cbn [unsubscribeAll]; [reflexivity|].
  pose proof (handleUnsubscribe_messageId c "auto-unsubscribe" sid w) as E.
  destruct (handleUnsubscribe c "auto-unsubscribe" sid w) as [[w1 es1] [err|]];
    cbn [fst] in *; [exact E|].
  specialize (IH w1). destruct (unsubscribeAll c rest w1) as [[w2 es2] err2].
  cbn [fst] in *. congruence.
Qed.

Lemma handleDisconnect_messageId c id w :
  messageId (fst (fst (handleDisconnect c id w))) = messageId w.
Proof.
  unfold handleDisconnect. cbv zeta.
  assert (messageId
            (fst (fst
               match JsMap.get (connections w) c with
               | Some connection =>
                   match
                     unsubscribeAll c (subscriptionIds connection)
                       (withConnections
                          (JsMap.set (connections w) c
                             {| subscriptionIds := subscriptionIds connection;
                                active := false |}) w)
                   with
                   | (w1, es, Some error) => (w1, es, Some error)
                   | (w1, es, None) =>
                       (withConnections (JsMap.delete (connections w1) c) w1, es, None)
                   end
               | None => (w, [], None)
               end)) = messageId w) as L.
  { destruct (JsMap.get (connections w) c) as [conn|]; [|reflexivity].
    pose proof (unsubscribeAll_messageId c (subscriptionIds conn)
                  (withConnections
                     (JsMap.set (connections w) c
                        {| subscriptionIds := subscriptionIds conn; active := false |}) w))
      as E.
    destruct (unsubscribeAll c (subscriptionIds conn) _) as [[w1 es] [err|]]; exact E. }
  destruct (match JsMap.get (connections w) c with
            | Some connection => _
            | None => _
            end) as [[w1 es1] [err|]]; cbn [fst] in *; [exact L|].
  destruct (websocket w1) as [state|] eqn:W; [|exact L].
  destruct (Nat.eqb (JsMap.size (connections w1)) 0); [|exact L].
  destruct (socketSend _ w1) as [es [err|]]; cbn [fst]; [exact L|].
  unfold socketClose. rewrite W. destruct state; exact L.
Qed.

Lemma step_messageId e w : (messageId w <= messageId (step JSON_parse e w))%Z.
Proof.
  destruct e as [now | c id request now | c | socket connected | data ts now]; cbn [step].
  - cbn. lia.
  - unfold handlePortMessage. cbv zeta.
    assert (messageId w
            <= messageId
                 (fst (fst
                    match request with
                    | DisconnectRequest => handleDisconnect c id w
                    | SubscribeRequest destination headers =>
                        handleSubscribe c id destination headers now w
                    | UnsubscribeRequest subscriptionId =>
                        handleUnsubscribe c id subscriptionId w
                    | SendRequest destination body headers =>
                        handleSend c id destination body headers w
                    | OtherRequest type =>
                        (w, sendError c id ("Unknown message type: " ++ type)%string w, None)
                    end)))%Z as K.
    { destruct request as [|d hs|sid|d b hs|type].
      - rewrite handleDisconnect_messageId. lia.
      - unfold handleSubscribe. destruct (negb (stompConnected w)); [cbn; lia|].
        cbv zeta. destruct (socketSend _ _) as [es [err|]]; [cbn; lia|]. cbn [fst].
        match goal with
        | |- context [JsMap.get (connections ?x) c] => destruct (JsMap.get (connections x) c)
        end; cbn; lia.
      - rewrite handleUnsubscribe_messageId. lia.
      - unfold handleSend. destruct (negb (stompConnected w)); [cbn; lia|].
        cbv zeta. destruct (socketSend _ w) as [es [err|]]; cbn; lia.
      - cbn. lia. }
    destruct (match request with
              | DisconnectRequest => _
              | SubscribeRequest destination headers => _
              | UnsubscribeRequest subscriptionId => _
              | SendRequest destination body headers => _
              | OtherRequest type => _
              end) as [[w1 es] [err|]]; exact K.
  - cbn. lia.
  - cbn. lia.
  - cbv zeta. destruct (String.eqb _ "MESSAGE"); cbn; lia.
Qed.

(** A connection that cannot be posted to stays so through a request of
    any connection. *)
Lemma handlePortMessage_muted c c' id request now w :
  NoDup (JsMap.keys (connections w)) ->
  muted c w -> muted c (fst (handlePortMessage c' id request now w)).
Proof.
  intros N M. unfold handlePortMessage. cbv zeta.
  assert (muted c
            (fst (fst
               match request with
               | DisconnectRequest => handleDisconnect c' id w
               | SubscribeRequest destination headers =>
                   handleSubscribe c' id destination headers now w
               | UnsubscribeRequest subscriptionId => handleUnsubscribe c' id subscriptionId w
               | SendRequest destination body headers =>
                   handleSend c' id destination body headers w
               | OtherRequest type =>
                   (w, sendError c' id ("Unknown message type: " ++ type)%string w, None)
               end))) as K.
  { destruct request as [|d hs|sid|d b hs|type].
    - unfold handleDisconnect. cbv zeta.
      destruct (handleDisconnect_leaves c' w N) as (M' & _ & _ & O & _).
      cbv zeta in M', O.
      assert (muted c
                (fst (fst
                   match JsMap.get (connections w) c' with
                   | Some connection =>
                       match
                         unsubscribeAll c' (subscriptionIds connection)
                           (withConnections
                              (JsMap.set (connections w) c'
                                 {| subscriptionIds := subscriptionIds connection;
                                    active := false |}) w)
                       with
                       | (w1, es, Some error) => (w1, es, Some error)
                       | (w1, es, None) =>
                           (withConnections (JsMap.delete (connections w1) c') w1, es, None)
                       end
                   | None => (w, [], None)
                   end))) as L.
      { destruct (string_dec c c') as [->|X]; [exact M'|].
        eapply muted_same; [apply O, X | exact M]. }
      destruct (match JsMap.get (connections w) c' with
                | Some connection => _
                | None => _
                end) as [[w1 es1] [err|]]; cbn [fst] in *; [exact L|].
      destruct (websocket w1) as [state|] eqn:W; [|exact L].
      destruct (Nat.eqb (JsMap.size (connections w1)) 0); [|exact L].
      destruct (socketSend _ w1) as [es [err|]]; cbn [fst]; [exact L|].
      unfold socketClose. rewrite W. destruct state; exact L.
    - unfold handleSubscribe. destruct (negb (stompConnected w)); [exact M|].
      cbv zeta. destruct (socketSend _ _) as [es [err|]]; [exact M|]. cbn [fst].
      set (w2 := withSubscriptions _ _).
      destruct (JsMap.get (connections w2) c') as [conn|] eqn:G; [|exact M].
      unfold muted. cbn [connections withConnections].
      destruct (string_dec c' c) as [->|X].
      + rewrite get_set_same. cbn. unfold muted in M.
        change (connections w2) with (connections w) in G. now rewrite G in M.
      + rewrite get_set_other by exact X. exact M.
    - destruct (handleUnsubscribe_facts c' id sid w) as (_ & _ & O & M').
      destruct (string_dec c c') as [->|X]; [now apply M'|].
      eapply muted_same; [apply O, X | exact M].
    - unfold handleSend. destruct (negb (stompConnected w)); [exact M|].
      cbv zeta. destruct (socketSend _ w) as [es [err|]]; exact M.
    - exact M. }
  destruct (match request with
            | DisconnectRequest => _
            | SubscribeRequest destination headers => _
            | UnsubscribeRequest subscriptionId => _
            | SendRequest destination body headers => _
            | OtherRequest type => _
            end) as [[w1 es] [err|]]; exact K.
Qed.

Lemma retired_step c e w : Retired c w -> Retired c (step JSON_parse e w).
Proof.
  intros [H M G]. constructor.
  - now apply ids_step.
  - destruct e as [now | c' id request now | c' | socket connected | data ts now];
      cbn [step].
    + unfold onConnect. cbv zeta. cbn [fst]. unfold muted.
      cbn [connections withConnections withMessageId].
      rewrite get_set_other; [exact M|].
      intros E. destruct G as (n & t & -> & B).
      apply generateId_counter in E; destruct H; lia.
    + apply handlePortMessage_muted; [apply H | exact M].
    + unfold muted, handlePortError. cbn [connections withConnections].
      destruct (string_dec c' c) as [->|X].
      * rewrite get_delete_same by apply H. exact I.
      * rewrite get_delete_other by exact X. exact M.
    + exact M.
    + cbv zeta. destruct (String.eqb _ "MESSAGE"); exact M.
  - eapply generatedBelow_le; [apply step_messageId | exact G].
Qed.

Lemma retired_run c events : forall w, Retired c w -> Retired c (run JSON_parse events w).
Proof.
  unfold run. induction events as [|e rest IH]; intros w H; cbn [fold_left]; [exact H|].
  apply IH, retired_step, H.
Qed.

(** X26. A connection that has asked to disconnect is never posted to again:
    whatever events the worker had processed before the request and
    whatever events follow it, [sendToPort] for that connection posts
    nothing, because the connection is gone or inactive and no later port
    gets its id. *)
Theorem disconnected_connection_is_never_posted_to (events later : list Event)
  (connectionId id : string) (now : Z) (m : Message) :
  let w := run JSON_parse events initialWorker in
  JsMap.get (connections w) connectionId <> None ->
  let w' :=
    run JSON_parse later (step JSON_parse (PortMessage connectionId id DisconnectRequest now) w) in
  sendToPort connectionId m w' = [] /\ muted connectionId w'.
Proof.
  intros w G w'.
  pose proof (ids_run JSON_parse events _ ids_initial) as H. fold w in H.
  assert (Retired connectionId
            (step JSON_parse (PortMessage connectionId id DisconnectRequest now) w)) as R.
  { constructor.
    - now apply ids_step.
    - cbn [step]. unfold handlePortMessage, handleDisconnect. cbv zeta.
      destruct (handleDisconnect_leaves connectionId w (connectionKeys w H)) as (M & _).
      cbv zeta in M.
      destruct (match JsMap.get (connections w) connectionId with
                | Some connection => _
                | None => _
                end) as [[w1 es1] [err|]]; cbn [fst] in *; [exact M|].
      destruct (websocket w1) as [state|] eqn:W; [|exact M].
      destruct (Nat.eqb (JsMap.size (connections w1)) 0); [|exact M].
      destruct (socketSend _ w1) as [es [err|]]; cbn [fst]; [exact M|].
      unfold socketClose. rewrite W. destruct state; exact M.
    - eapply generatedBelow_le; [apply step_messageId|].
      apply H. apply has_keys. unfold JsMap.has.
      destruct (JsMap.get (connections w) connectionId); [reflexivity | congruence]. }
  pose proof (retired_run connectionId later _ R) as [_ M _]. fold w' in M.
  split; [now apply sendToPort_muted | exact M].
Qed.

End LegacyRetired.

Section LegacyRetiredWitness.

Import StompSharedWorker.

Lemma disconnected_connection_is_never_posted_to_witness :
  sendToPort (generateId 1 5) (ConnectionConfirmed (generateId 1 5))
    (run JsonText.parse [PortConnects 50; SocketChanges (Some OPEN) true]
       (step JsonText.parse (PortMessage (generateId 1 5) "d1" DisconnectRequest 40)
          (run JsonText.parse openEvents initialWorker))) = [].
Proof.
  destruct (disconnected_connection_is_never_posted_to JsonText.parse openEvents
              [PortConnects 50; SocketChanges (Some OPEN) true] (generateId 1 5) "d1" 40
              (ConnectionConfirmed (generateId 1 5))) as [H _].
  - vm_compute. discriminate.
  - exact H.
Defined.

End LegacyRetiredWitness.

(** * The services and their workers *)

Section ServiceAndPlainWorker.

Variable JSON_parse : string -> option JsValue.
Context {engine : Engine}.

Lemma postsTo_none c es :
  filter StompSharedWorker.isPost es = [] -> StompSharedWorker.postsTo c es = [].
Proof.
  induction es as [|e es IH]; [reflexivity|]. destruct e as [c' m| |]; cbn.
  - discriminate.
  - exact IH.
  - exact IH.
Qed.

Lemma removeNth_last {A} (l : list A) x : removeNth (List.length l) (l ++ [x]) = l.
Proof. induction l as [|y l IH]; cbn; [reflexivity | now rewrite IH]. Qed.

Lemma run_keeps_port events : forall s,
  PendingMap.portAvailable (PendingMap.run events s) = PendingMap.portAvailable s.
Proof.
  unfold PendingMap.run.
  induction events as [|e es IH]; intros s; cbn [fold_left]; [reflexivity|].
  rewrite IH. destruct e as [type now | response | j | c]; cbn [PendingMap.step].
  - unfold PendingMap.sendWorkerMessage.
    destruct (negb (PendingMap.portAvailable s)); reflexivity.
  - unfold PendingMap.handleWorkerMessage.
    destruct (JsMap.get _ _); [reflexivity|]. apply handleBroadcast_requests.
  - destruct (nth_error _ j); [|reflexivity].
    unfold PendingMap.onTimeout. cbn.
    destruct (JsMap.has _ _); reflexivity.
  - reflexivity.
Qed.

(** Messages with other ids leave a pending entry and the timers alone. *)
Lemma messages_keep_entry id k between : forall s,
  Forall (fun response => PendingMap.id response <> id) between ->
  JsMap.get (PendingMap.pendingMessages s) id = Some k ->
  JsMap.get
    (PendingMap.pendingMessages
       (PendingMap.run (map PendingMap.Message between) s)) id = Some k
  /\ PendingMap.timers (PendingMap.run (map PendingMap.Message between) s)
     = PendingMap.timers s.
Proof.
  unfold PendingMap.run.
  induction between as [|response rest IH]; intros s F G; cbn [map fold_left];
    [now split|].
  inversion F as [|? ? N F']; subst.
  assert (JsMap.get (PendingMap.pendingMessages
                       (PendingMap.handleWorkerMessage response s)) id = Some k
          /\ PendingMap.timers (PendingMap.handleWorkerMessage response s)
             = PendingMap.timers s) as [G' T].
  { unfold PendingMap.handleWorkerMessage.
    destruct (JsMap.get (PendingMap.pendingMessages s) (PendingMap.id response)).
    - cbn. split; [|reflexivity]. now rewrite get_delete_other.
    - destruct (handleBroadcast_requests response s) as (_ & _ & -> & _ & _ & -> & _).
      now split. }
  cbn [PendingMap.step]. destruct (IH _ F' G') as [G2 T2]. split; [exact G2|].
  now rewrite T2.
Qed.

(** X27. [StompClientService] asks the plain worker to disconnect: the worker
    posts nothing back for the request, so it stays pending through every
    message of the worker that carries another id, until its timer fires,
    and is then rejected with the timeout error, whatever the worker and
    the service had done before. (The worker's own message ids have the
    format of the service's: a message that carries the id of the request
    settles it like a response.) *)
Theorem service_disconnect_times_out
  (workerEvents : list StompSharedWorker.Event) (serviceEvents : list PendingMap.Event)
  (between : list PendingMap.WorkerResponse)
  (connectionId : string) (sent handled : Z) :
  let w := StompSharedWorker.run JSON_parse workerEvents StompSharedWorker.initialWorker in
  let s := PendingMap.run serviceEvents (PendingMap.initial true) in
  let id := PendingMap.generateMessageId (PendingMap.messageId s + 1) sent in
  let s1 := PendingMap.sendWorkerMessage "disconnect" sent s in
  let s2 := PendingMap.run (map PendingMap.Message between) s1 in
  let s3 := PendingMap.step (PendingMap.TimerFires (List.length (PendingMap.timers s))) s2 in
  Forall (fun response => PendingMap.id response <> id) between ->
  StompSharedWorker.postsTo connectionId
    (snd (StompSharedWorker.handlePortMessage connectionId id
            StompSharedWorker.DisconnectRequest handled w)) = []
  /\ PendingMap.posted s1 = PendingMap.posted s ++ [(id, "disconnect")]
  /\ promiseState (PendingMap.calls s2) (PendingMap.promises s) = None
  /\ promiseState (PendingMap.calls s3) (PendingMap.promises s)
     = Some (Rejected (timeoutMessage "disconnect")).
Proof.
  intros w s id s1 s2 s3 F.
  pose proof (ids_run JSON_parse workerEvents _ ids_initial) as H. fold w in H.
  split.
  { apply postsTo_none.
    apply (disconnect_posts_nothing connectionId id handled w).
    apply H. }
  pose proof (pendingMap_run serviceEvents _ (pendingMap_initial true)) as I. fold s in I.
  assert (PendingMap.portAvailable s = true) as A
    by (subst s; now rewrite run_keeps_port).
  assert (PendingMapInvariant.Invariant s2) as I2.
  { subst s2 s1. apply pendingMap_run. now apply pendingMap_send. }
  assert (PendingMap.pendingMessages s1
          = JsMap.set (PendingMap.pendingMessages s) id (PendingMap.promises s)
          /\ PendingMap.timers s1
             = PendingMap.timers s
               ++ [{| PendingMap.timerId := id;
                      PendingMap.timerPromise := PendingMap.promises s;
                      PendingMap.timerType := "disconnect";
                      PendingMap.timerDelay := 10000 |}]
          /\ PendingMap.posted s1 = PendingMap.posted s ++ [(id, "disconnect")])
    as (M1 & T1 & P1).
  { subst s1. unfold PendingMap.sendWorkerMessage. rewrite A. cbn [negb]. cbn.
    auto. }
  split; [exact P1|].
  destruct (messages_keep_entry id (PendingMap.promises s) between s1 F) as [G2 T2].
  { rewrite M1. apply get_set_same. }
  fold s2 in G2, T2.
  destruct (PendingMapInvariant.pendingEntry s2 I2 _ _ G2) as [U _].
  split; [now apply promiseState_None|].
  subst s3. cbn [PendingMap.step]. rewrite T2, T1.
  rewrite nth_error_app2, Nat.sub_diag by lia. cbn [nth_error].
  unfold PendingMap.onTimeout.
  cbn [PendingMap.timerId PendingMap.pendingMessages PendingMap.withTimers].
  unfold JsMap.has. rewrite G2.
  cbn [PendingMap.calls PendingMap.timerPromise PendingMap.timerType].
  apply promiseState_first; [exact U|]. cbn. now rewrite Nat.eqb_refl.
Qed.

End ServiceAndPlainWorker.

Section Sample_service_disconnect_times_out.

#[local] Existing Instance ownProperties.

(** A [status] broadcast and a data message of the worker, with the
    worker's own ids, arrive while the disconnect request is pending. *)
Lemma service_disconnect_times_out_witness :
  Forall (fun response =>
            PendingMap.id response <> PendingMap.generateMessageId 1 100)
    [PendingMap.mkWorkerResponse "msg-1-90" "status"
       (Some (JObj [("connected", JBool true)])) None;
     PendingMap.mkWorkerResponse "msg-2-95" "message" (Some (JStr "tick")) None]
  /\ promiseState
       (PendingMap.calls
          (PendingMap.step (PendingMap.TimerFires 0)
             (PendingMap.run
                (map PendingMap.Message
                   [PendingMap.mkWorkerResponse "msg-1-90" "status"
                      (Some (JObj [("connected", JBool true)])) None;
                    PendingMap.mkWorkerResponse "msg-2-95" "message"
                      (Some (JStr "tick")) None])
                (PendingMap.sendWorkerMessage "disconnect" 100
                   (PendingMap.initial true))))) 0
     = Some (Rejected (timeoutMessage "disconnect")).
Proof.
  assert (Forall (fun response =>
                    PendingMap.id response <> PendingMap.generateMessageId 1 100)
            [PendingMap.mkWorkerResponse "msg-1-90" "status"
               (Some (JObj [("connected", JBool true)])) None;
             PendingMap.mkWorkerResponse "msg-2-95" "message"
               (Some (JStr "tick")) None]) as F
    by (repeat constructor; vm_compute; discriminate).
  split; [exact F|].
  exact (proj2 (proj2 (proj2
    (service_disconnect_times_out JsonText.parse [] [] _ "conn-1" 100 110 F)))).
Defined.

End Sample_service_disconnect_times_out.

(** * Sessions of the enhanced service, and what a provider keeps *)

Lemma orString_truthy (a : option string) (b : string) :
  truthy b = true -> truthy (orString a b) = true.
Proof.
  intros B. unfold orString. destruct a as [s|]; [|exact B].
  destruct (truthy s) eqn:T; [exact T | exact B].
Qed.

(** X28. Whatever configuration [StompClientEnhancedService.connect] is given,
    its connect request carries an end token that is not empty: the token
    of the configuration, or ["success"] when that is missing or empty. So
    for a session of this service the end-token test of the worker is never
    switched off, and it is the search for the token or for ["success"]. *)
Theorem service_always_sets_end_token (config : StompClientEnhancedService.StompConfig)
  (body : string) :
  let sent := StompClientEnhancedService.workerConfig config in
  snapshotEndToken sent
  = Some (orString (StompClientEnhancedService.snapshotEndToken config) "success")
  /\ truthy (orString (StompClientEnhancedService.snapshotEndToken config) "success") = true
  /\ ~ noEndToken sent
  /\ isEndToken sent body
     = includes (toLowerCase (trim body))
         (toLowerCase (orString (StompClientEnhancedService.snapshotEndToken config)
                         "success"))
       || includes (toLowerCase (trim body)) "success".
Proof.
  cbv zeta. pose proof (orString_truthy
                          (StompClientEnhancedService.snapshotEndToken config) "success"
                          eq_refl) as T.
  split; [reflexivity|]. split; [exact T|]. split.
  - intros [N|N]; cbn in N; [discriminate|]. injection N as N. rewrite N in T. discriminate.
  - apply isEndToken_set; [reflexivity|]. intros N. rewrite N in T. discriminate.
Qed.

Section ProviderKeeps.

Variable JSON_parse : string -> option JsValue.
Context {engine : Engine}.

Section Forward.

Variable R : ProviderConnection -> ProviderConnection -> Prop.
Hypothesis R_refl : forall p, R p p.
Hypothesis R_trans : forall p q r, R p q -> R q r -> R p r.
Hypothesis R_method : forall ok p q, Method JSON_parse ok p q -> R p q.

Lemma methods_forward ok p q : Methods JSON_parse ok p q -> R p q.
Proof.
  intros M. induction M as [|p q r _ IH S]; [apply R_refl|].
  eapply R_trans; [exact IH | eapply R_method, S].
Qed.

Lemma run_forward events : forall w ref p,
  nth_error (objects w) ref = Some p ->
  exists p', nth_error (objects (fst (run JSON_parse events w))) ref = Some p' /\ R p p'.
Proof.
  induction events as [|e rest IH]; intros w ref p E; cbn [run].
  - exists p. split; [exact E | apply R_refl].
  - destruct (step_forward JSON_parse e w ref p E) as (p1 & E1 & M).
    destruct (step JSON_parse e w) as [w1 out1]. cbn [fst] in E1.
    destruct (IH w1 ref p1 E1) as (p2 & E2 & G).
    destruct (run JSON_parse rest w1) as [w2 out2]. cbn [fst] in *.
    exists p2. split; [exact E2|].
    eapply R_trans; [eapply methods_forward, M | exact G].
Qed.

End Forward.

Lemma method_subscribers ok p q : Method JSON_parse ok p q -> keepsSubscribers p q.
Proof.
  intros [p0 portId port | sl cid p0 | p0 | c cb now p0 _] k H.
  - cbn. apply has_set. now right.
  - unfold connect. destruct (isConnecting p0 || isConnected (statistics p0)); [exact H|].
    destruct sl; exact H.
  - exact H.
  - destruct cb; cbn [callback]; try exact H.
    + unfold onConnect. cbn. destruct (connection p0); exact H.
    + destruct (handleMessage_frame JSON_parse body now p0) as (_ & S & _).
      now rewrite S.
Qed.

(** X29. A port that is attached to a provider connection stays attached:
    no request, not a disconnect or a refresh by anyone, and no callback of
    the transport removes it from the subscribers, so it is posted every
    later broadcast of that provider connection. *)
Theorem subscribers_are_never_removed (events : list Event) (w : Worker) (ref : nat)
  (p : ProviderConnection) (portId : string) :
  nth_error (objects w) ref = Some p ->
  JsMap.has (subscribers p) portId = true ->
  exists p', nth_error (objects (fst (run JSON_parse events w))) ref = Some p'
             /\ JsMap.has (subscribers p') portId = true.
Proof.
  intros E H.
  destruct (run_forward keepsSubscribers) with (events := events) (w := w) (ref := ref) (p := p)
    as (p' & E' & K).
  - intros q k G. exact G.
  - intros a b c A B k G. apply B, A, G.
  - apply method_subscribers.
  - exact E.
  - exists p'. split; [exact E' | now apply K].
Qed.

(** X30. A provider connection keeps the id and the configuration it was
    created with: a later connect request under the same provider id, with
    whatever configuration, attaches to it and leaves its configuration as
    the first request set it. *)
Theorem provider_keeps_id_and_config (events : list Event) (w : Worker) (ref : nat)
  (p : ProviderConnection) :
  nth_error (objects w) ref = Some p ->
  exists p', nth_error (objects (fst (run JSON_parse events w))) ref = Some p'
             /\ providerId p' = providerId p /\ config p' = config p.
Proof.
  intros E.
  destruct (run_forward sameProvider) with (events := events) (w := w) (ref := ref) (p := p)
    as (p' & E' & K).
  - intros q. now split.
  - intros a b c [A1 A2] [B1 B2]. split; congruence.
  - intros ok a b M. split; [eapply method_providerId, M | eapply method_config, M].
  - exact E.
  - exists p'. split; [exact E' | exact K].
Qed.

End ProviderKeeps.

Section Sample_subscribers_are_never_removed_witness.

#[local] Existing Instance ownProperties.

Lemma subscribers_are_never_removed_witness :
  exists p',
    nth_error (objects (fst (run JsonText.parse
                               [firstDisconnects;
                                Transport 0 (sampleClient scenarioConfig) OnDisconnect 50]
                               sharedWorker))) 0 = Some p'
    /\ JsMap.has (subscribers p') "port-1-1" = true.
Proof.
  apply (subscribers_are_never_removed JsonText.parse
           [firstDisconnects; Transport 0 (sampleClient scenarioConfig) OnDisconnect 50]
           sharedWorker 0 (firstObject sharedWorker) "port-1-1");
    vm_compute; reflexivity.
Defined.

End Sample_subscribers_are_never_removed_witness.

Section Sample_provider_keeps_id_and_config_witness.

#[local] Existing Instance ownProperties.

Lemma provider_keeps_id_and_config_witness :
  exists p',
    nth_error (objects (fst (run JsonText.parse
                               [PortMessage "port-2-2" "c3" (ConnectRequest "P" bareConfig) 60
                                  "stomp-60-eeee"]
                               sharedWorker))) 0 = Some p'
    /\ providerId p' = providerId (firstObject sharedWorker)
    /\ config p' = config (firstObject sharedWorker).
Proof.
  apply (provider_keeps_id_and_config JsonText.parse
           [PortMessage "port-2-2" "c3" (ConnectRequest "P" bareConfig) 60 "stomp-60-eeee"]
           sharedWorker 0 (firstObject sharedWorker)).
  vm_compute; reflexivity.
Defined.

End Sample_provider_keeps_id_and_config_witness.
